(** * blade/target.py: the target object model

    A shallow embedding of [src/blade/target.py]: the target key parser,
    the [Target] class with its dependency resolver, visibility check,
    source-ownership registry, fingerprint and lazily generated build code.

    Python strings are modelled as byte strings ([string]); the regular
    expression class [\w] is the ASCII one (letters, digits, underscore),
    which is what Python 2 uses and what Python 3 uses on ASCII text, and
    white space is that of Python 3 on ASCII text. A statement that rests
    on a character class is made for ASCII text. [re.search] raises
    [re.error] when its pattern does not compile. *)

From Stdlib Require Import Ascii String.
From stdpp Require Import base option list strings pretty gmap fin_maps sorting.

Open Scope string_scope.
Open Scope list_scope.

(** ** Python string primitives *)

Module PyStr.

(** The one-character string holding a double quote. *)
Definition dq : string := String "034"%char "".

(** [s.startswith(p)] *)
Fixpoint startswith (s p : string) {struct p} : bool :=
  match p, s with
  | "", _ => true
  | String _ _, "" => false
  | String b p', String a s' => Ascii.eqb a b && startswith s' p'
  end.

(** [sub in s] *)
Fixpoint contains (sub s : string) : bool :=
  if startswith s sub then true
  else match s with
       | "" => false
       | String _ s' => contains sub s'
       end.

(** [s[n:]] *)
Fixpoint drop (n : nat) (s : string) : string :=
  match n, s with
  | O, _ => s
  | S n', String _ s' => drop n' s'
  | S _, "" => ""
  end.

(** [s.count(c)] for a one-character needle. *)
Fixpoint count_char (c : ascii) (s : string) : nat :=
  match s with
  | "" => 0
  | String a s' => (if Ascii.eqb a c then 1 else 0) + count_char c s'
  end.

(** [s.rstrip(c)] for a one-character set: drops every trailing [c]. *)
Fixpoint rstrip_char (c : ascii) (s : string) : string :=
  match s with
  | "" => ""
  | String a s' =>
      match rstrip_char c s' with
      | "" => if Ascii.eqb a c then "" else String a ""
      | r => String a r
      end
  end.

(** Longest prefix of characters satisfying [p], and the rest. *)
Fixpoint span (p : ascii -> bool) (s : string) : string * string :=
  match s with
  | "" => ("", "")
  | String a s' =>
      if p a then let '(h, t) := span p s' in (String a h, t)
      else ("", s)
  end.

(** [s.split(c)] for a one-character separator: never the empty list. *)
Fixpoint split_char (c : ascii) (s : string) : list string :=
  match s with
  | "" => [""]
  | String a s' =>
      if Ascii.eqb a c then "" :: split_char c s'
      else match split_char c s' with
           | [] => [String a ""]
           | h :: t => String a h :: t
           end
  end.

(** [sep.join(l)] *)
Fixpoint join (sep : string) (l : list string) : string :=
  match l with
  | [] => ""
  | [x] => x
  | x :: rest => x +:+ sep +:+ join sep rest
  end.

(** [c * n] for a one-character string. *)
Fixpoint repeat_char (c : ascii) (n : nat) : string :=
  match n with
  | O => ""
  | S n' => String c (repeat_char c n')
  end.

(** White space as [str.strip()] and [\s] see it on ASCII text in
    Python 3: space, tab, line feed, vertical tab, form feed, carriage
    return, and the four information separators (28 to 31). *)
Definition is_space (c : ascii) : bool :=
  let n := nat_of_ascii c in
  (n =? 32)%nat || ((9 <=? n)%nat && (n <=? 13)%nat)
  || ((28 <=? n)%nat && (n <=? 31)%nat).

Fixpoint lstrip (s : string) : string :=
  match s with
  | "" => ""
  | String a s' => if is_space a then lstrip s' else s
  end.

(** Drops trailing white space. *)
Fixpoint rstrip (s : string) : string :=
  match s with
  | "" => ""
  | String a s' =>
      match rstrip s' with
      | "" => if is_space a then "" else String a ""
      | r => String a r
      end
  end.

(** [s.strip()] *)
Definition strip (s : string) : string := rstrip (lstrip s).

(** [s.rfind(c)] for a one-character needle: the last index, if any. *)
Fixpoint rfind_char (c : ascii) (s : string) : option nat :=
  match s with
  | "" => None
  | String a s' =>
      match rfind_char c s' with
      | Some i => Some (S i)
      | None => if Ascii.eqb a c then Some 0 else None
      end
  end.

(** [s[:n]] *)
Fixpoint take (n : nat) (s : string) : string :=
  match n, s with
  | O, _ => ""
  | S n', String a s' => String a (take n' s')
  | S _, "" => ""
  end.

(** [\w] *)
Definition is_word (c : ascii) : bool :=
  let n := nat_of_ascii c in
  ((48 <=? n)%nat && (n <=? 57)%nat)
  || ((65 <=? n)%nat && (n <=? 90)%nat)
  || ((97 <=? n)%nat && (n <=? 122)%nat)
  || (n =? 95)%nat.

End PyStr.

(** ** [os.path] (posixpath) *)

Module OsPath.

(** One step of the component loop of [normpath]. *)
Definition norm_step (initial_slashes : nat) (new_comps : list string)
    (comp : string) : list string :=
  if bool_decide (comp = "" \/ comp = ".") then new_comps
  else if bool_decide (comp <> ".."
                       \/ (initial_slashes = 0 /\ new_comps = [])
                       \/ (new_comps <> [] /\ last new_comps = Some ".."))
       then new_comps ++ [comp]
       else if bool_decide (new_comps <> []) then removelast new_comps
            else new_comps.

(** [os.path.normpath(path)] *)
Definition normpath (path : string) : string :=
  if bool_decide (path = "") then "."
  else
    let initial_slashes :=
      if PyStr.startswith path "/" then
        if PyStr.startswith path "//" && negb (PyStr.startswith path "///")
        then 2 else 1
      else 0 in
    let comps := PyStr.split_char "/" path in
    let new_comps := fold_left (norm_step initial_slashes) comps [] in
    let path' :=
      PyStr.repeat_char "/" initial_slashes +:+ PyStr.join "/" new_comps in
    if bool_decide (path' = "") then "." else path'.

(** [s.endswith("/")] *)
Fixpoint endswith_slash (s : string) : bool :=
  match s with
  | "" => false
  | String a "" => Ascii.eqb a "/"
  | String _ s' => endswith_slash s'
  end.

(** [os.path.join(a, b)] *)
Definition join (a b : string) : string :=
  if PyStr.startswith b "/" then b
  else if bool_decide (a = "") || endswith_slash a then a +:+ b
       else a +:+ "/" +:+ b.

(** The loop of [genericpath._splitext] that skips leading dots:
    [true] when some character in [filenameIndex, dotIndex) is not a dot. *)
Fixpoint has_non_dot (s : string) (n : nat) : bool :=
  match n, s with
  | O, _ => false
  | S n', String a s' => if Ascii.eqb a "." then has_non_dot s' n' else true
  | S _, "" => true
  end.

(** [os.path.splitext(p)] *)
Definition splitext (p : string) : string * string :=
  let filenameIndex :=
    match PyStr.rfind_char "/" p with Some i => S i | None => 0 end in
  match PyStr.rfind_char "." p with
  | Some dotIndex =>
      if (filenameIndex <=? dotIndex)%nat
         && has_non_dot (PyStr.drop filenameIndex p) (dotIndex - filenameIndex)
      then (PyStr.take dotIndex p, PyStr.drop dotIndex p)
      else (p, "")
  | None => (p, "")
  end.

End OsPath.

(** ** The target key parser *)

(** [[\w./+-]], the characters of the directory part of [_TARGET_RE]. *)
Definition is_path_char (c : ascii) : bool :=
  PyStr.is_word c
  || Ascii.eqb c "." || Ascii.eqb c "/" || Ascii.eqb c "+" || Ascii.eqb c "-".

(** [[\w.+-]], the characters of the name part of [_TARGET_RE]. *)
Definition is_name_char (c : ascii) : bool :=
  PyStr.is_word c || Ascii.eqb c "." || Ascii.eqb c "+" || Ascii.eqb c "-".

(** [$] outside MULTILINE mode: the end of the text, or just before a
    line feed that ends the text. *)
Definition at_dollar (s : string) : bool :=
  bool_decide (s = "") || bool_decide (s = String "010"%char "").

(** The tail of [_TARGET_RE], the group [name] (a starred [[\w.+-]])
    followed by [$], run after the [path] group matched [path]. The star is
    greedy; a shorter name cannot help, since the character after it would
    be a name character, where [$] fails. *)
Definition target_re_name (path rest : string) : option (string * string) :=
  let '(name, tail) := PyStr.span is_name_char rest in
  if at_dollar tail then Some (path, name) else None.

(** First alternative of the [path] group: [((//)?[\w./+-]+)?:]. The slash
    is a path character, so the optional [//] adds no text of its own, and
    the directory is the longest run of path characters: the colon that
    must follow is not one of them. *)
Definition target_re_alt_path (dep : string) : option (string * string) :=
  let '(dir, rest) := PyStr.span is_path_char dep in
  match rest with
  | String ":" rest' => target_re_name (dir +:+ ":") rest'
  | _ => None
  end.

(** Second alternative of the [path] group: [#]. *)
Definition target_re_alt_hash (dep : string) : option (string * string) :=
  match dep with
  | String "#" rest' => target_re_name "#" rest'
  | _ => None
  end.

(** [_TARGET_RE.match(dep)]: the groups [(path, name)] of the match of
    [_TARGET_RE] at the start of [dep], or [None]. The pattern is the
    [path] group, either [((//)?[\w./+-]+)?:] or [#], then the [name]
    group, then [$]. *)
Definition _TARGET_RE_match (dep : string) : option (string * string) :=
  match target_re_alt_path dep with
  | Some m => Some m
  | None => target_re_alt_hash dep
  end.

Definition msg_absolute_path : string := "absolute path is not allowed".
Definition msg_parent_path : string :=
  "parent path " +:+ PyStr.dq +:+ ".." +:+ PyStr.dq +:+ " is not allowed".
Definition msg_format_error : string := "format error".
Definition msg_missing_comma : string :=
  ", missing " +:+ PyStr.dq +:+ "," +:+ PyStr.dq +:+ " between targets?".
Definition msg_empty_name : string := "empty name".

Definition _check_path (path : string) : list string :=
  let msg := [] in
  let path := if PyStr.startswith path "//" then PyStr.drop 2 path else path in
  let msg := if PyStr.startswith path "/" then msg ++ [msg_absolute_path]
             else msg in
  let msg := if PyStr.contains ".." path then msg ++ [msg_parent_path]
             else msg in
  msg.

(** What [_parse_target] returns: [(path, name, msgs)], where [msgs] is
    [None] on success and a list of messages otherwise. *)
Definition parse_result : Type := string * string * option (list string).

(** The body of [_parse_target] below the cache lookup. *)
Definition parse_target_uncached (dep : string) : parse_result :=
  let '(path, name, msgs) :=
    match _TARGET_RE_match dep with
    | None =>
        let msg := msg_format_error in
        let msg := if (1 <? PyStr.count_char ":" dep)%nat
                   then msg +:+ msg_missing_comma else msg in
        ("", "", [msg])
    | Some (path_group, name_group) =>
        let path := PyStr.rstrip_char ":" path_group in
        let name := name_group in
        let msgs := _check_path path in
        let msgs := if bool_decide (name = "") then msgs ++ [msg_empty_name]
                    else msgs in
        (path, name, msgs)
    end in
  match msgs with
  | _ :: _ => ("", "", Some msgs)
  | [] =>
      let path := if bool_decide (path = "") then path
                  else OsPath.normpath path in
      (path, name, None)
  end.

(** [_parse_target(dep)], with the process-wide cache [_parse_target.cache]
    threaded through. *)
Definition _parse_target (cache : gmap string parse_result) (dep : string)
    : parse_result * gmap string parse_result :=
  match cache !! dep with
  | Some result => (result, cache)
  | None =>
      let result := parse_target_uncached dep in
      (result, <[dep := result]> cache)
  end.

(** ** Values, exceptions and the data model *)

(** Python values stored in [attr], [data] and [kwargs]. *)
Inductive pyval : Type :=
  | PNone
  | PBool (b : bool)
  | PInt (z : Z)
  | PStr (s : string)
  | PStrList (l : list string).

(** The exceptions this module can raise. [RecursionError] is also what a
    run out of fuel reports. *)
Inductive exn : Type :=
  | KeyError (key : string)
  | AssertionError
  | AttributeError
  | NotImplementedError (msg : string)
  | SystemExit (code : Z)
  | RecursionError
  | ReError.

Inductive outcome (A : Type) : Type :=
  | Ok (a : A)
  | Raise (e : exn).
Arguments Ok {A} a.
Arguments Raise {A} e.

(** An output recorded by [_add_target_file]: one path or a list of paths. *)
Inductive target_file : Type :=
  | TFile (path : string)
  | TFiles (paths : list string).

(** An insertion-ordered Python [dict] with string keys. *)
Definition pydict (V : Type) : Type := list (string * V).

(** [d[k] = v]: an existing key keeps its place, a new one goes last. *)
Fixpoint dict_set {V : Type} (d : pydict V) (k : string) (v : V) : pydict V :=
  match d with
  | [] => [(k, v)]
  | (k', v') :: d' =>
      if bool_decide (k' = k) then (k, v) :: d'
      else (k', v') :: dict_set d' k v
  end.

(** [d.update(other)] *)
Definition dict_update {V : Type} (d other : pydict V) : pydict V :=
  fold_left (fun acc kv => dict_set acc kv.1 kv.2) other d.

(** The fields of a [Target] object. *)
Record Target : Type := mkTarget {
  type : string;
  name : string;
  path : string;
  build_dir : string;
  target_dir : string;
  key : string;
  fullname : string;
  source_location : string;
  srcs : list string;
  deps : list string;
  expanded_deps : option (list string);
  dependents : gset string;
  expanded_dependents : gset string;
  _implicit_deps : gset string;
  _visibility : gset string;
  _visibility_is_default : bool;
  __targets : gmap string target_file;
  __default_target : target_file;
  __clean_list : list string;
  attr : pydict pyval;
  data : pydict pyval;
  __build_code : option (list string);
  __fingerprint : option string
}.

Definition set_deps (t : Target) (v : list string) : Target :=
  mkTarget (type t) (name t) (path t) (build_dir t) (target_dir t) (key t)
    (fullname t) (source_location t) (srcs t) v (expanded_deps t)
    (dependents t) (expanded_dependents t) (_implicit_deps t) (_visibility t)
    (_visibility_is_default t) (__targets t) (__default_target t)
    (__clean_list t) (attr t) (data t) (__build_code t) (__fingerprint t).

Definition set_implicit_deps (t : Target) (v : gset string) : Target :=
  mkTarget (type t) (name t) (path t) (build_dir t) (target_dir t) (key t)
    (fullname t) (source_location t) (srcs t) (deps t) (expanded_deps t)
    (dependents t) (expanded_dependents t) v (_visibility t)
    (_visibility_is_default t) (__targets t) (__default_target t)
    (__clean_list t) (attr t) (data t) (__build_code t) (__fingerprint t).

Definition set_visibility (t : Target) (v : gset string) (is_default : bool)
    : Target :=
  mkTarget (type t) (name t) (path t) (build_dir t) (target_dir t) (key t)
    (fullname t) (source_location t) (srcs t) (deps t) (expanded_deps t)
    (dependents t) (expanded_dependents t) (_implicit_deps t) v
    is_default (__targets t) (__default_target t)
    (__clean_list t) (attr t) (data t) (__build_code t) (__fingerprint t).

Definition set_targets (t : Target) (v : gmap string target_file)
    (d : target_file) : Target :=
  mkTarget (type t) (name t) (path t) (build_dir t) (target_dir t) (key t)
    (fullname t) (source_location t) (srcs t) (deps t) (expanded_deps t)
    (dependents t) (expanded_dependents t) (_implicit_deps t) (_visibility t)
    (_visibility_is_default t) v d
    (__clean_list t) (attr t) (data t) (__build_code t) (__fingerprint t).

Definition set_clean_list (t : Target) (v : list string) : Target :=
  mkTarget (type t) (name t) (path t) (build_dir t) (target_dir t) (key t)
    (fullname t) (source_location t) (srcs t) (deps t) (expanded_deps t)
    (dependents t) (expanded_dependents t) (_implicit_deps t) (_visibility t)
    (_visibility_is_default t) (__targets t) (__default_target t)
    v (attr t) (data t) (__build_code t) (__fingerprint t).

Definition set_build_code (t : Target) (v : option (list string)) : Target :=
  mkTarget (type t) (name t) (path t) (build_dir t) (target_dir t) (key t)
    (fullname t) (source_location t) (srcs t) (deps t) (expanded_deps t)
    (dependents t) (expanded_dependents t) (_implicit_deps t) (_visibility t)
    (_visibility_is_default t) (__targets t) (__default_target t)
    (__clean_list t) (attr t) (data t) v (__fingerprint t).

Definition set_fingerprint (t : Target) (v : option string) : Target :=
  mkTarget (type t) (name t) (path t) (build_dir t) (target_dir t) (key t)
    (fullname t) (source_location t) (srcs t) (deps t) (expanded_deps t)
    (dependents t) (expanded_dependents t) (_implicit_deps t) (_visibility t)
    (_visibility_is_default t) (__targets t) (__default_target t)
    (__clean_list t) (attr t) (data t) (__build_code t) v.

(** The identity of a [SystemLibrary], assigned after [Target.__init__]. *)
Definition set_identity (t : Target) (p k f : string) : Target :=
  mkTarget (type t) (name t) p (build_dir t) (target_dir t) k
    f (source_location t) (srcs t) (deps t) (expanded_deps t)
    (dependents t) (expanded_dependents t) (_implicit_deps t) (_visibility t)
    (_visibility_is_default t) (__targets t) (__default_target t)
    (__clean_list t) (attr t) (data t) (__build_code t) (__fingerprint t).

(** The console functions a message goes through. *)
Inductive level : Type := Debug | Info | Warning | Error | Fatal.

#[global] Instance level_eq_dec : EqDecision level.
Proof. solve_decision. Defined.

(** The state shared by all targets of a build-planning pass: the target
    database of the build manager, the class attribute
    [Target.__src_target_map], the cache of [_parse_target], what the console
    received, and the directory of the BUILD file being loaded. *)
Record World : Type := mkWorld {
  target_database : gmap string Target;
  src_target_map : gmap string (string * bool);
  parse_cache : gmap string parse_result;
  console_log : list (level * string);
  current_source_path : string;
  blade_build_dir : string
}.

Definition set_target_database (w : World) (v : gmap string Target) : World :=
  mkWorld v (src_target_map w) (parse_cache w) (console_log w)
    (current_source_path w) (blade_build_dir w).

Definition set_src_target_map (w : World) (v : gmap string (string * bool))
    : World :=
  mkWorld (target_database w) v (parse_cache w) (console_log w)
    (current_source_path w) (blade_build_dir w).

Definition set_parse_cache (w : World) (v : gmap string parse_result) : World :=
  mkWorld (target_database w) (src_target_map w) v (console_log w)
    (current_source_path w) (blade_build_dir w).

Definition set_console_log (w : World) (v : list (level * string)) : World :=
  mkWorld (target_database w) (src_target_map w) (parse_cache w) v
    (current_source_path w) (blade_build_dir w).

(** ** Collaborators

    What [target.py] imports from outside this file: [blade.util],
    [blade.config], [blade.target_pattern], the build manager, and the
    Python built-ins whose text the model does not fix ([repr], [re.search]
    on a pattern built at run time, the file system). *)
Class Collaborators : Type := {
  (** [blade.util.md5sum] *)
  md5sum : string -> string;
  (** [repr(v)]; [str] of a list, tuple or dict is built from it. *)
  py_repr : pyval -> string;
  (** [blade.util.source_location(filename)] *)
  source_location_of : string -> string;
  (** [target_pattern.match(target_id, pattern)] *)
  target_pattern_match : string -> string -> bool;
  (** [target_pattern.is_valid_in_build(pattern)] *)
  target_pattern_is_valid_in_build : string -> bool;
  (** [target_pattern.normalize(pattern, working_dir)] *)
  target_pattern_normalize : string -> string -> string;
  (** [re.search(pattern, string)] found a match; [None] when the pattern
      does not compile and [re.error] is raised. *)
  re_search : string -> string -> option bool;
  (** [os.path.exists(path)] *)
  os_path_exists : string -> bool;
  (** [config.get_item('global_config', 'test_timeout')] *)
  config_test_timeout : pyval;
  (** [config.get_item('global_config', 'duplicated_source_action')] *)
  config_duplicated_source_action : string;
  (** [config.get_section('global_config').get('legacy_public_targets')] *)
  config_legacy_public_targets : list string;
  (** [config.get_section('global_config').get('default_visibility')] *)
  config_default_visibility : list string;
  (** [config.digest()] *)
  config_digest : string;
  (** [self.blade.revision()] *)
  blade_revision : string
}.

(** ** Stateful code: a state and exception monad over [World] *)

Definition M (A : Type) : Type := World -> outcome A * World.

Definition ret {A : Type} (a : A) : M A := fun w => (Ok a, w).

Definition bind {A B : Type} (m : M A) (k : A -> M B) : M B :=
  fun w =>
    match m w with
    | (Ok a, w') => k a w'
    | (Raise e, w') => (Raise e, w')
    end.

Definition raise {A : Type} (e : exn) : M A := fun w => (Raise e, w).

Notation "'let*' x ':=' m 'in' k" := (bind m (fun x => k))
  (at level 10, x pattern, m at level 100, k at level 200).

(** Modelled from the spec: [blade.console], the diagnostic sink (§6): leveled
    message emission, where [fatal] terminates the planning pass with a
    nonzero status. A message is recorded with the console function that
    received it. *)
Definition console_emit (l : level) (text : string) : M unit :=
  fun w => (Ok tt, set_console_log w (console_log w ++ [(l, text)])).

(** Modelled from the spec: [console.fatal] records the message and exits
    with [code]. *)
Definition console_fatal {A : Type} (text : string) (code : Z) : M A :=
  fun w => (Raise (SystemExit code),
            set_console_log w (console_log w ++ [(Fatal, text)])).

Definition _format_message (self : Target) (lvl msg : string) : string :=
  source_location self +:+ ": " +:+ lvl +:+ ": " +:+ name self +:+ ": " +:+ msg.

Definition debug (self : Target) (msg : string) : M unit :=
  console_emit Debug (_format_message self "debug" msg).

Definition info (self : Target) (msg : string) : M unit :=
  console_emit Info (_format_message self "info" msg).

Definition warning (self : Target) (msg : string) : M unit :=
  console_emit Warning (_format_message self "warning" msg).

Definition error (self : Target) (msg : string) : M unit :=
  console_emit Error (_format_message self "error" msg).

(** [fatal] labels its message [error] and sends it to [console.fatal]. *)
Definition fatal {A : Type} (self : Target) (msg : string) (code : Z) : M A :=
  console_fatal (_format_message self "error" msg) code.

(** ** Source checks and the source ownership registry *)

(** [e.replace('+', r'\+')] *)
Fixpoint escape_plus (e : string) : string :=
  match e with
  | "" => ""
  | String a e' =>
      if Ascii.eqb a "+" then String "\" (String "+" (escape_plus e'))
      else String a (escape_plus e')
  end.

Section WithCollaborators.

Context {C : Collaborators}.

(** [_is_likely_concatenated_filenames(string, exts)]: the pattern is
    built as in the source and handed to [re.search]; [None] when
    [re.search] raises [re.error]. *)
Definition _is_likely_concatenated_filenames (s : string)
    (exts : list string) : option bool :=
  let ext_pattern := "(" +:+ PyStr.join "|" (map escape_plus exts) +:+ ")" in
  re_search ("\w+\." +:+ ext_pattern +:+ ".+\." +:+ ext_pattern +:+ "$") s.

Definition _source_file_path (self : Target) (n : string) : string :=
  OsPath.normpath (OsPath.join (path self) n).

Definition _target_file_path (self : Target) (file_name : string) : string :=
  OsPath.normpath (OsPath.join (target_dir self) file_name).

(** [_remove_build_dir_prefix(path)]; [os.sep] is the slash. *)
Definition _remove_build_dir_prefix (self : Target) (p : string) : string :=
  let prefix := build_dir self +:+ "/" in
  if PyStr.startswith p prefix then PyStr.drop (String.length prefix) p
  else p.

Definition msg_invalid_path (file_kind src : string) : string :=
  "Invalid " +:+ file_kind +:+ " file path: " +:+ src
  +:+ ". can only be relative path, and must "
  +:+ "in current directory or subdirectories.".

Definition msg_invalid_name (file_kind src : string) (exts : list string)
    : string :=
  "Invalid " +:+ file_kind +:+ " file name: " +:+ PyStr.dq +:+ src
  +:+ PyStr.dq +:+ ", must ends with " +:+ py_repr (PStrList exts).

Definition msg_not_exist (src : string) : string :=
  "File " +:+ PyStr.dq +:+ src +:+ PyStr.dq +:+ " does not exist, missing "
  +:+ PyStr.dq +:+ "," +:+ PyStr.dq +:+ " between file names?".

Definition msg_duplicate (file_kind : string) (dups : list string) : string :=
  "Duplicate " +:+ file_kind +:+ " file paths: "
  +:+ py_repr (PStrList dups) +:+ " ".

(** The body of the loop of [_check_sources] below the duplicate
    bookkeeping, for one [src]. The pattern is compiled only for a missing
    file with an extension, and [re.error] leaves the loop. *)
Definition check_one_source (self : Target) (file_kind : string)
    (exts : list string) (src : string) : M unit :=
  let* _ :=
    if PyStr.contains ".." src || PyStr.startswith src "/"
    then error self (msg_invalid_path file_kind src)
    else ret tt in
  match exts with
  | [] => ret tt
  | _ :: _ =>
      let ext := (OsPath.splitext src).2 in
      let ext := if bool_decide (ext = "") then ext else PyStr.drop 1 ext in
      let* _ :=
        if bool_decide (ext ∈ exts) then ret tt
        else error self (msg_invalid_name file_kind src exts) in
      let full_path := _source_file_path self src in
      if os_path_exists full_path then ret tt
      else if bool_decide (ext = "") then ret tt
      else
        match _is_likely_concatenated_filenames src exts with
        | None => raise ReError
        | Some true => warning self (msg_not_exist src)
        | Some false => ret tt
        end
  end.

(** The loop of [_check_sources]: [dups] and [srcset] are its two local
    variables; the result is the final [dups]. *)
Fixpoint check_sources_loop (self : Target) (file_kind : string)
    (exts : list string) (files : list string)
    (dups : list string) (srcset : gset string) : M (list string) :=
  match files with
  | [] => ret dups
  | src :: rest =>
      let '(dups, srcset) :=
        if bool_decide (src ∈ srcset) then (dups ++ [src], srcset)
        else (dups, {[src]} ∪ srcset) in
      let* _ := check_one_source self file_kind exts src in
      check_sources_loop self file_kind exts rest dups srcset
  end.

Definition _check_sources (self : Target) (file_kind : string)
    (files : list string) (exts : list string) : M unit :=
  let* dups := check_sources_loop self file_kind exts files [] ∅ in
  match dups with
  | [] => ret tt
  | _ :: _ => error self (msg_duplicate file_kind dups)
  end.

Definition msg_already_in_srcs (src owner : string) : string :=
  PyStr.dq +:+ src +:+ PyStr.dq +:+ " is already in srcs of "
  +:+ PyStr.dq +:+ owner +:+ PyStr.dq.

(** One round of the ownership loop of [_check_srcs]: [allow] is what
    [self._allow_duplicate_source()] returned. *)
Definition claim_source (self : Target) (allow : bool) (action : string)
    (src : string) : M unit :=
  fun w =>
    let full_src := OsPath.normpath (OsPath.join (path self) src) in
    let target := (fullname self, allow) in
    match src_target_map w !! full_src with
    | None =>
        (Ok tt, set_src_target_map w (<[full_src := target]> (src_target_map w)))
    | Some target_existed =>
        if bool_decide (target_existed <> target) then
          if target_existed.2 then
            (Ok tt,
             set_src_target_map w (<[full_src := target]> (src_target_map w)))
          else if target.2 then (Ok tt, w)
          else
            let message := msg_already_in_srcs src target_existed.1 in
            if bool_decide (action = "error") then error self message w
            else if bool_decide (action = "warning") then warning self message w
            else (Ok tt, w)
        else (Ok tt, w)
    end.

Fixpoint claim_sources (self : Target) (allow : bool) (action : string)
    (l : list string) : M unit :=
  match l with
  | [] => ret tt
  | src :: rest =>
      let* _ := claim_source self allow action src in
      claim_sources self allow action rest
  end.

End WithCollaborators.

(** ** The build statement emitter and lazily generated build code *)

(** What a [generate] body of a subclass does to the base class: one node
    per call of a base-class method, with the continuation that receives the
    result of the call. *)
Inductive gen_prog : Type :=
  | GDone
  | GRaise (e : exn)
  | GWriteRule (rule : string) (k : gen_prog)
  | GGenerateBuild (rule : string)
      (outputs inputs implicit_deps order_only_deps : list string)
      (variables : pydict string) (implicit_outputs : list string)
      (clean : option (list string)) (k : gen_prog)
  | GAddTargetFile (label : string) (p : target_file) (k : gen_prog)
  | GAddDefaultTargetFile (label : string) (p : target_file) (k : gen_prog)
  | GRemoveOnClean (paths : list string) (k : gen_prog)
  | GGetTargetFile (label : string) (k : target_file -> gen_prog)
  | GGetTargetFiles (k : list string -> gen_prog)
  | GGetBuildCode (k : option (list string) -> gen_prog).

(** The methods a subclass overrides, resolved on the object. The base
    class raises in [generate] and never allows duplicate sources;
    [SystemLibrary] generates nothing. [_fingerprint_entropy] is modelled
    by its base implementation only. *)
Class TargetKinds : Type := {
  generate : Target -> gen_prog;
  _allow_duplicate_source : Target -> bool
}.

(** [Target] and [SystemLibrary] themselves, told apart by the type tag. *)
Definition base_kinds : TargetKinds := {|
  generate t :=
    if bool_decide (type t = "system_library") then GDone
    else GRaise (NotImplementedError (fullname t));
  _allow_duplicate_source _ := false
|}.

(** The object whose build code is asked for, and how many times its
    [generate] was entered so far (a counter the source does not have). *)
Record Emit : Type := mkEmit {
  emit_self : Target;
  generate_calls : nat
}.

Definition E (A : Type) : Type := Emit -> outcome A * Emit.

Definition on_self (f : Target -> Target) : E unit :=
  fun s => (Ok tt, mkEmit (f (emit_self s)) (generate_calls s)).

(** [not v] for a recorded output. *)
Definition target_file_falsy (v : target_file) : bool :=
  match v with
  | TFile p => bool_decide (p = "")
  | TFiles l => bool_decide (l = [])
  end.

Definition _add_target_file (label : string) (p : target_file)
    (self : Target) : Target :=
  let targets := <[label := p]> (__targets self) in
  if target_file_falsy (__default_target self)
  then set_targets self targets p
  else set_targets self targets (__default_target self).

Definition _add_default_target_file (label : string) (p : target_file)
    (self : Target) : Target :=
  _add_target_file label p (set_targets self (__targets self) p).

Definition _remove_on_clean (paths : list string) (self : Target) : Target :=
  set_clean_list self (__clean_list self ++ paths).

Definition get_clean_list (self : Target) : list string := __clean_list self.

(** [self.__build_code.append(...)]: on [None] the attribute lookup
    fails. *)
Definition _write_rule (rule : string) : E unit :=
  fun s =>
    match __build_code (emit_self s) with
    | Some code =>
        (Ok tt,
         mkEmit (set_build_code (emit_self s)
                   (Some (code ++ [rule +:+ String "010"%char ""])))
                (generate_calls s))
    | None => (Raise AttributeError, s)
    end.

Definition ebind {A B : Type} (m : E A) (k : A -> E B) : E B :=
  fun s =>
    match m s with
    | (Ok a, s') => k a s'
    | (Raise e, s') => (Raise e, s')
    end.

Definition eret {A : Type} (a : A) : E A := fun s => (Ok a, s).

Notation "'let+' x ':=' m 'in' k" := (ebind m (fun x => k))
  (at level 10, x pattern, m at level 100, k at level 200).

(** The loop over [variables] of [generate_build]. *)
Fixpoint write_variables (variables : pydict string) : E unit :=
  match variables with
  | [] => eret tt
  | (n, v) :: rest =>
      let+ _ :=
        if bool_decide (v = "") then _write_rule ("  " +:+ n +:+ " =")
        else _write_rule ("  " +:+ n +:+ " = " +:+ v) in
      write_variables rest
  end.

(** [generate_build]; the arguments are the lists [var_to_list] makes of
    them, and [clean] is [None] when the caller left it out. *)
Definition generate_build (rule : string)
    (outputs inputs implicit_deps order_only_deps : list string)
    (variables : pydict string) (implicit_outputs : list string)
    (clean : option (list string)) : E unit :=
  let outs := outputs in
  let outs := match implicit_outputs with
              | [] => outs
              | _ :: _ => (outs ++ ["|"]) ++ implicit_outputs
              end in
  let ins := inputs in
  let ins := match implicit_deps with
             | [] => ins
             | _ :: _ => (ins ++ ["|"]) ++ implicit_deps
             end in
  let ins := match order_only_deps with
             | [] => ins
             | _ :: _ => (ins ++ ["||"]) ++ order_only_deps
             end in
  let+ _ := _write_rule ("build " +:+ PyStr.join " " outs +:+ ": " +:+ rule
                         +:+ " " +:+ PyStr.join " " ins) in
  let clean := match clean with
               | None => outputs ++ implicit_outputs
               | Some c => c
               end in
  let+ _ := match clean with
            | [] => eret tt
            | _ :: _ => on_self (_remove_on_clean clean)
            end in
  let+ _ := write_variables variables in
  _write_rule "".

(** [sorted(results)] for a set of strings. *)
Definition sorted_strings (results : gset string) : list string :=
  merge_sort (fun a b : string => Is_true (String.leb a b)) (elements results).

(** The paths recorded in [__targets], as the set [_get_target_files]
    collects. *)
Definition target_files_set (targets : gmap string target_file) : gset string :=
  map_fold (fun _ v results =>
              match v with
              | TFiles l => list_to_set l ∪ results
              | TFile p => {[p]} ∪ results
              end) ∅ targets.

Section Emitter.

Context {K : TargetKinds}.

(** [_get_target_file(label)], with [gbc] the call of
    [self.get_build_code()] it starts with. *)
Definition get_target_file_with (gbc : E (option (list string)))
    (label : string) : E target_file :=
  let+ _ := gbc in
  fun s =>
    if bool_decide (label = "") then (Ok (__default_target (emit_self s)), s)
    else (Ok (default (TFile "") (__targets (emit_self s) !! label)), s).

(** [_get_target_files()], likewise. *)
Definition get_target_files_with (gbc : E (option (list string)))
    : E (list string) :=
  let+ _ := gbc in
  fun s => (Ok (sorted_strings (target_files_set (__targets (emit_self s)))), s).

(** Runs a [generate] body; [gbc] is [self.get_build_code] as the body
    can call it. *)
Fixpoint run_gen (gbc : E (option (list string))) (p : gen_prog) : E unit :=
  match p with
  | GDone => eret tt
  | GRaise e => fun s => (Raise e, s)
  | GWriteRule rule k =>
      let+ _ := _write_rule rule in run_gen gbc k
  | GGenerateBuild rule outputs inputs implicit_deps order_only_deps
      variables implicit_outputs clean k =>
      let+ _ := generate_build rule outputs inputs implicit_deps
                  order_only_deps variables implicit_outputs clean in
      run_gen gbc k
  | GAddTargetFile label f k =>
      let+ _ := on_self (_add_target_file label f) in run_gen gbc k
  | GAddDefaultTargetFile label f k =>
      let+ _ := on_self (_add_default_target_file label f) in run_gen gbc k
  | GRemoveOnClean paths k =>
      let+ _ := on_self (_remove_on_clean paths) in run_gen gbc k
  | GGetTargetFile label k =>
      let+ f := get_target_file_with gbc label in run_gen gbc (k f)
  | GGetTargetFiles k =>
      let+ fs := get_target_files_with gbc in run_gen gbc (k fs)
  | GGetBuildCode k =>
      let+ code := gbc in run_gen gbc (k code)
  end.

(** [get_build_code()]. The fuel bounds the nesting of [generate] inside
    [get_build_code] inside [generate]; it is only consulted when the
    buffer is still [None]. *)
Fixpoint get_build_code (fuel : nat) : E (option (list string)) :=
  fun s =>
    match __build_code (emit_self s) with
    | Some code => (Ok (Some code), s)
    | None =>
        match fuel with
        | O => (Raise RecursionError, s)
        | S fuel' =>
            let s1 := mkEmit (set_build_code (emit_self s) (Some []))
                        (S (generate_calls s)) in
            match run_gen (get_build_code fuel') (generate (emit_self s1)) s1
            with
            | (Ok _, s2) => (Ok (__build_code (emit_self s2)), s2)
            | (Raise e, s2) => (Raise e, s2)
            end
        end
    end.

Definition _get_target_file (fuel : nat) (label : string) : E target_file :=
  get_target_file_with (get_build_code fuel) label.

Definition _get_target_files (fuel : nat) : E (list string) :=
  get_target_files_with (get_build_code fuel).

(** [before_generate()]: asserts that no build code exists yet;
    [_before_generate] does nothing in the base class. *)
Definition before_generate : E unit :=
  fun s =>
    match __build_code (emit_self s) with
    | None => (Ok tt, s)
    | Some _ => (Raise AssertionError, s)
    end.

End Emitter.

(** ** Construction and the dependency resolver *)

Section Resolver.

Context {C : Collaborators}.

Definition _check_name (self : Target) : M unit :=
  if PyStr.contains "/" (name self)
  then error self "Invalid target name, should not contain dir part"
  else ret tt.

(** [str(kwargs)] is [repr] of a dict, here left to [py_repr] entry by
    entry. *)
Definition str_of_kwargs (kwargs : pydict pyval) : string :=
  "{" +:+ PyStr.join ", "
            (map (fun kv => py_repr (PStr kv.1) +:+ ": " +:+ py_repr kv.2)
                 kwargs)
  +:+ "}".

Definition _check_kwargs (self : Target) (kwargs : pydict pyval) : M unit :=
  match kwargs with
  | [] => ret tt
  | _ :: _ => error self ("Unrecognized options " +:+ str_of_kwargs kwargs)
  end.

Definition _check_srcs {K : TargetKinds} (self : Target) (src_exts : list string)
    : M unit :=
  let* _ := _check_sources self "source" (srcs self) src_exts in
  let action := config_duplicated_source_action in
  claim_sources self (_allow_duplicate_source self) action (srcs self).

(** [_init_visibility(visibility)]; [Some l] is the list [var_to_list]
    makes of a declared visibility. *)
Definition _init_visibility (self : Target) (visibility : option (list string))
    : Target :=
  match visibility with
  | None =>
      let visibility :=
        if bool_decide (key self ∈ config_legacy_public_targets)
        then ["PUBLIC"] else config_default_visibility in
      set_visibility self (_visibility self ∪ list_to_set visibility)
        (_visibility_is_default self)
  | Some visibility =>
      if bool_decide ("PUBLIC" ∈ visibility)
      then set_visibility self (_visibility self ∪ {["PUBLIC"]}) false
      else
        set_visibility self
          (list_to_set
             (map (fun v => target_pattern_normalize v (path self))
                  (filter (fun v => Is_true (target_pattern_is_valid_in_build v))
                          visibility)))
          false
  end.

(** The fields [Target.__init__] assigns before its first check. *)
Definition new_target (w : World) (n ty : string) (sources : list string)
    : Target :=
  let csp := current_source_path w in
  let k := csp +:+ ":" +:+ n in
  {| type := ty; name := n; path := csp;
     build_dir := blade_build_dir w;
     target_dir := OsPath.normpath (OsPath.join (blade_build_dir w) csp);
     key := k; fullname := "//" +:+ k;
     source_location := source_location_of (OsPath.join csp "BUILD");
     srcs := sources; deps := [];
     expanded_deps := None;
     dependents := ∅; expanded_dependents := ∅;
     _implicit_deps := ∅; _visibility := ∅;
     _visibility_is_default := true;
     __targets := ∅; __default_target := TFile ""; __clean_list := [];
     attr := []; data := [];
     __build_code := None; __fingerprint := None |}.

Definition set_attr (t : Target) (v : pydict pyval) : Target :=
  mkTarget (type t) (name t) (path t) (build_dir t) (target_dir t) (key t)
    (fullname t) (source_location t) (srcs t) (deps t) (expanded_deps t)
    (dependents t) (expanded_dependents t) (_implicit_deps t) (_visibility t)
    (_visibility_is_default t) (__targets t) (__default_target t)
    (__clean_list t) v (data t) (__build_code t) (__fingerprint t).

Definition msg_missing_name : string :=
  "Missing " +:+ PyStr.dq +:+ "name" +:+ PyStr.dq.

(** [Target.__init__] up to and including [_check_srcs]. *)
Definition init_before_deps {K : TargetKinds} (n ty : string)
    (sources src_exts : list string) (kwargs : pydict pyval) : M Target :=
  fun w =>
    let self := new_target w n ty sources in
    (let* _ := if bool_decide (n = "") then fatal self msg_missing_name 1
               else ret tt in
     let self := set_attr self
                   (dict_set (attr self) "test_timeout" config_test_timeout) in
     let* _ := _check_name self in
     let* _ := _check_kwargs self kwargs in
     let* _ := _check_srcs self src_exts in
     ret self) w.

(** [Target.__init__] after [_init_target_deps]. *)
Definition init_after_deps (self : Target) (visibility : option (list string))
    : Target :=
  let self := _init_visibility self visibility in
  set_fingerprint (set_build_code self None) None.

(** [SystemLibrary(name)]: [Target.__init__] with no sources, no
    dependencies (so the loop of [_init_target_deps] does not run) and
    public visibility, then the identity of a system library. *)
Definition SystemLibrary (n : string) : M Target :=
  let* self := init_before_deps (K := base_kinds) n "system_library" [] [] [] in
  let self := init_after_deps self (Some ["PUBLIC"]) in
  ret (set_identity self "#" ("#:" +:+ n) ("//" +:+ "#:" +:+ n)).

(** Modelled from the spec: [register_target] of the build manager (§3,
    §6): the registry maps each key to its target, and a second target
    under a registered key is a fatal error. *)
Definition register_target (t : Target) : M unit :=
  fun w =>
    match target_database w !! key t with
    | Some _ =>
        console_fatal ("Target " +:+ name t +:+ " is duplicate in //"
                       +:+ path t +:+ "/BUILD") 1 w
    | None =>
        (Ok tt, set_target_database w (<[key t := t]> (target_database w)))
    end.

Definition _add_system_library (self : Target) (k n : string) : M unit :=
  fun w =>
    match target_database w !! k with
    | Some _ => (Ok tt, w)
    | None =>
        if bool_decide (PyStr.drop 2 k = n) then
          (let* lib := SystemLibrary n in register_target lib) w
        else (Raise AssertionError, w)
    end.

Definition msg_invalid_dependency (dep msg : string) : string :=
  "Invalid dependency " +:+ PyStr.dq +:+ dep +:+ PyStr.dq +:+ ", " +:+ msg.

Fixpoint report_invalid_dependency (self : Target) (dep : string)
    (msgs : list string) : M unit :=
  match msgs with
  | [] => ret tt
  | msg :: rest =>
      let* _ := error self (msg_invalid_dependency dep msg) in
      report_invalid_dependency self dep rest
  end.

(** [_parse_target] on the cache of the world. *)
Definition parse_target (dep : string) : M parse_result :=
  fun w =>
    let '(r, cache) := _parse_target (parse_cache w) dep in
    (Ok r, set_parse_cache w cache).

(** [_unify_dep(dep)]: the key, or [None] after reporting the errors. *)
Definition _unify_dep (self : Target) (dep : string) : M (option string) :=
  let* (p, n, msgs) := parse_target dep in
  match msgs with
  | Some ((_ :: _) as msgs) =>
      let* _ := report_invalid_dependency self dep msgs in
      ret None
  | _ =>
      if bool_decide (p = "#") then
        let dkey := "#:" +:+ n in
        let* _ := _add_system_library self dkey n in
        ret (Some dkey)
      else
        let p :=
          if PyStr.startswith p "//" then PyStr.drop 2 p
          else if bool_decide (p = "") then path self
               else OsPath.join (path self) p in
        ret (Some (p +:+ ":" +:+ n))
  end.

(** [not dkey] for what [_unify_dep] returned. *)
Definition key_falsy (dkey : option string) : bool :=
  match dkey with
  | None => true
  | Some k => bool_decide (k = "")
  end.

Fixpoint _init_target_deps (self : Target) (l : list string) : M Target :=
  match l with
  | [] => ret self
  | d :: rest =>
      let* dkey := _unify_dep self d in
      let self :=
        match dkey with
        | Some k =>
            if negb (key_falsy dkey) && negb (bool_decide (k ∈ deps self))
            then set_deps self (deps self ++ [k]) else self
        | None => self
        end in
      _init_target_deps self rest
  end.

Fixpoint _add_implicit_library (self : Target) (implicit_deps : list string)
    : M Target :=
  match implicit_deps with
  | [] => ret self
  | dep :: rest =>
      let dep := if negb (PyStr.startswith dep "//")
                    && negb (PyStr.startswith dep "#")
                 then "//" +:+ dep else dep in
      let* dkey := _unify_dep self dep in
      match dkey with
      | Some k =>
          if key_falsy dkey then ret self
          else
            let* _ := if PyStr.startswith k "#"
                      then _add_system_library self k (PyStr.drop 2 k)
                      else ret tt in
            let self := if bool_decide (k ∈ deps self) then self
                        else set_deps self (deps self ++ [k]) in
            let self := set_implicit_deps self ({[k]} ∪ _implicit_deps self) in
            _add_implicit_library self rest
      | None => ret self
      end
  end.

(** [_add_location_reference_target(m)]: [m.groups()] is [(k, ty)], where
    the second group is [None] when it did not take part in the match. *)
Definition _add_location_reference_target (self : Target)
    (m : string * option string) : M (Target * (option string * string)) :=
  let '(k, ty) := m in
  let ty := default "" ty in
  let ty := PyStr.strip ty in
  let* k := _unify_dep self k in
  let self :=
    match k with
    | Some k' =>
        if negb (key_falsy k) && negb (bool_decide (k' ∈ deps self))
        then set_deps self (deps self ++ [k']) else self
    | None => self
    end in
  ret (self, (k, ty)).

(** [Target.__init__(name, type, srcs, src_exts, deps, visibility,
    kwargs)] *)
Definition Target_init {K : TargetKinds} (n ty : string)
    (sources src_exts dependencies : list string)
    (visibility : option (list string)) (kwargs : pydict pyval) : M Target :=
  let* self := init_before_deps n ty sources src_exts kwargs in
  let* self := _init_target_deps self dependencies in
  ret (init_after_deps self visibility).

End Resolver.

(** ** Visibility *)

Section Visibility.

Context {C : Collaborators}.

Definition _match_visibility (self dep : Target) : bool :=
  if bool_decide (path self = path dep) then true
  else
    let visibility := _visibility dep in
    if bool_decide ("PUBLIC" ∈ visibility) then true
    else if bool_decide (key self ∈ visibility) then true
    else existsb (fun pattern => target_pattern_match (key self) pattern)
                 (elements visibility).

Definition msg_not_allowed (dep_id : string) : string :=
  "Not allowed to depend on " +:+ PyStr.dq +:+ "//" +:+ dep_id +:+ PyStr.dq
  +:+ " because of its visibility,".

Definition msg_default_visibility : string :=
  "No explicit " +:+ PyStr.dq +:+ "visibility" +:+ PyStr.dq
  +:+ " declaration, defaults to private, see document for details".

Definition msg_declared_here : string := "which is declared here".

(** The loop of [check_visibility] over [self.deps]. *)
Fixpoint check_visibility_loop (self : Target) (l : list string) : M unit :=
  match l with
  | [] => ret tt
  | dep_id :: rest =>
      let* dep := (fun w => match target_database w !! dep_id with
                            | Some dep => (Ok dep, w)
                            | None => (Raise (KeyError dep_id), w)
                            end) in
      let* _ :=
        if negb (_match_visibility self dep) then
          let* _ := error self (msg_not_allowed dep_id) in
          if _visibility_is_default dep
          then info dep msg_default_visibility
          else info dep msg_declared_here
        else ret tt in
      check_visibility_loop self rest
  end.

Definition check_visibility (self : Target) : M unit :=
  check_visibility_loop self (deps self).

End Visibility.

(** ** Fingerprint *)

Section Fingerprint.

Context {C : Collaborators}.

(** [_fingerprint_entropy()] of the base class. *)
Definition _fingerprint_entropy (self : Target) : pydict pyval := attr self.

(** [sorted(entropy.items())]: the items are pairs whose first components,
    the keys of one dict, differ, so the tuple order is the order of the
    keys. *)
Definition sorted_items (entropy : pydict pyval) : list (string * pyval) :=
  merge_sort (fun a b : string * pyval => Is_true (String.leb a.1 b.1))
             entropy.

(** [str] of a list of [(key, value)] tuples. *)
Definition str_of_items (l : list (string * pyval)) : string :=
  "[" +:+ PyStr.join ", "
            (map (fun kv => "(" +:+ py_repr (PStr kv.1) +:+ ", "
                            +:+ py_repr kv.2 +:+ ")") l)
  +:+ "]".

(** The entropy dict of [fingerprint], given the fingerprints of the
    direct dependencies. *)
Definition fingerprint_entropy (self : Target) (dep_fingerprints : list string)
    : pydict pyval :=
  let entropy := [ ("blade_revision", PStr blade_revision);
                   ("config", PStr config_digest);
                   ("type", PStr (type self));
                   ("name", PStr (name self));
                   ("srcs", PStrList (srcs self)) ] in
  let entropy := dict_set entropy "deps" (PStrList dep_fingerprints) in
  dict_update entropy (_fingerprint_entropy self).

(** What [fingerprint] computes once the dependencies are done: the
    hash, or the failed assertion. *)
Definition fingerprint_of_entropy (entropy : pydict pyval) : outcome string :=
  let entropy_str := str_of_items (sorted_items entropy) in
  if PyStr.contains " object at 0x" entropy_str then Raise AssertionError
  else Ok (md5sum entropy_str).

(** [[f(dep) for dep in l]] *)
Fixpoint map_M {A B : Type} (f : A -> M B) (l : list A) : M (list B) :=
  match l with
  | [] => ret []
  | a :: rest =>
      let* b := f a in
      let* bs := map_M f rest in
      ret (b :: bs)
  end.

(** [self.target_database[k]] *)
Definition lookup_target (k : string) : M Target :=
  fun w => match target_database w !! k with
           | Some t => (Ok t, w)
           | None => (Raise (KeyError k), w)
           end.

(** [fingerprint()] of the target registered under [k]. Objects are
    addressed by their key in the target database, so a cached
    fingerprint is seen by every path that reaches the target. The fuel
    bounds the depth of the recursion through the dependencies; it is only
    consulted when nothing is cached. *)
Fixpoint fingerprint (fuel : nat) (k : string) : M string :=
  let* self := lookup_target k in
  match __fingerprint self with
  | Some h => ret h
  | None =>
      match fuel with
      | O => raise RecursionError
      | S fuel' =>
          let* fps := map_M (fingerprint fuel') (deps self) in
          let* self := lookup_target k in
          match fingerprint_of_entropy (fingerprint_entropy self fps) with
          | Ok h =>
              fun w =>
                (Ok h,
                 set_target_database w
                   (<[k := set_fingerprint self (Some h)]> (target_database w)))
          | Raise e => raise e
          end
      end
  end.

End Fingerprint.

(** ** Concrete collaborators for the examples *)

(** [repr] on the values the examples use: quotes around strings that hold
    no quote, backslash or control character. *)
Definition plain_repr (v : pyval) : string :=
  match v with
  | PNone => "None"
  | PBool true => "True"
  | PBool false => "False"
  | PInt z => pretty z
  | PStr s => "'" +:+ s +:+ "'"
  | PStrList l =>
      "[" +:+ PyStr.join ", " (map (fun s => "'" +:+ s +:+ "'") l) +:+ "]"
  end.

(** A configuration with no legacy public targets, private default
    visibility and the [error] policy for duplicated sources; no file
    exists, no wildcard pattern matches, and the digest is a tag on the
    text. *)
Definition plain_collaborators : Collaborators := {|
  md5sum s := "md5(" +:+ s +:+ ")";
  py_repr := plain_repr;
  source_location_of filename := filename +:+ ":0";
  target_pattern_match _ _ := false;
  target_pattern_is_valid_in_build _ := true;
  target_pattern_normalize pattern _ := pattern;
  re_search _ _ := Some false;
  os_path_exists _ := false;
  config_test_timeout := PInt 300;
  config_duplicated_source_action := "error";
  config_legacy_public_targets := [];
  config_default_visibility := [];
  config_digest := "cfg";
  blade_revision := "rev"
|}.

(** A subclass table in which targets of type [gen_rule] allow duplicate
    sources and every [generate] emits one statement and reads back its
    output. *)
Definition plain_kinds : TargetKinds := {|
  generate t :=
    GGenerateBuild "cc" [name t +:+ ".o"] (srcs t) [] [] [] [] None
      (GAddTargetFile "o" (TFile (name t +:+ ".o"))
         (GGetTargetFile "o" (fun _ => GDone)));
  _allow_duplicate_source t := bool_decide (type t = "gen_rule")
|}.

Definition empty_world (dir : string) : World :=
  mkWorld ∅ ∅ ∅ [] dir "build64_release".

(** A computation that never drops what the console received. *)
Definition log_grows {A : Type} (m : M A) : Prop :=
  forall w, console_log w `prefix_of` console_log (m w).2.

(** A target in directory [base], as [Target.__init__] first assigns its
    fields. *)
Definition demo_target (n ty : string) (sources : list string) : Target :=
  new_target (C := plain_collaborators) (empty_world "base") n ty sources.

(** The cache of [_parse_target] holds what parsing returns: every entry
    was stored by [_parse_target] itself. *)
Definition cache_ok (cache : gmap string parse_result) : Prop :=
  forall dep r, cache !! dep = Some r -> r = parse_target_uncached dep.

(** The key [_unify_dep] makes of a parse result, for a target in directory
    [dir]; [None] when the result carries error messages. *)
Definition resolved_key (dir : string) (r : parse_result) : option string :=
  match r with
  | (_, _, Some (_ :: _)) => None
  | (p, n, _) =>
      if bool_decide (p = "#") then Some ("#:" +:+ n)
      else if PyStr.startswith p "//" then Some (PyStr.drop 2 p +:+ ":" +:+ n)
      else if bool_decide (p = "") then Some (dir +:+ ":" +:+ n)
      else Some (OsPath.join dir p +:+ ":" +:+ n)
  end.

(** What the console receives for the messages of a failed parse. *)
Definition invalid_dependency_entries (self : Target) (dep : string)
    (msgs : list string) : list (level * string) :=
  map (fun msg => (Error, _format_message self "error"
                            (msg_invalid_dependency dep msg))) msgs.

(** What a call of the resolver may do to the world: register system
    libraries, fill the parse cache, write to the console. *)
Definition world_grows (w w' : World) : Prop :=
  target_database w ⊆ target_database w'
  /\ cache_ok (parse_cache w')
  /\ src_target_map w' = src_target_map w
  /\ console_log w `prefix_of` console_log w'.

(** The dependency sequence a resolver call leaves, when it returns. *)
Definition deps_after (r : outcome Target * World) : option (list string) :=
  match r.1 with
  | Ok t => Some (deps t)
  | Raise _ => None
  end.

(** A target named [n] in directory [dir] with the given dependency keys,
    private by default. *)
Definition target_in (dir n : string) (dependencies : list string) : Target :=
  set_deps (new_target (C := plain_collaborators) (empty_world dir) n
              "cc_library" []) dependencies.

(** What [check_visibility] sends to the console for one dependency key:
    nothing when the dependency is visible, otherwise the error on the
    requester and the note on the dependency. *)
Definition visibility_diagnostics {C : Collaborators} (self : Target)
    (db : gmap string Target) (dep_id : string) : list (level * string) :=
  match db !! dep_id with
  | Some dep =>
      if _match_visibility self dep then []
      else [ (Error, _format_message self "error" (msg_not_allowed dep_id));
             (Info, _format_message dep "info"
                      (if _visibility_is_default dep
                       then msg_default_visibility else msg_declared_here)) ]
  | None => []
  end.

(** A world in which the private target [y:d] is registered. *)
Definition world_with_private_dep : World :=
  set_target_database (empty_world "x") {[ "y:d" := target_in "y" "d" [] ]}.

(** A world in which [base/a.cc] is owned by [//other:lib], which does not
    allow duplicate sources. *)
Definition world_with_strict_owner : World :=
  set_src_target_map (empty_world "base")
    {[ "base/a.cc" := ("//other:lib", false) ]}.

(** A target of type [ty] in [base] that lists [a.cc]. *)
Definition claimant (ty : string) : Target :=
  new_target (C := plain_collaborators) (empty_world "base") "gen" ty ["a.cc"].

(** The three accessors that ask for the build code. *)
Inductive accessor : Type :=
  | AGetBuildCode
  | AGetTargetFile (label : string)
  | AGetTargetFiles.

(** The state one accessor call leaves, whatever it returned or raised. *)
Definition call_accessor {K : TargetKinds} (fuel : nat) (a : accessor)
    (s : Emit) : Emit :=
  match a with
  | AGetBuildCode => (get_build_code fuel s).2
  | AGetTargetFile label => (_get_target_file fuel label s).2
  | AGetTargetFiles => (_get_target_files fuel s).2
  end.

(** A sequence of accessor calls on one target, a caller that catches what
    a call raises included. *)
Definition call_accessors {K : TargetKinds} (fuel : nat) (l : list accessor)
    (s : Emit) : Emit :=
  fold_left (fun s a => call_accessor fuel a s) l s.

(** The buffer of build code exists. *)
Definition built (s : Emit) : Prop := is_Some (__build_code (emit_self s)).

(** A step of the emitter that keeps an existing buffer in place and does
    not enter [generate]. *)
Definition keeps_built {A : Type} (m : E A) : Prop :=
  forall s, built s ->
            built (m s).2 /\ generate_calls (m s).2 = generate_calls s.

(** Two targets that differ at most in the cached fingerprint. *)
Definition same_but_fingerprint (t t' : Target) : Prop :=
  set_fingerprint t None = set_fingerprint t' None.

(** Every target of [db] is still registered in [db'], changed at most in
    its cached fingerprint. *)
Definition db_keeps_targets (db db' : gmap string Target) : Prop :=
  forall k t, db !! k = Some t ->
              exists t', db' !! k = Some t' /\ same_but_fingerprint t t'.

(** Two targets of the same type, name and sources whose [attr] holds the
    same entries, inserted in opposite orders. *)
Definition attr_target (dir : string) (attrs : pydict pyval) : Target :=
  set_attr (new_target (C := plain_collaborators) (empty_world dir) "lib"
              "cc_library" ["a.cc"]) attrs.

Definition world_with_two_orders : World :=
  set_target_database (empty_world "x")
    {[ "x:lib" := attr_target "x" [("warning", PStr "yes"); ("optimize", PInt 2)];
       "y:lib" := attr_target "y" [("optimize", PInt 2); ("warning", PStr "yes")] ]}.

(** Every character of [s] satisfies [p]. *)
Fixpoint all_chars (p : ascii -> bool) (s : string) : bool :=
  match s with
  | "" => true
  | String a s' => p a && all_chars p s'
  end.

(** The reference [_add_implicit_library] hands to [_unify_dep]. *)
Definition implicit_reference (dep : string) : string :=
  if negb (PyStr.startswith dep "//") && negb (PyStr.startswith dep "#")
  then "//" +:+ dep else dep.

(** A call of one of the three methods that add dependency edges. *)
Inductive dep_call : Type :=
  | CInitTargetDeps (l : list string)
  | CAddImplicitLibrary (l : list string)
  | CAddLocationReference (m : string * option string).

Definition run_dep_call {C : Collaborators} (self : Target) (c : dep_call)
    : M Target :=
  match c with
  | CInitTargetDeps l => _init_target_deps self l
  | CAddImplicitLibrary l => _add_implicit_library self l
  | CAddLocationReference m =>
      let* r := _add_location_reference_target self m in ret r.1
  end.

(** A sequence of such calls on one target. *)
Fixpoint run_dep_calls {C : Collaborators} (self : Target)
    (l : list dep_call) : M Target :=
  match l with
  | [] => ret self
  | c :: rest =>
      let* self := run_dep_call self c in
      run_dep_calls self rest
  end.

(** [self'] is [self] with keys appended to [deps] that were not in it,
    and possibly more implicit marks. *)
Definition deps_extended (self self' : Target) : Prop :=
  path self' = path self
  /\ deps self `prefix_of` deps self'
  /\ (NoDup (deps self) -> NoDup (deps self')).

(** A path component that [normpath] keeps when no [..] is around: neither
    empty nor a single dot. *)
Definition kept_component (comp : string) : Prop := comp <> "" /\ comp <> ".".

#[global] Instance kept_component_dec comp : Decision (kept_component comp).
Proof. unfold kept_component. apply _. Defined.

(** No character of [s] is a slash. *)
Definition no_slash (s : string) : Prop :=
  all_chars (fun a => negb (Ascii.eqb a "/")) s = true.

(** The line [generate_build] writes for one entry of [variables]. *)
Definition variable_line (nv : string * string) : string :=
  (if bool_decide (nv.2 = "") then "  " +:+ nv.1 +:+ " ="
   else "  " +:+ nv.1 +:+ " = " +:+ nv.2) +:+ String "010"%char "".

(** What an emitter step that only writes has changed: [lines] were
    appended to the buffer and [cleaned] to the clean list; the recorded
    outputs and the count of [generate] are as before. *)
Definition appended (s s' : Emit) (lines cleaned : list string) : Prop :=
  (exists code, __build_code (emit_self s) = Some code
                /\ __build_code (emit_self s') = Some (code ++ lines))
  /\ __clean_list (emit_self s') = __clean_list (emit_self s) ++ cleaned
  /\ __targets (emit_self s') = __targets (emit_self s)
  /\ __default_target (emit_self s') = __default_target (emit_self s)
  /\ generate_calls s' = generate_calls s.

(** A sequence of [_add_target_file] calls on one target. *)
Definition add_target_files (l : list (string * target_file)) (self : Target)
    : Target :=
  fold_left (fun t lp => _add_target_file lp.1 lp.2 t) l self.

(** The paths one recorded output stands for. *)
Definition paths_of (v : target_file) : list string :=
  match v with
  | TFile p => [p]
  | TFiles l => l
  end.

(** The order [sorted] puts strings in. *)
Definition string_le (a b : string) : Prop := Is_true (String.leb a b).

(** The target registered under [k] has no cached fingerprint and lists
    itself among its dependencies. *)
Definition depends_on_itself (k : string) (w : World) : Prop :=
  exists t, target_database w !! k = Some t
            /\ __fingerprint t = None /\ k ∈ deps t.

(** A world in which [x:loop] depends on [x:leaf] and on itself. *)
Definition world_with_self_dependency : World :=
  set_target_database (empty_world "x")
    {[ "x:loop" := target_in "x" "loop" ["x:leaf"; "x:loop"];
       "x:leaf" := target_in "x" "leaf" [] ]}.

(** A world in which [x:app] depends on [x:leaf], whose fingerprint is
    cached, and on [x:gone], which is not registered. *)
Definition world_with_missing_dependency : World :=
  set_target_database (empty_world "x")
    {[ "x:app" := target_in "x" "app" ["x:leaf"; "x:gone"];
       "x:leaf" := set_fingerprint (target_in "x" "leaf" []) (Some "cafe") ]}.

(** A world with one target, whose name reads like the default [repr] of
    an object. *)
Definition world_with_address_name : World :=
  set_target_database (empty_world "x")
    {[ "x:t" := target_in "x" "t object at 0x7f" [] ]}.

(** How many times [x] is listed in [l]. *)
Definition occurrences (x : string) (l : list string) : nat :=
  length (filter (fun y => y = x) l).

(** The registry of source owners names [self], with the duplicate policy
    [allow], as the owner of [src]. *)
Definition owned_by (self : Target) (allow : bool) (w : World) (src : string)
    : Prop :=
  src_target_map w !! OsPath.normpath (OsPath.join (path self) src)
  = Some (fullname self, allow).

(** No target has claimed [src], seen from the directory of [self]. *)
Definition unclaimed (self : Target) (w : World) (src : string) : Prop :=
  src_target_map w !! OsPath.normpath (OsPath.join (path self) src) = None.

(** Every key marked implicit is a dependency. *)
Definition implicit_in_deps (t : Target) : Prop :=
  forall k, k ∈ _implicit_deps t -> k ∈ deps t.

(** [self'] is [self] with more dependencies and more implicit marks, each
    new mark on a dependency, and nothing else changed. *)
Definition dep_edit (self self' : Target) : Prop :=
  self' = set_implicit_deps (set_deps self (deps self')) (_implicit_deps self')
  /\ _implicit_deps self ⊆ _implicit_deps self'
  /\ (forall k, k ∈ _implicit_deps self' ->
                k ∈ _implicit_deps self \/ k ∈ deps self')
  /\ (forall k, k ∈ deps self -> k ∈ deps self').

(** [re.search] does not raise for [src] with the pattern made of
    [exts]. *)
Definition pattern_compiles {C : Collaborators} (exts : list string)
    (src : string) : Prop :=
  is_Some (_is_likely_concatenated_filenames src exts).


(** Below 128. *)
Definition is_ascii (c : ascii) : bool := (nat_of_ascii c <? 128)%nat.

(** Appends [k] unless it is there already. *)
Definition add_once (acc : list string) (k : string) : list string :=
  if bool_decide (k ∈ acc) then acc else acc ++ [k].

(** The keys of the entries of a [deps] list that parse, for a target in
    directory [dir], in the order of the list. *)
Fixpoint declared_keys (dir : string) (l : list string) : list string :=
  match l with
  | [] => []
  | d :: rest =>
      match resolved_key dir (parse_target_uncached d) with
      | Some k => k :: declared_keys dir rest
      | None => declared_keys dir rest
      end
  end.

(** The keys [_add_implicit_library] comes to: those of the entries
    before the first one that does not parse. *)
Fixpoint implicit_keys (dir : string) (l : list string) : list string :=
  match l with
  | [] => []
  | dep :: rest =>
      match resolved_key dir (parse_target_uncached (implicit_reference dep))
      with
      | Some k => k :: implicit_keys dir rest
      | None => []
      end
  end.

(** The keys one call resolves, in the order the call comes to them. *)
Definition call_keys (dir : string) (c : dep_call) : list string :=
  match c with
  | CInitTargetDeps l => declared_keys dir l
  | CAddImplicitLibrary l => implicit_keys dir l
  | CAddLocationReference (k, _) =>
      match resolved_key dir (parse_target_uncached k) with
      | Some k' => [k']
      | None => []
      end
  end.

(** * Properties *)

(** ** Strings *)


(** ** The console only grows *)

Lemma log_grows_ret {A : Type} (a : A) : log_grows (ret a).
Proof. by intros w. Qed.

Lemma log_grows_raise {A : Type} (e : exn) : log_grows (raise (A := A) e).
Proof. by intros w. Qed.

Lemma log_grows_bind {A B : Type} (m : M A) (k : A -> M B) :
  log_grows m -> (forall a, log_grows (k a)) -> log_grows (bind m k).
Proof.
  intros Hm Hk w. unfold bind. specialize (Hm w).
  destruct (m w) as [[a|e] w'] eqn:E; [|exact Hm].
  etrans; [exact Hm | apply Hk].
Qed.

Lemma log_grows_emit l text : log_grows (console_emit l text).
Proof. intros w. unfold console_emit. apply prefix_app_r. done. Qed.

Lemma log_grows_fatal {A : Type} text code :
  log_grows (console_fatal (A := A) text code).
Proof. intros w. unfold console_fatal. apply prefix_app_r. done. Qed.

Lemma log_grows_if {A : Type} (b : bool) (m1 m2 : M A) :
  log_grows m1 -> log_grows m2 -> log_grows (if b then m1 else m2).
Proof. by destruct b. Qed.

Lemma log_grows_warning self msg : log_grows (warning self msg).
Proof. apply log_grows_emit. Qed.
Lemma log_grows_info self msg : log_grows (info self msg).
Proof. apply log_grows_emit. Qed.


Lemma occurrences_cons x y l :
  occurrences x (y :: l)
  = if decide (y = x) then S (occurrences x l) else occurrences x l.
Proof.
  unfold occurrences. destruct (decide (y = x)) as [H|H].
  - by rewrite filter_cons_True.
  - by rewrite filter_cons_False.
Qed.

Lemma occurrences_app x l1 l2 :
  occurrences x (l1 ++ l2) = occurrences x l1 + occurrences x l2.
Proof. unfold occurrences. by rewrite filter_app, length_app. Qed.

Lemma occurrences_not_in x l : x ∉ l -> occurrences x l = 0.
Proof.
  induction l as [|y l IH]; [done|]. intros Hx.
  rewrite occurrences_cons, decide_False; [apply IH|]; set_solver.
Qed.

Lemma occurrences_in x l : x ∈ l -> 0 < occurrences x l.
Proof.
  induction l as [|y l IH]; [by intros ?%elem_of_nil|].
  rewrite occurrences_cons. intros [->|Hin]%elem_of_cons.
  - rewrite decide_True by done. lia.
  - destruct (decide (y = x)); [lia | by apply IH].
Qed.

Lemma NoDup_occurrences l :
  NoDup l <-> forall x, occurrences x l <= 1.
Proof.
  induction l as [|y l IH].
  - split; [intros _ x; cbn; lia | intros _; constructor].
  - rewrite NoDup_cons, IH. split.
    + intros [Hy Hl] x. rewrite occurrences_cons.
      destruct (decide (y = x)) as [->|Hne]; [|done].
      rewrite occurrences_not_in by done. lia.
    + intros H. split.
      * intros Hy%occurrences_in. specialize (H y).
        rewrite occurrences_cons, decide_True in H by done. lia.
      * intros x. specialize (H x). rewrite occurrences_cons in H.
        destruct (decide (y = x)); lia.
Qed.

Lemma set_console_log_twice w l1 l2 :
  set_console_log (set_console_log w l1) l2 = set_console_log w l2.
Proof. by destruct w. Qed.

Lemma set_console_log_same w : set_console_log w (console_log w) = w.
Proof. by destruct w. Qed.

Lemma emit_if_spec (b : bool) lvl text w :
  (if b then console_emit lvl text else ret tt) w
  = (Ok tt,
     set_console_log w (console_log w ++ if b then [(lvl, text)] else [])).
Proof.
  destruct b; [done|]. cbn [ret]. by rewrite app_nil_r, set_console_log_same.
Qed.

Lemma emit_unless_spec (b : bool) lvl text w :
  (if b then ret tt else console_emit lvl text) w
  = (Ok tt,
     set_console_log w (console_log w ++ if b then [] else [(lvl, text)])).
Proof.
  destruct b; [|done]. cbn [ret]. by rewrite app_nil_r, set_console_log_same.
Qed.

Section SourceChecks.

Context {C : Collaborators}.

(** The body of the loop of [_check_sources] writes to the console only;
    it raises nothing but the [re.error] of [re.search]; a source with
    [..] in it gets its error before anything can raise. *)
Lemma check_one_source_frame self file_kind exts src w :
  exists body r,
    check_one_source self file_kind exts src w
    = (r, set_console_log w (console_log w ++ body))
    /\ (r = Ok tt \/ r = Raise ReError)
    /\ (pattern_compiles exts src -> r = Ok tt)
    /\ (PyStr.contains ".." src = true ->
        (Error, _format_message self "error" (msg_invalid_path file_kind src))
          ∈ body).
Proof.
  unfold check_one_source, bind, error, warning.
  rewrite emit_if_spec.
  set (b1 := if PyStr.contains ".." src || PyStr.startswith src "/"
             then [(Error, _format_message self "error"
                             (msg_invalid_path file_kind src))]
             else []).
  assert (PyStr.contains ".." src = true ->
          (Error, _format_message self "error" (msg_invalid_path file_kind src))
            ∈ b1) as Hb1.
  { intros Hc. subst b1. rewrite Hc. apply list_elem_of_here. }
  destruct exts as [|e exts'].
  { exists b1, (Ok tt). split; [done|]. split; [by left|]. by split. }
  generalize (if bool_decide ((OsPath.splitext src).2 = "")
              then (OsPath.splitext src).2
              else PyStr.drop 1 (OsPath.splitext src).2).
  intros ext.
  rewrite emit_unless_spec, set_console_log_twice.
  cbn [console_log set_console_log].
  match goal with
  | |- context [(console_log w ++ b1) ++ ?l] => set (b2 := l)
  end.
  destruct (os_path_exists _).
  { exists (b1 ++ b2), (Ok tt). rewrite (assoc_L (++)).
    split; [done|]. split; [by left|]. split; [done|].
    intros Hc. apply elem_of_app. left. by apply Hb1. }
  destruct (bool_decide (ext = "")).
  { exists (b1 ++ b2), (Ok tt). rewrite (assoc_L (++)).
    split; [done|]. split; [by left|]. split; [done|].
    intros Hc. apply elem_of_app. left. by apply Hb1. }
  unfold pattern_compiles.
  destruct (_is_likely_concatenated_filenames src (e :: exts'))
    as [[]|] eqn:Hre.
  - exists (b1 ++ b2 ++ [(Warning, _format_message self "warning"
                                     (msg_not_exist src))]), (Ok tt).
    unfold console_emit. rewrite set_console_log_twice.
    cbn [console_log set_console_log]. rewrite !(assoc_L (++)).
    split; [done|]. split; [by left|]. split; [done|].
    intros Hc. apply elem_of_app. left. apply elem_of_app. left.
    by apply Hb1.
  - exists (b1 ++ b2), (Ok tt). cbn [ret]. rewrite (assoc_L (++)).
    split; [done|]. split; [by left|]. split; [done|].
    intros Hc. apply elem_of_app. left. by apply Hb1.
  - exists (b1 ++ b2), (Raise ReError). unfold raise.
    rewrite (assoc_L (++)).
    split; [done|]. split; [by right|]. split; [by intros [? [=]]|].
    intros Hc. apply elem_of_app. left. by apply Hb1.
Qed.

Lemma log_grows_check_one_source self file_kind exts src :
  log_grows (check_one_source self file_kind exts src).
Proof.
  intros w.
  destruct (check_one_source_frame self file_kind exts src w)
    as (body & r & -> & _).
  cbn [snd console_log set_console_log]. by apply prefix_app_r.
Qed.

(** The loop of [_check_sources] writes to the console only. When it
    returns, a file listed again is among the duplicates once for each
    repetition; it raises nothing but [re.error], and returns when the
    pattern compiles for every file. *)
Lemma check_sources_loop_counts self file_kind exts files dups srcset w :
  exists body r,
    check_sources_loop self file_kind exts files dups srcset w
    = (r, set_console_log w (console_log w ++ body))
    /\ ((exists extra,
           r = Ok (dups ++ extra)
           /\ forall x,
                occurrences x extra
                = if decide (x ∈ srcset) then occurrences x files
                  else pred (occurrences x files))
        \/ r = Raise ReError)
    /\ (Forall (pattern_compiles exts) files -> r <> Raise ReError).
Proof.
  revert dups srcset w. induction files as [|src rest IH]; intros dups srcset w.
  - exists [], (Ok dups). split.
    + cbn. by rewrite !app_nil_r, set_console_log_same.
    + split; [|done]. left. exists []. split; [by rewrite app_nil_r|].
      intros x. cbn. by destruct (decide (x ∈ srcset)).
  - cbn [check_sources_loop].
    destruct (check_one_source_frame self file_kind exts src w)
      as (b1 & r1 & H1 & Hr1 & Hok1 & _).
    destruct Hr1 as [-> | ->].
    2:{ exists b1, (Raise ReError).
        case_bool_decide; unfold bind; rewrite H1;
          (split; [done|]); (split; [by right|]);
          intros [Hsrc _]%Forall_cons; by specialize (Hok1 Hsrc). }
    case_bool_decide as Hin; unfold bind; rewrite H1.
    + destruct (IH (dups ++ [src]) srcset
                  (set_console_log w (console_log w ++ b1)))
        as (body & r & -> & Hr & Hok).
      exists (b1 ++ body), r. split; [|split].
      * rewrite set_console_log_twice. cbn [console_log set_console_log].
        by rewrite <- !(assoc_L (++)).
      * destruct Hr as [(extra & -> & Hcount)| ->]; [left | by right].
        exists (src :: extra). split; [by rewrite <- (assoc_L (++))|].
        intros x. rewrite !occurrences_cons, Hcount.
        destruct (decide (src = x)) as [->|Hne];
          destruct (decide (x ∈ srcset)); done.
      * intros [_ Hrest]%Forall_cons. by apply Hok.
    + destruct (IH dups ({[src]} ∪ srcset)
                  (set_console_log w (console_log w ++ b1)))
        as (body & r & -> & Hr & Hok).
      exists (b1 ++ body), r. split; [|split].
      * rewrite set_console_log_twice. cbn [console_log set_console_log].
        by rewrite <- !(assoc_L (++)).
      * destruct Hr as [(extra & -> & Hcount)| ->]; [left | by right].
        exists extra. split; [done|].
        intros x. rewrite occurrences_cons, Hcount.
        repeat case_decide; subst; try done; set_solver.
      * intros [_ Hrest]%Forall_cons. by apply Hok.
Qed.






End SourceChecks.


(** ** Parent-path rejection *)





(** ** Visibility *)

(** C3. [_match_visibility(R, D)] is true exactly when [R] and [D] share
    their directory, or [D]'s visibility holds [PUBLIC], or it holds [R]'s
    key, or the pattern matcher accepts [R]'s key for one of its patterns;
    it is false in every other case. *)
Theorem match_visibility_contract {C : Collaborators} (R D : Target) :
  _match_visibility R D = true
  <-> (path R = path D
       \/ "PUBLIC" ∈ _visibility D
       \/ key R ∈ _visibility D
       \/ exists pattern, pattern ∈ _visibility D
                          /\ target_pattern_match (key R) pattern = true).
Proof.
  unfold _match_visibility. repeat case_bool_decide.
  - naive_solver.
  - naive_solver.
  - naive_solver.
  - rewrite existsb_exists. split.
    + intros (pattern & Hin & Hm). do 3 right. exists pattern.
      split; [|done]. apply elem_of_elements. by apply list_elem_of_In.
    + intros [?|[?|[?|(pattern & Hin & Hm)]]]; try done.
      exists pattern. split; [|done].
      apply list_elem_of_In. by apply elem_of_elements.
Qed.

(** ** The parser and its cache *)

Lemma cache_ok_empty : cache_ok ∅.
Proof. intros dep r Hr. by rewrite lookup_empty in Hr. Qed.

Lemma parse_target_cached cache dep :
  cache_ok cache ->
  (_parse_target cache dep).1 = parse_target_uncached dep
  /\ cache_ok (_parse_target cache dep).2.
Proof.
  intros Hok. unfold _parse_target.
  destruct (cache !! dep) as [r|] eqn:E; cbn [fst snd].
  - split; [by apply Hok | done].
  - split; [done|]. intros dep' r'. rewrite lookup_insert.
    case_decide; [naive_solver | apply Hok].
Qed.

Lemma parse_target_spec dep w :
  cache_ok (parse_cache w) ->
  exists cache',
    parse_target dep w = (Ok (parse_target_uncached dep), set_parse_cache w cache')
    /\ cache_ok cache'.
Proof.
  intros Hok. unfold parse_target.
  destruct (parse_target_cached _ dep Hok) as [H1 H2].
  destruct (_parse_target (parse_cache w) dep) as [r cache'] eqn:E.
  cbn [fst snd] in *. subst r. by exists cache'.
Qed.

(** A successful parse has a name. *)
Lemma parse_target_uncached_name dep p n :
  parse_target_uncached dep = (p, n, None) -> n <> "".
Proof.
  unfold parse_target_uncached.
  destruct (_TARGET_RE_match dep) as [[pg ng]|]; [|done].
  case_bool_decide as Hn.
  - by destruct (_check_path _).
  - destruct (_check_path _); [|done]. intros [= _ <-]. done.
Qed.

Lemma parse_target_uncached_msgs dep p n msgs :
  parse_target_uncached dep = (p, n, Some msgs) ->
  p = "" /\ n = "" /\ msgs <> [].
Proof.
  unfold parse_target_uncached.
  destruct (_TARGET_RE_match dep) as [[pg ng]|].
  - destruct (if bool_decide (ng = "") then _ else _); [done|].
    by intros [= <- <- <-].
  - by intros [= <- <- <-].
Qed.

(** ** System libraries *)

Section SystemLibraries.

Context {C : Collaborators}.

(** [SystemLibrary(name)] returns for every non-empty name, and touches
    nothing but the console. *)
Lemma SystemLibrary_spec n w :
  n <> "" ->
  exists lib w',
    SystemLibrary n w = (Ok lib, w')
    /\ key lib = "#:" +:+ n
    /\ target_database w' = target_database w
    /\ parse_cache w' = parse_cache w
    /\ src_target_map w' = src_target_map w
    /\ console_log w `prefix_of` console_log w'.
Proof.
  intros Hn. unfold SystemLibrary, init_before_deps, bind.
  rewrite bool_decide_eq_false_2 by done. cbn [ret].
  unfold _check_name.
  match goal with
  | |- context [if ?b then error ?s ?m else ret tt] =>
      destruct b; cbn [error console_emit ret _check_kwargs]
  end.
  all: unfold _check_srcs, _check_sources, bind;
    cbn [srcs set_attr new_target check_sources_loop ret claim_sources].
  all: eexists _, _; split; [reflexivity|]; cbn.
  all: repeat split; try done.
  by apply prefix_app_r.
Qed.

Lemma add_system_library_spec self n w :
  n <> "" ->
  exists w',
    _add_system_library self ("#:" +:+ n) n w = (Ok tt, w')
    /\ is_Some (target_database w' !! ("#:" +:+ n))
    /\ target_database w ⊆ target_database w'
    /\ parse_cache w' = parse_cache w
    /\ src_target_map w' = src_target_map w
    /\ console_log w `prefix_of` console_log w'.
Proof.
  intros Hn. unfold _add_system_library.
  destruct (target_database w !! ("#:" +:+ n)) as [t|] eqn:E.
  { exists w. rewrite E. by eauto 10. }
  rewrite bool_decide_eq_true_2 by done.
  destruct (SystemLibrary_spec n w Hn)
    as (lib & w1 & Hlib & Hkey & Hdb & Hcache & Hsrc & Hlog).
  unfold bind. rewrite Hlib. unfold register_target.
  rewrite Hkey, Hdb, E. eexists. split; [reflexivity|].
  cbn [target_database set_target_database parse_cache src_target_map
       console_log].
  split; [by rewrite lookup_insert_eq|].
  split; [by apply insert_subseteq|]. done.
Qed.

End SystemLibraries.

(** ** The dependency resolver *)

Lemma world_grows_refl w : cache_ok (parse_cache w) -> world_grows w w.
Proof. by intros Hok. Qed.

Lemma world_grows_trans w1 w2 w3 :
  world_grows w1 w2 -> world_grows w2 w3 -> world_grows w1 w3.
Proof.
  intros (Hdb1 & _ & Hs1 & Hl1) (Hdb2 & Hc2 & Hs2 & Hl2).
  split; [by etrans|]. split; [done|]. split; [congruence | by etrans].
Qed.

Section ResolverFacts.

Context {C : Collaborators}.

Lemma report_invalid_dependency_spec self dep msgs w :
  report_invalid_dependency self dep msgs w
  = (Ok tt, set_console_log w
              (console_log w ++ invalid_dependency_entries self dep msgs)).
Proof.
  revert w. induction msgs as [|msg rest IH]; intros w.
  - cbn. rewrite app_nil_r. by destruct w.
  - cbn [report_invalid_dependency]. unfold bind, error, console_emit.
    rewrite IH. cbn. by rewrite <- app_assoc.
Qed.

(** [_unify_dep] never raises: it returns the key of the parse result, or
    [None] after one error per message. *)
Lemma unify_dep_spec self dep w :
  cache_ok (parse_cache w) ->
  exists w',
    _unify_dep self dep w
    = (Ok (resolved_key (path self) (parse_target_uncached dep)), w')
    /\ world_grows w w'
    /\ (forall p n msgs,
          parse_target_uncached dep = (p, n, Some msgs) ->
          console_log w'
          = console_log w ++ invalid_dependency_entries self dep msgs
          /\ target_database w' = target_database w)
    /\ (forall n, parse_target_uncached dep = ("#", n, None) ->
          is_Some (target_database w' !! ("#:" +:+ n))).
Proof.
  intros Hok. unfold _unify_dep, bind.
  destruct (parse_target_spec dep w Hok) as (cache' & -> & Hok').
  destruct (parse_target_uncached dep) as [[p n] msgs] eqn:Hparse.
  destruct msgs as [[|m ms]|].
  - apply parse_target_uncached_msgs in Hparse as (_ & _ & Hne). done.
  - rewrite report_invalid_dependency_spec. cbn [ret resolved_key].
    eexists. split; [reflexivity|]. split; [|split].
    + split; [done|]. split; [done|]. split; [done|].
      by apply prefix_app_r.
    + intros ??? [= <- <- <-]. done.
    + intros ? [=].
  - pose proof (parse_target_uncached_name _ _ _ Hparse) as Hn.
    cbn [resolved_key]. case_bool_decide as Hp.
    + destruct (add_system_library_spec self n (set_parse_cache w cache') Hn)
        as (w' & -> & Hin & Hdb & Hcache & Hsrc & Hlog).
      cbn [ret]. eexists. split; [reflexivity|]. split; [|split].
      * split; [done|]. split; [by rewrite Hcache|]. by split.
      * intros ??? [=].
      * intros ? [= _ <-]. done.
    + cbn [ret].
      exists (set_parse_cache w cache'). split.
      { by repeat case_match. }
      split; [by split|]. split; [intros ??? [=]|].
      intros ? [= -> _]. done.
Qed.

End ResolverFacts.

(** ** Parser cases *)

Lemma parse_target_uncached_dir dep dir n :
  parse_target_uncached dep = (dir, n, None) ->
  exists raw,
    _TARGET_RE_match dep = Some (raw, n)
    /\ _check_path (PyStr.rstrip_char ":" raw) = []
    /\ dir = (if bool_decide (PyStr.rstrip_char ":" raw = "") then ""
              else OsPath.normpath (PyStr.rstrip_char ":" raw)).
Proof.
  unfold parse_target_uncached.
  destruct (_TARGET_RE_match dep) as [[raw ng]|]; [|done].
  destruct (bool_decide (ng = "")).
  - by destruct (_check_path _).
  - destruct (_check_path _) eqn:E; [|done].
    intros [= <- <-]. exists raw. split; [done|]. split; [done|].
    by case_bool_decide.
Qed.

(** C5. From any state whose parse cache was filled by the parser, parsing
    and unifying gives: [//a/b/:t] is directory [a/b] and name [t]; [:t] is
    the directory of the referring target and name [t]; [#z] is directory
    [#] and name [z]; [a/../b:t] is an error, the parent-path rejection;
    [a:b:c] is an error whose message mentions the missing separator; and
    the directory of every successful parse is [os.path.normpath] of the
    directory text matched (the empty directory of [:name] stays empty). *)
Theorem parser_normalization_cases
    {C : Collaborators} (self : Target) (w : World) :
  cache_ok (parse_cache w) ->
  ((_parse_target (parse_cache w) "//a/b/:t").1 = ("//a/b", "t", None)
   /\ (_unify_dep self "//a/b/:t" w).1 = Ok (Some "a/b:t"))
  /\ ((_parse_target (parse_cache w) ":t").1 = ("", "t", None)
      /\ (_unify_dep self ":t" w).1 = Ok (Some (path self +:+ ":t")))
  /\ ((_parse_target (parse_cache w) "#z").1 = ("#", "z", None)
      /\ (_unify_dep self "#z" w).1 = Ok (Some "#:z"))
  /\ ((_parse_target (parse_cache w) "a/../b:t").1
      = ("", "", Some [msg_parent_path])
      /\ (_unify_dep self "a/../b:t" w).1 = Ok None)
  /\ ((_parse_target (parse_cache w) "a:b:c").1
      = ("", "", Some [msg_format_error +:+ msg_missing_comma])
      /\ (_unify_dep self "a:b:c" w).1 = Ok None)
  /\ (forall dep dir n,
        (_parse_target (parse_cache w) dep).1 = (dir, n, None) ->
        exists raw,
          _TARGET_RE_match dep = Some (raw, n)
          /\ dir = (if bool_decide (PyStr.rstrip_char ":" raw = "") then ""
                    else OsPath.normpath (PyStr.rstrip_char ":" raw))).
Proof.
  intros Hok.
  assert (forall dep, (_parse_target (parse_cache w) dep).1
                      = parse_target_uncached dep) as Hp.
  { intros dep. by apply parse_target_cached. }
  assert (forall dep, (_unify_dep self dep w).1
                      = Ok (resolved_key (path self)
                              (parse_target_uncached dep))) as Hu.
  { intros dep. destruct (unify_dep_spec self dep w Hok) as (w' & -> & _).
    done. }
  rewrite !Hp, !Hu.
  repeat (split; [split; reflexivity|]).
  intros dep dir n. rewrite Hp. intros Hd.
  destruct (parse_target_uncached_dir _ _ _ Hd) as (raw & ? & _ & ?).
  by exists raw.
Qed.

Lemma parser_normalization_cases_witness :
  cache_ok (parse_cache (empty_world "base"))
  /\ (_unify_dep (C := plain_collaborators)
        (demo_target "lib" "cc_library" []) "//a/b/:t"
        (empty_world "base")).1 = Ok (Some "a/b:t")
  /\ (_unify_dep (C := plain_collaborators)
        (demo_target "lib" "cc_library" []) ":t"
        (empty_world "base")).1 = Ok (Some "base:t").
Proof.
  pose proof (parser_normalization_cases (C := plain_collaborators)
                (demo_target "lib" "cc_library" []) (empty_world "base")
                cache_ok_empty) as H.
  split; [exact cache_ok_empty|].
  split; [exact (proj2 (proj1 H)) | exact (proj2 (proj1 (proj2 H)))].
Defined.

(** ** Error recovery in the resolver loops *)

Section Recovery.

Context {C : Collaborators}.

(** One round of the loop of [_init_target_deps]. *)
Lemma init_target_deps_cons self d rest w :
  cache_ok (parse_cache w) ->
  exists w',
    world_grows w w'
    /\ _init_target_deps self (d :: rest) w
       = _init_target_deps
           (match resolved_key (path self) (parse_target_uncached d) with
            | Some k =>
                if bool_decide (k <> "") && negb (bool_decide (k ∈ deps self))
                then set_deps self (deps self ++ [k]) else self
            | None => self
            end) rest w'.
Proof.
  intros Hok. destruct (unify_dep_spec self d w Hok) as (w' & Hu & Hg & _).
  exists w'. split; [done|]. cbn [_init_target_deps]. unfold bind.
  rewrite Hu. destruct (resolved_key _ _) as [k|]; [|done].
  cbn [key_falsy]. by destruct (decide (k = "")); repeat case_bool_decide.
Qed.

(** [_init_target_deps] goes on after an entry that does not parse. *)
Lemma init_target_deps_skips_invalid self d rest w :
  cache_ok (parse_cache w) ->
  resolved_key (path self) (parse_target_uncached d) = None ->
  exists w',
    world_grows w w'
    /\ _init_target_deps self (d :: rest) w = _init_target_deps self rest w'.
Proof.
  intros Hok Hd. destruct (init_target_deps_cons self d rest w Hok)
    as (w' & Hg & ->). rewrite Hd. by exists w'.
Qed.

(** [_add_implicit_library] returns at the first entry that does not
    parse: what follows it is never looked at. *)
Lemma add_implicit_library_returns_at_invalid self dep rest w :
  cache_ok (parse_cache w) ->
  resolved_key (path self)
    (parse_target_uncached
       (if negb (PyStr.startswith dep "//") && negb (PyStr.startswith dep "#")
        then "//" +:+ dep else dep)) = None ->
  exists w',
    world_grows w w'
    /\ _add_implicit_library self (dep :: rest) w = (Ok self, w').
Proof.
  intros Hok Hd. cbn [_add_implicit_library]. unfold bind.
  destruct (unify_dep_spec self
              (if negb (PyStr.startswith dep "//")
                  && negb (PyStr.startswith dep "#")
               then "//" +:+ dep else dep) w Hok) as (w' & -> & Hg & _).
  rewrite Hd. by exists w'.
Qed.

End Recovery.

(** C7 (the code departs from it). In [_init_target_deps] an entry that
    does not parse is reported and the loop goes on: [//x:y] after the
    invalid [a:b:c] is appended. In [_add_implicit_library] the same list
    stops at the invalid entry: the error is reported, the method returns,
    and [x:y] is never appended nor marked implicit. *)
Theorem add_implicit_library_stops_at_invalid_entry :
  deps_after (_init_target_deps (C := plain_collaborators)
                (demo_target "lib" "cc_library" []) ["a:b:c"; "//x:y"]
                (empty_world "base")) = Some ["x:y"]
  /\ deps_after (_add_implicit_library (C := plain_collaborators)
                   (demo_target "lib" "cc_library" []) ["a:b:c"; "x:y"]
                   (empty_world "base")) = Some []
  /\ deps_after (_add_implicit_library (C := plain_collaborators)
                   (demo_target "lib" "cc_library" []) ["x:y"]
                   (empty_world "base")) = Some ["x:y"]
  /\ console_log (_add_implicit_library (C := plain_collaborators)
                    (demo_target "lib" "cc_library" []) ["a:b:c"; "x:y"]
                    (empty_world "base")).2
     = [(Error, _format_message (demo_target "lib" "cc_library" []) "error"
                  (msg_invalid_dependency "//a:b:c"
                     (msg_format_error +:+ msg_missing_comma)))].
Proof. repeat split; vm_compute; reflexivity. Qed.

(** ** Location references *)

(** C9, as the code has it. For every location reference, from a state
    whose parse cache was filled by the parser,
    [_add_location_reference_target] returns the pair of the resolved key
    and the output tag: the empty string when the group is absent, and for
    a group of ASCII characters the group stripped of white space as
    [str.strip] of Python 3 does; a resolved key is appended to the
    dependency sequence if it is not in it yet; the set of implicit
    dependencies is left as it was. *)
Theorem location_reference_adds_plain_edge
    {C : Collaborators} (self : Target) (k : string) (ty : option string)
    (w : World) :
  cache_ok (parse_cache w) ->
  exists self' w' tag,
    _add_location_reference_target self (k, ty) w
    = (Ok (self', (resolved_key (path self) (parse_target_uncached k), tag)),
       w')
    /\ (ty = None -> tag = "")
    /\ (all_chars is_ascii (default "" ty) = true ->
        tag = PyStr.strip (default "" ty))
    /\ _implicit_deps self' = _implicit_deps self
    /\ deps self'
       = match resolved_key (path self) (parse_target_uncached k) with
         | Some k' =>
             if bool_decide (k' = "" \/ k' ∈ deps self) then deps self
             else deps self ++ [k']
         | None => deps self
         end
    /\ world_grows w w'.
Proof.
  intros Hok. destruct (unify_dep_spec self k w Hok) as (w' & Hu & Hg & _).
  unfold _add_location_reference_target, bind. rewrite Hu. cbn [ret].
  eexists _, w', _. split; [reflexivity|].
  split; [by intros ->|]. split; [done|].
  destruct (resolved_key _ _) as [k'|]; [|done]. cbn [key_falsy].
  destruct (decide (k' = "")), (decide (k' ∈ deps self));
    repeat case_bool_decide; cbn [negb andb]; naive_solver.
Qed.

Lemma location_reference_adds_plain_edge_witness :
  cache_ok (parse_cache (empty_world "base"))
  /\ all_chars is_ascii (default "" (Some (String "028"%char " jar"))) = true
  /\ exists self' w',
       _add_location_reference_target (C := plain_collaborators)
         (demo_target "lib" "cc_library" [])
         ("//a:b", Some (String "028"%char " jar"))
         (empty_world "base")
       = (Ok (self', (Some "a:b", "jar")), w')
       /\ _implicit_deps self' = ∅
       /\ deps self' = ["a:b"].
Proof.
  split; [exact cache_ok_empty|]. split; [reflexivity|].
  destruct (location_reference_adds_plain_edge (C := plain_collaborators)
              (demo_target "lib" "cc_library" []) "//a:b"
              (Some (String "028"%char " jar"))
              (empty_world "base") cache_ok_empty)
    as (self' & w' & tag & H1 & _ & Htag & H2 & H3 & _).
  rewrite (Htag eq_refl) in H1.
  exists self', w'. split; [exact H1|]. split; [exact H2 | exact H3].
Defined.

(** C9 as stated fails: the key of a resolved location reference is
    appended to [deps] but is not recorded in [_implicit_deps]. *)
Lemma location_reference_not_marked_implicit :
  match (_add_location_reference_target (C := plain_collaborators)
           (demo_target "lib" "cc_library" []) ("//a:b", None)
           (empty_world "base")).1 with
  | Ok (self', (k, ty)) =>
      k = Some "a:b" /\ ty = "" /\ deps self' = ["a:b"]
      /\ "a:b" ∉ _implicit_deps self'
  | Raise _ => False
  end.
Proof.
  vm_compute. repeat split. discriminate.
Qed.

(** ** Visibility violations *)

Section VisibilityCheck.

Context {C : Collaborators}.

Lemma check_visibility_loop_spec self l w :
  (forall d, d ∈ l -> is_Some (target_database w !! d)) ->
  check_visibility_loop self l w
  = (Ok tt,
     set_console_log w
       (console_log w
        ++ flat_map (visibility_diagnostics self (target_database w)) l)).
Proof.
  revert w. induction l as [|d rest IH]; intros w Hreg.
  - cbn. rewrite app_nil_r. by destruct w.
  - destruct (Hreg d) as [dep Hdep]; [by left|].
    cbn [check_visibility_loop flat_map]. unfold bind at 1. rewrite Hdep.
    unfold visibility_diagnostics at 1. rewrite Hdep.
    destruct (_match_visibility self dep); cbn [negb].
    + unfold bind at 1. cbn [ret]. apply IH.
      intros d' Hd'. apply Hreg. by right.
    + unfold bind at 1. unfold bind at 1. cbn [error console_emit].
      assert (forall m, info dep m
                          (set_console_log w (console_log w ++
                             [(Error, _format_message self "error"
                                        (msg_not_allowed d))]))
                        = (Ok tt, set_console_log w
                             (console_log w ++
                              [(Error, _format_message self "error"
                                         (msg_not_allowed d));
                               (Info, _format_message dep "info" m)])))
        as Hinfo.
      { intros m. unfold info, console_emit. cbn.
        by rewrite <- app_assoc. }
      destruct (_visibility_is_default dep); rewrite Hinfo.
      all: rewrite IH; [|intros d' Hd'; cbn; apply Hreg; by right].
      all: cbn; by rewrite <- app_assoc.
Qed.

Lemma check_visibility_loop_app self l1 l2 w :
  check_visibility_loop self (l1 ++ l2) w
  = bind (check_visibility_loop self l1)
         (fun _ => check_visibility_loop self l2) w.
Proof.
  revert w. induction l1 as [|d l1 IH]; intros w; [done|].
  cbn [app check_visibility_loop]. unfold bind in IH |- *.
  destruct (target_database w !! d) as [dep|]; [|done].
  destruct (_match_visibility self dep); cbn [negb];
    unfold ret, error, info, console_emit.
  - apply IH.
  - destruct (_visibility_is_default dep); apply IH.
Qed.

Lemma check_visibility_loop_violation self dep_id rest w dep :
  target_database w !! dep_id = Some dep ->
  _match_visibility self dep = false ->
  check_visibility_loop self (dep_id :: rest) w
  = check_visibility_loop self rest
      (set_console_log w
         (console_log w
          ++ [ (Error, _format_message self "error" (msg_not_allowed dep_id));
               (Info, _format_message dep "info"
                        (if _visibility_is_default dep
                         then msg_default_visibility
                         else msg_declared_here)) ])).
Proof.
  intros Hdep Hm. cbn [check_visibility_loop]. unfold bind at 1.
  rewrite Hdep, Hm. cbn [negb]. unfold bind, error, info, console_emit.
  destruct (_visibility_is_default dep);
    rewrite set_console_log_twice; cbn [console_log set_console_log];
    by rewrite <- (assoc_L (++)).
Qed.

(** The loop of [check_visibility] writes [error] and [info]
    diagnostics to the console and changes nothing else; it returns, or
    raises [KeyError] for a dependency that is not registered. *)
Lemma check_visibility_loop_frame self l w :
  exists added,
    (check_visibility_loop self l w).2
    = set_console_log w (console_log w ++ added)
    /\ (forall e, e ∈ added -> e.1 = Error \/ e.1 = Info)
    /\ ((check_visibility_loop self l w).1 = Ok tt
        \/ exists d, d ∈ l /\ target_database w !! d = None
                     /\ (check_visibility_loop self l w).1
                        = Raise (KeyError d)).
Proof.
  revert w. induction l as [|d rest IH]; intros w.
  - exists []. cbn. rewrite app_nil_r, set_console_log_same.
    split; [done|]. split; [by intros e ?%elem_of_nil | by left].
  - destruct (target_database w !! d) as [dep|] eqn:Hdep.
    2:{ exists []. cbn [check_visibility_loop]. unfold bind. rewrite Hdep.
        cbn [fst snd]. rewrite app_nil_r, set_console_log_same.
        split; [done|]. split; [by intros e ?%elem_of_nil|].
        right. exists d. split; [by left | done]. }
    destruct (_match_visibility self dep) eqn:Hm.
    + assert (check_visibility_loop self (d :: rest) w
              = check_visibility_loop self rest w) as ->.
      { cbn [check_visibility_loop]. unfold bind at 1. rewrite Hdep, Hm.
        done. }
      destruct (IH w) as (added & Hst & Hlv & Hres).
      exists added. split; [done|]. split; [done|].
      destruct Hres as [Hok|(d' & Hin & Hnone & Hraise)]; [by left|].
      right. exists d'. split; [by right | done].
    + rewrite (check_visibility_loop_violation self d rest w dep Hdep Hm).
      match goal with
      | |- context [check_visibility_loop self rest ?w1] =>
          destruct (IH w1) as (added & Hst & Hlv & Hres)
      end.
      exists ([ (Error, _format_message self "error" (msg_not_allowed d));
                (Info, _format_message dep "info"
                         (if _visibility_is_default dep
                          then msg_default_visibility
                          else msg_declared_here)) ] ++ added).
      split; [|split].
      * rewrite Hst, set_console_log_twice.
        cbn [console_log set_console_log]. by rewrite <- (assoc_L (++)).
      * intros e [He|He]%elem_of_app; [|by apply Hlv].
        apply elem_of_cons in He as [->|He]; [by left|].
        apply list_elem_of_singleton in He as ->. by right.
      * destruct Hres as [Hok|(d' & Hin & Hnone & Hraise)]; [by left|].
        right. exists d'. split; [by right | done].
Qed.

Lemma registered_or_first_missing (db : gmap string Target) (l : list string) :
  (forall d, d ∈ l -> is_Some (db !! d))
  \/ exists before d after,
       l = before ++ d :: after
       /\ (forall d', d' ∈ before -> is_Some (db !! d'))
       /\ db !! d = None.
Proof.
  induction l as [|a l IH]; [left; by intros d ?%elem_of_nil|].
  destruct (db !! a) as [t|] eqn:Ha.
  - destruct IH as [Hall|(before & d & after & -> & Hb & Hd)].
    + left. intros d [->|Hd]%elem_of_cons; [by eexists | by apply Hall].
    + right. exists (a :: before), d, after. split; [done|]. split; [|done].
      intros d' [->|Hd']%elem_of_cons; [by eexists | by apply Hb].
  - right. exists [], a, l. split; [done|]. split; [|done].
    by intros d' ?%elem_of_nil.
Qed.

Lemma check_visibility_loop_raises self before d after w :
  (forall d', d' ∈ before -> is_Some (target_database w !! d')) ->
  target_database w !! d = None ->
  check_visibility_loop self (before ++ d :: after) w
  = (Raise (KeyError d),
     set_console_log w
       (console_log w
        ++ flat_map (visibility_diagnostics self (target_database w)) before)).
Proof.
  intros Hreg Hd. rewrite check_visibility_loop_app. unfold bind at 1.
  rewrite (check_visibility_loop_spec self before w Hreg).
  cbn [check_visibility_loop]. unfold bind.
  cbn [target_database set_console_log]. by rewrite Hd.
Qed.

Lemma visibility_diagnostics_levels self db l e :
  e ∈ flat_map (visibility_diagnostics self db) l -> e.1 = Error \/ e.1 = Info.
Proof.
  intros (d & _ & He)%list_elem_of_In%in_flat_map.
  apply list_elem_of_In in He. unfold visibility_diagnostics in He.
  destruct (db !! d) as [dep|]; [|by inversion He].
  destruct (_match_visibility self dep); [by inversion He|].
  apply elem_of_cons in He as [->|He]; [by left|].
  apply list_elem_of_singleton in He as ->. by right.
Qed.

(** The loop of [check_visibility] returns when every key is registered,
    and raises [KeyError] at the first key that is not; either way the
    console has received the diagnostics of the keys before that point,
    and nothing else has changed. *)
Lemma check_visibility_loop_outcome self l w :
  ((forall d, d ∈ l -> is_Some (target_database w !! d))
   /\ check_visibility_loop self l w
      = (Ok tt,
         set_console_log w
           (console_log w
            ++ flat_map (visibility_diagnostics self (target_database w)) l)))
  \/ exists before d after,
       l = before ++ d :: after
       /\ (forall d', d' ∈ before -> is_Some (target_database w !! d'))
       /\ target_database w !! d = None
       /\ check_visibility_loop self l w
          = (Raise (KeyError d),
             set_console_log w
               (console_log w
                ++ flat_map (visibility_diagnostics self (target_database w))
                     before)).
Proof.
  destruct (registered_or_first_missing (target_database w) l)
    as [Hall|(before & d & after & -> & Hb & Hd)].
  - left. split; [done|]. by apply check_visibility_loop_spec.
  - right. exists before, d, after. split; [done|]. split; [done|].
    split; [done|]. by apply check_visibility_loop_raises.
Qed.

End VisibilityCheck.

(** C4, as the code has it. [check_visibility] never ends the pass: what
    it adds to the console are [error] and [info] diagnostics, none of the
    [fatal] class, and nothing else changes. It returns when every
    dependency is registered, and otherwise raises [KeyError] at the first
    dependency that is not, with the diagnostics of the dependencies before
    it on the console. For each dependency the loop reaches (every key
    before it is registered) that fails [_match_visibility], the console
    receives an [error] diagnostic on the requesting target followed at
    once by an [info] diagnostic on the dependency that says whether its
    visibility was defaulted or declared, and the loop goes on with the
    dependencies behind it. *)
Theorem visibility_violation_is_error_then_info
    {C : Collaborators} (self : Target) (w : World) :
  exists added,
    (check_visibility self w).2
    = set_console_log w (console_log w ++ added)
    /\ (forall e, e ∈ added -> e.1 = Error \/ e.1 = Info)
    /\ (((forall d, d ∈ deps self -> is_Some (target_database w !! d))
         /\ (check_visibility self w).1 = Ok tt
         /\ added
            = flat_map (visibility_diagnostics self (target_database w))
                (deps self))
        \/ exists before d after,
             deps self = before ++ d :: after
             /\ (forall d', d' ∈ before -> is_Some (target_database w !! d'))
             /\ target_database w !! d = None
             /\ (check_visibility self w).1 = Raise (KeyError d)
             /\ added
                = flat_map (visibility_diagnostics self (target_database w))
                    before)
    /\ ((forall d, d ∈ deps self -> is_Some (target_database w !! d)) ->
        (check_visibility self w).1 = Ok tt)
    /\ (forall before dep_id after dep,
          deps self = before ++ dep_id :: after ->
          (forall d, d ∈ before -> is_Some (target_database w !! d)) ->
          target_database w !! dep_id = Some dep ->
          _match_visibility self dep = false ->
          exists rest,
            added
            = flat_map (visibility_diagnostics self (target_database w)) before
              ++ [ (Error, _format_message self "error"
                             (msg_not_allowed dep_id));
                   (Info, _format_message dep "info"
                            (if _visibility_is_default dep
                             then msg_default_visibility
                             else msg_declared_here)) ]
              ++ rest
            /\ (check_visibility_loop self after
                  (set_console_log w
                     (console_log w
                      ++ flat_map (visibility_diagnostics self
                                     (target_database w)) before
                      ++ [ (Error, _format_message self "error"
                                     (msg_not_allowed dep_id));
                           (Info, _format_message dep "info"
                                    (if _visibility_is_default dep
                                     then msg_default_visibility
                                     else msg_declared_here)) ]))).2
               = set_console_log w (console_log w ++ added)).
Proof.
  unfold check_visibility.
  assert (exists added,
            (check_visibility_loop self (deps self) w).2
            = set_console_log w (console_log w ++ added)
            /\ (((forall d, d ∈ deps self -> is_Some (target_database w !! d))
                 /\ (check_visibility_loop self (deps self) w).1 = Ok tt
                 /\ added
                    = flat_map (visibility_diagnostics self
                                  (target_database w)) (deps self))
                \/ exists before d after,
                     deps self = before ++ d :: after
                     /\ (forall d', d' ∈ before ->
                                    is_Some (target_database w !! d'))
                     /\ target_database w !! d = None
                     /\ (check_visibility_loop self (deps self) w).1
                        = Raise (KeyError d)
                     /\ added
                        = flat_map (visibility_diagnostics self
                                      (target_database w)) before))
    as (added & Hst & Hres).
  { destruct (check_visibility_loop_outcome self (deps self) w)
      as [[Hall Hrun]|(before & d & after & Hdeps & Hb & Hd & Hrun)].
    - eexists. rewrite Hrun. split; [reflexivity|]. left. by repeat split.
    - eexists. rewrite Hrun. split; [reflexivity|]. right.
      exists before, d, after. by repeat split. }
  exists added. split; [done|]. split; [|split; [done|split]].
  - intros e He.
    destruct Hres as [(_ & _ & ->)|(before & d & after & _ & _ & _ & _ & ->)];
      by eapply visibility_diagnostics_levels.
  - intros Hreg.
    destruct Hres as [(_ & Hok & _)|(before & d & after & Hdeps & _ & Hd & _)];
      [done|].
    destruct (Hreg d) as [t Ht]; [|congruence].
    rewrite Hdeps. apply elem_of_app. right. apply list_elem_of_here.
  - clear Hres. intros before dep_id after dep Hdeps Hreg Hdep Hm.
    rewrite Hdeps in Hst. rewrite check_visibility_loop_app in Hst.
    unfold bind in Hst.
    rewrite (check_visibility_loop_spec self before w Hreg) in Hst.
    rewrite (check_visibility_loop_violation self dep_id after _ dep) in Hst;
      [|done..].
    rewrite set_console_log_twice in Hst.
    cbn [console_log set_console_log] in Hst.
    rewrite <- (assoc_L (++)) in Hst.
    match type of Hst with
    | (check_visibility_loop self after ?w1).2 = _ =>
        destruct (check_visibility_loop_frame self after w1)
          as (rest & Hst' & _)
    end.
    exists rest. split; [|exact Hst].
    rewrite Hst', set_console_log_twice in Hst.
    cbn [console_log set_console_log] in Hst.
    apply (f_equal console_log) in Hst. cbn [console_log set_console_log] in Hst.
    rewrite <- !(assoc_L (++)) in Hst. apply app_inv_head in Hst.
    by rewrite <- Hst.
Qed.

Lemma visibility_violation_witness :
  exists added,
    check_visibility (C := plain_collaborators)
      (target_in "x" "r" ["y:d"; "z:gone"]) world_with_private_dep
    = (Raise (KeyError "z:gone"),
       set_console_log world_with_private_dep
         (console_log world_with_private_dep ++ added))
    /\ (forall e, e ∈ added -> e.1 = Error \/ e.1 = Info)
    /\ exists rest,
         added
         = [] ++ [ (Error, _format_message (target_in "x" "r" ["y:d"; "z:gone"])
                             "error" (msg_not_allowed "y:d"));
                   (Info, _format_message (target_in "y" "d" []) "info"
                            msg_default_visibility) ] ++ rest.
Proof.
  destruct (visibility_violation_is_error_then_info
              (C := plain_collaborators) (target_in "x" "r" ["y:d"; "z:gone"])
              world_with_private_dep) as (added & H1 & H2 & _ & _ & H5).
  exists added. split; [|split; [exact H2|]].
  - rewrite <- H1. vm_compute. reflexivity.
  - destruct (H5 [] "y:d" ["z:gone"] (target_in "y" "d" []) eq_refl)
      as (rest & Hrest & _).
    + by intros d ?%elem_of_nil.
    + reflexivity.
    + reflexivity.
    + exists rest. exact Hrest.
Defined.

(** C4 as stated fails: a dependency edge that fails the visibility check
    is sent to [console.error], not to [console.fatal]; the call returns
    and the console holds no fatal diagnostic. *)
Lemma visibility_violation_not_fatal :
  check_visibility (C := plain_collaborators)
    (target_in "x" "r" ["y:d"]) world_with_private_dep
  = (Ok tt,
     set_console_log world_with_private_dep
       [ (Error, _format_message (target_in "x" "r" ["y:d"]) "error"
                   (msg_not_allowed "y:d"));
         (Info, _format_message (target_in "y" "d" []) "info"
                  msg_default_visibility) ])
  /\ forall msg,
       (Fatal, msg) ∉ console_log
                        (check_visibility (C := plain_collaborators)
                           (target_in "x" "r" ["y:d"])
                           world_with_private_dep).2.
Proof.
  assert (check_visibility (C := plain_collaborators)
            (target_in "x" "r" ["y:d"]) world_with_private_dep
          = (Ok tt,
             set_console_log world_with_private_dep
               [ (Error, _format_message (target_in "x" "r" ["y:d"]) "error"
                           (msg_not_allowed "y:d"));
                 (Info, _format_message (target_in "y" "d" []) "info"
                          msg_default_visibility) ])) as Heq.
  { vm_compute. reflexivity. }
  split; [exact Heq|]. intros msg. rewrite Heq. cbn [snd console_log set_console_log].
  intros Hin. apply elem_of_cons in Hin as [Hin|Hin]; [discriminate|].
  apply list_elem_of_singleton in Hin. discriminate.
Qed.

(** ** Source ownership *)

(** C8, as the code has it. When a source already has an owner and a
    different target claims it: an owner that allows duplicates loses the
    record to the claimant, without a diagnostic; an owner that disallows
    them keeps the record, and the claimant gets the configured diagnostic
    ([error], [warning], nothing for any other setting) only if it
    disallows duplicates too, a claimant that allows them getting none. So
    whenever one of the two disallows duplicates, the record left is a
    disallowing one. *)
Theorem duplicate_source_ownership
    {C : Collaborators} {K : TargetKinds} (self : Target) (src : string)
    (w : World) (owner : string) (owner_allows : bool) :
  src_target_map w !! OsPath.normpath (OsPath.join (path self) src)
  = Some (owner, owner_allows) ->
  (owner, owner_allows) <> (fullname self, _allow_duplicate_source self) ->
  exists w',
    claim_source self (_allow_duplicate_source self)
      config_duplicated_source_action src w = (Ok tt, w')
    /\ src_target_map w' !! OsPath.normpath (OsPath.join (path self) src)
       = Some (if owner_allows
               then (fullname self, _allow_duplicate_source self)
               else (owner, owner_allows))
    /\ console_log w'
       = console_log w
         ++ (if owner_allows || _allow_duplicate_source self then []
             else if bool_decide (config_duplicated_source_action = "error")
                  then [(Error, _format_message self "error"
                                  (msg_already_in_srcs src owner))]
                  else if bool_decide
                            (config_duplicated_source_action = "warning")
                       then [(Warning, _format_message self "warning"
                                         (msg_already_in_srcs src owner))]
                       else [])
    /\ (owner_allows = false \/ _allow_duplicate_source self = false ->
        exists winner,
          src_target_map w' !! OsPath.normpath (OsPath.join (path self) src)
          = Some (winner, false)).
Proof.
  intros Hown Hne. unfold claim_source. rewrite Hown.
  rewrite bool_decide_eq_true_2 by done. cbn [snd fst].
  destruct owner_allows; cbn [orb].
  - eexists. split; [reflexivity|].
    cbn [src_target_map set_src_target_map console_log].
    rewrite lookup_insert_eq, app_nil_r. repeat split.
    intros [?| ->]; [done | by eexists].
  - destruct (_allow_duplicate_source self).
    + exists w. rewrite app_nil_r. repeat split; [done|].
      intros _. by eexists.
    + repeat case_bool_decide; cbn [error warning console_emit].
      all: eexists; split; [reflexivity|].
      all: cbn [src_target_map set_console_log console_log].
      all: rewrite ?app_nil_r; repeat split; try done.
      all: intros _; by eexists.
Qed.

Lemma duplicate_source_ownership_witness :
  src_target_map world_with_strict_owner
    !! OsPath.normpath (OsPath.join (path (claimant "cc_library")) "a.cc")
  = Some ("//other:lib", false)
  /\ ("//other:lib", false)
     <> (fullname (claimant "cc_library"),
         _allow_duplicate_source (TargetKinds := plain_kinds)
           (claimant "cc_library"))
  /\ exists w',
       claim_source (claimant "cc_library")
         (_allow_duplicate_source (TargetKinds := plain_kinds)
            (claimant "cc_library"))
         "error" "a.cc" world_with_strict_owner = (Ok tt, w')
       /\ console_log w'
          = [(Error, _format_message (claimant "cc_library") "error"
                       (msg_already_in_srcs "a.cc" "//other:lib"))].
Proof.
  assert (src_target_map world_with_strict_owner
            !! OsPath.normpath (OsPath.join (path (claimant "cc_library")) "a.cc")
          = Some ("//other:lib", false)) as Hown by reflexivity.
  assert (("//other:lib", false)
          <> (fullname (claimant "cc_library"),
              _allow_duplicate_source (TargetKinds := plain_kinds)
                (claimant "cc_library"))) as Hne by discriminate.
  split; [exact Hown|]. split; [exact Hne|].
  destruct (duplicate_source_ownership (C := plain_collaborators)
              (K := plain_kinds) (claimant "cc_library") "a.cc"
              world_with_strict_owner "//other:lib" false Hown Hne)
    as (w' & H1 & _ & H3 & _).
  exists w'. split; [exact H1 | exact H3].
Defined.

(** C8 as stated fails: the owner disallows duplicate sources and the
    policy is [error], yet a claimant that allows duplicates is neither
    warned nor errored. *)
Lemma lenient_claimant_gets_no_diagnostic :
  config_duplicated_source_action (Collaborators := plain_collaborators)
  = "error"
  /\ _allow_duplicate_source (TargetKinds := plain_kinds) (claimant "gen_rule")
     = true
  /\ _check_srcs (C := plain_collaborators) (K := plain_kinds)
       (claimant "gen_rule") [] world_with_strict_owner
     = (Ok tt, world_with_strict_owner)
  /\ console_log world_with_strict_owner = []
  /\ src_target_map world_with_strict_owner !! "base/a.cc"
     = Some ("//other:lib", false).
Proof. repeat split; vm_compute; reflexivity. Qed.

(** ** Lazy generation *)

Lemma keeps_built_eret {A : Type} (a : A) : keeps_built (eret a).
Proof. by intros s Hs. Qed.

Lemma keeps_built_ebind {A B : Type} (m : E A) (k : A -> E B) :
  keeps_built m -> (forall a, keeps_built (k a)) -> keeps_built (ebind m k).
Proof.
  intros Hm Hk s Hs. unfold ebind. destruct (Hm s Hs) as [Hb Hc].
  destruct (m s) as [[a|e] s']; cbn [snd] in *; [|done].
  destruct (Hk a s' Hb) as [Hb' Hc']. split; [done | congruence].
Qed.

Lemma keeps_built_write_rule rule : keeps_built (_write_rule rule).
Proof.
  intros s [code Hs]. unfold _write_rule. rewrite Hs. cbn. split; [|done].
  by eexists.
Qed.

Lemma keeps_built_on_self f :
  (forall t, __build_code (f t) = __build_code t) -> keeps_built (on_self f).
Proof. intros Hf s Hs. unfold on_self, built. cbn. by rewrite Hf. Qed.

Lemma add_target_file_build_code label p t :
  __build_code (_add_target_file label p t) = __build_code t.
Proof. unfold _add_target_file. by destruct (target_file_falsy _). Qed.

Lemma keeps_built_write_variables variables :
  keeps_built (write_variables variables).
Proof.
  induction variables as [|[n v] rest IH]; [apply keeps_built_eret|].
  cbn [write_variables]. apply keeps_built_ebind; [|done].
  destruct (bool_decide (v = "")); apply keeps_built_write_rule.
Qed.

Lemma keeps_built_generate_build rule outputs inputs implicit_deps
    order_only_deps variables implicit_outputs clean :
  keeps_built (generate_build rule outputs inputs implicit_deps
                 order_only_deps variables implicit_outputs clean).
Proof.
  unfold generate_build.
  apply keeps_built_ebind; [apply keeps_built_write_rule | intros _].
  apply keeps_built_ebind; [|intros _].
  { destruct (match clean with Some c => c | None => _ end);
      [apply keeps_built_eret | by apply keeps_built_on_self]. }
  apply keeps_built_ebind; [apply keeps_built_write_variables | intros _].
  apply keeps_built_write_rule.
Qed.

Section LazyGeneration.

Context {K : TargetKinds}.

(** Once the buffer exists, [get_build_code] hands it out and changes
    nothing, whatever the fuel. *)
Lemma get_build_code_built fuel s :
  built s ->
  get_build_code fuel s = (Ok (__build_code (emit_self s)), s).
Proof.
  intros [code Hs]. destruct fuel; cbn [get_build_code]; by rewrite Hs.
Qed.

Lemma keeps_built_get_build_code fuel : keeps_built (get_build_code fuel).
Proof. intros s Hs. by rewrite get_build_code_built. Qed.

Lemma keeps_built_run_gen fuel p : keeps_built (run_gen (get_build_code fuel) p).
Proof.
  induction p; cbn [run_gen].
  - apply keeps_built_eret.
  - by intros s Hs.
  - apply keeps_built_ebind; [apply keeps_built_write_rule | done].
  - apply keeps_built_ebind; [apply keeps_built_generate_build | done].
  - apply keeps_built_ebind; [|done].
    apply keeps_built_on_self, add_target_file_build_code.
  - apply keeps_built_ebind; [|done].
    apply keeps_built_on_self. intros t. unfold _add_default_target_file.
    by rewrite add_target_file_build_code.
  - apply keeps_built_ebind; [|done]. by apply keeps_built_on_self.
  - apply keeps_built_ebind; [|done]. unfold get_target_file_with.
    apply keeps_built_ebind; [apply keeps_built_get_build_code|].
    intros _ s Hs. by destruct (bool_decide (label = "")).
  - apply keeps_built_ebind; [|done]. unfold get_target_files_with.
    apply keeps_built_ebind; [apply keeps_built_get_build_code|].
    by intros _ s Hs.
  - apply keeps_built_ebind; [apply keeps_built_get_build_code | done].
Qed.

(** The first call on a target without build code enters [generate]
    once and leaves a buffer, whether [generate] returns or raises. *)
Lemma get_build_code_first fuel s :
  __build_code (emit_self s) = None ->
  built (get_build_code (S fuel) s).2
  /\ generate_calls (get_build_code (S fuel) s).2 = S (generate_calls s).
Proof.
  intros Hs. cbn [get_build_code]. rewrite Hs.
  match goal with
  | |- context [run_gen ?g ?p ?s1] =>
      destruct (keeps_built_run_gen fuel p s1) as [Hb Hc];
      [by eexists|]; destruct (run_gen g p s1) as [[[]|e] s2]
  end; done.
Qed.

Lemma call_accessor_built fuel a s : built s -> call_accessor fuel a s = s.
Proof.
  intros Hs. destruct a; cbn [call_accessor].
  - by rewrite get_build_code_built.
  - unfold _get_target_file, get_target_file_with, ebind.
    rewrite get_build_code_built by done.
    by destruct (bool_decide (label = "")).
  - unfold _get_target_files, get_target_files_with, ebind.
    by rewrite get_build_code_built.
Qed.

Lemma call_accessors_built fuel l s : built s -> call_accessors fuel l s = s.
Proof.
  intros Hs. induction l as [|a rest IH]; [done|].
  unfold call_accessors in *. cbn [fold_left].
  by rewrite call_accessor_built.
Qed.

Lemma call_accessor_first fuel a s :
  __build_code (emit_self s) = None ->
  built (call_accessor (S fuel) a s)
  /\ generate_calls (call_accessor (S fuel) a s) = S (generate_calls s).
Proof.
  intros Hs. pose proof (get_build_code_first fuel s Hs) as [Hb Hc].
  destruct a; cbn [call_accessor]; [done| |].
  - unfold _get_target_file, get_target_file_with, ebind.
    destruct (get_build_code (S fuel) s) as [[code|e] s1]; [|done].
    by destruct (bool_decide (label = "")).
  - unfold _get_target_files, get_target_files_with, ebind.
    by destruct (get_build_code (S fuel) s) as [[code|e] s1].
Qed.

End LazyGeneration.

(** C2. On a target whose build code was not asked for yet, any number
    [N >= 1] of calls of [get_build_code], [_get_target_file] and
    [_get_target_files], in any order, enters [generate] exactly once: the
    first call does, and leaves the buffer in place; every later call finds
    the buffer, changes nothing, and [get_build_code] returns that
    buffer. *)
Theorem lazy_generation_exactly_once
    {K : TargetKinds} (fuel : nat) (t : Target) (n : nat)
    (first : accessor) (later : list accessor) :
  __build_code t = None ->
  generate_calls (call_accessors (S fuel) (first :: later) (mkEmit t n)) = S n
  /\ generate_calls (call_accessor (S fuel) first (mkEmit t n)) = S n
  /\ built (call_accessor (S fuel) first (mkEmit t n))
  /\ call_accessors (S fuel) (first :: later) (mkEmit t n)
     = call_accessor (S fuel) first (mkEmit t n)
  /\ forall fuel',
       get_build_code fuel' (call_accessor (S fuel) first (mkEmit t n))
       = (Ok (__build_code
                (emit_self (call_accessor (S fuel) first (mkEmit t n)))),
          call_accessor (S fuel) first (mkEmit t n)).
Proof.
  intros Ht.
  destruct (call_accessor_first fuel first (mkEmit t n) Ht) as [Hb Hc].
  assert (call_accessors (S fuel) (first :: later) (mkEmit t n)
          = call_accessor (S fuel) first (mkEmit t n)) as Hrest.
  { unfold call_accessors. cbn [fold_left].
    by apply (call_accessors_built (S fuel) later). }
  rewrite Hrest. repeat split; try done.
  intros fuel'. by apply get_build_code_built.
Qed.

Lemma lazy_generation_exactly_once_witness :
  __build_code (demo_target "lib" "cc_library" ["a.cc"]) = None
  /\ generate_calls
       (call_accessors (K := plain_kinds) 1
          [AGetTargetFile "o"; AGetBuildCode; AGetTargetFiles; AGetBuildCode]
          (mkEmit (demo_target "lib" "cc_library" ["a.cc"]) 0)) = 1
  /\ (get_build_code (K := plain_kinds) 1
        (mkEmit (demo_target "lib" "cc_library" ["a.cc"]) 0)).1
     = Ok (Some ["build lib.o: cc a.cc" +:+ String "010"%char "";
                 String "010"%char ""]).
Proof.
  split; [reflexivity|]. split; [|vm_compute; reflexivity].
  exact (proj1 (lazy_generation_exactly_once (K := plain_kinds) 0
                  (demo_target "lib" "cc_library" ["a.cc"]) 0
                  (AGetTargetFile "o")
                  [AGetBuildCode; AGetTargetFiles; AGetBuildCode] eq_refl)).
Defined.

(** ** The order of strings *)

Lemma string_leb_refl (a : string) : String.leb a a = true.
Proof. destruct (String.leb_total a a); done. Qed.

Lemma string_leb_trans (a b c : string) :
  String.leb a b = true -> String.leb b c = true -> String.leb a c = true.
Proof.
  unfold String.leb. revert b c.
  induction a as [|x a IH]; intros [|y b] [|z c]; cbn; try done.
  unfold Ascii.compare.
  destruct (N.compare_spec (N_of_ascii x) (N_of_ascii y)) as [Hxy|Hxy|Hxy],
           (N.compare_spec (N_of_ascii y) (N_of_ascii z)) as [Hyz|Hyz|Hyz],
           (N.compare_spec (N_of_ascii x) (N_of_ascii z)) as [Hxz|Hxz|Hxz];
    try done; try lia.
  apply IH.
Qed.

#[local] Instance item_le_trans {V : Type} :
  Transitive (fun a b : string * V => Is_true (String.leb a.1 b.1)).
Proof.
  intros a b c Hab Hbc. apply Is_true_true.
  eapply string_leb_trans; by apply Is_true_true.
Qed.

#[local] Instance item_le_total {V : Type} :
  Total (fun a b : string * V => Is_true (String.leb a.1 b.1)).
Proof.
  intros a b. destruct (String.leb_total a.1 b.1) as [H|H];
    [left | right]; by apply Is_true_true.
Qed.

(** In a dict, a key has one value. *)
Lemma dict_item_unique {V : Type} (d : pydict V) k v1 v2 :
  NoDup d.*1 -> (k, v1) ∈ d -> (k, v2) ∈ d -> v1 = v2.
Proof.
  intros Hnd H1 H2.
  apply (elem_of_list_to_map_1 (M := gmap string)) in H1, H2; [|done..].
  congruence.
Qed.

(** Sorting the items of a dict by key forgets the insertion order. *)
Lemma sorted_items_insertion_order (d1 d2 : pydict pyval) :
  NoDup d1.*1 -> d1 ≡ₚ d2 -> sorted_items d1 = sorted_items d2.
Proof.
  intros Hnd Hperm. unfold sorted_items.
  apply (StronglySorted_unique_strong
           (fun a b : string * pyval => Is_true (String.leb a.1 b.1))).
  - intros [k1 v1] [k2 v2] H1 H2 Hle1 Hle2. cbn in Hle1, Hle2.
    assert (k1 = k2) as <-.
    { apply String.leb_antisym; by apply Is_true_true. }
    f_equal. apply (dict_item_unique d1 k1); [done| |].
    + by rewrite merge_sort_Permutation in H1.
    + rewrite merge_sort_Permutation in H2. by rewrite Hperm.
  - apply StronglySorted_merge_sort; apply _.
  - apply StronglySorted_merge_sort; apply _.
  - by rewrite !merge_sort_Permutation.
Qed.

(** ** Dicts as maps *)

Lemma dict_set_to_map {V : Type} (d : pydict V) k v :
  (list_to_map (dict_set d k v) : gmap string V) = <[k := v]> (list_to_map d).
Proof.
  induction d as [|[k' v'] d IH]; [done|]. cbn [dict_set].
  case_bool_decide as Hk; cbn [list_to_map foldr fst snd].
  - subst k'. by rewrite insert_insert_eq.
  - rewrite IH. by apply insert_insert_ne.
Qed.

Lemma dict_set_keys {V : Type} (d : pydict V) k v :
  (dict_set d k v).*1 = if bool_decide (k ∈ d.*1) then d.*1 else d.*1 ++ [k].
Proof.
  induction d as [|[k' v'] d IH]; [done|]. cbn [dict_set].
  destruct (decide (k' = k)) as [->|Hk].
  - rewrite bool_decide_eq_true_2 by done.
    rewrite bool_decide_eq_true_2 by apply list_elem_of_here. done.
  - rewrite (bool_decide_eq_false_2 (k' = k)) by done.
    rewrite !fmap_cons, IH. cbn [fst].
    destruct (decide (k ∈ d.*1)) as [Hin|Hin].
    + rewrite (bool_decide_eq_true_2 (k ∈ d.*1)) by done.
      rewrite bool_decide_eq_true_2; [done|]. by apply list_elem_of_further.
    + rewrite (bool_decide_eq_false_2 (k ∈ d.*1)) by done.
      rewrite bool_decide_eq_false_2; [done|].
      intros [?|?]%elem_of_cons; congruence.
Qed.

Lemma dict_set_NoDup {V : Type} (d : pydict V) k v :
  NoDup d.*1 -> NoDup (dict_set d k v).*1.
Proof.
  intros Hnd. rewrite dict_set_keys. case_bool_decide as Hin; [done|].
  apply NoDup_app. split; [done|]. split; [|apply NoDup_singleton].
  intros x Hx ->%list_elem_of_singleton. done.
Qed.

Lemma dict_update_NoDup {V : Type} (d other : pydict V) :
  NoDup d.*1 -> NoDup (dict_update d other).*1.
Proof.
  unfold dict_update. revert d.
  induction other as [|[k v] other IH]; intros d Hnd; [done|].
  cbn [fold_left]. apply IH. by apply dict_set_NoDup.
Qed.

Lemma dict_update_to_map {V : Type} (d other : pydict V) :
  (list_to_map (dict_update d other) : gmap string V)
  = list_to_map (reverse other) ∪ list_to_map d.
Proof.
  unfold dict_update. revert d.
  induction other as [|[k v] other IH]; intros d.
  - cbn. by rewrite (left_id_L ∅ (∪)).
  - cbn [fold_left fst snd]. rewrite IH, dict_set_to_map, reverse_cons.
    rewrite list_to_map_app. cbn [list_to_map foldr fst snd].
    rewrite <- (assoc_L (∪)). f_equal.
    by rewrite insert_empty, <- insert_union_singleton_l.
Qed.

(** Updating a dict with the same entries in another insertion order gives
    the same entries. *)
Lemma dict_update_insertion_order {V : Type} (d o1 o2 : pydict V) :
  NoDup d.*1 -> NoDup o1.*1 -> o1 ≡ₚ o2 ->
  dict_update d o1 ≡ₚ dict_update d o2.
Proof.
  intros Hd Ho Hperm.
  apply (list_to_map_inj (M := gmap string)); [by apply dict_update_NoDup..|].
  rewrite !dict_update_to_map. f_equal.
  apply list_to_map_proper.
  - by rewrite fmap_reverse, reverse_Permutation.
  - by rewrite !reverse_Permutation.
Qed.

(** ** Fingerprint *)

Lemma db_keeps_targets_refl db : db_keeps_targets db db.
Proof. intros k t Hk. by exists t. Qed.

Lemma db_keeps_targets_trans db1 db2 db3 :
  db_keeps_targets db1 db2 -> db_keeps_targets db2 db3 ->
  db_keeps_targets db1 db3.
Proof.
  intros H12 H23 k t Hk. destruct (H12 k t Hk) as (t' & Hk' & Ht').
  destruct (H23 k t' Hk') as (t'' & Hk'' & Ht'').
  exists t''. split; [done|]. unfold same_but_fingerprint in *. congruence.
Qed.

Section FingerprintFacts.

Context {C : Collaborators}.

Lemma map_M_keeps_targets {A B : Type} (f : A -> M B) l w :
  (forall a w, db_keeps_targets (target_database w)
                 (target_database (f a w).2)) ->
  db_keeps_targets (target_database w) (target_database (map_M f l w).2).
Proof.
  intros Hf. revert w. induction l as [|a rest IH]; intros w.
  - apply db_keeps_targets_refl.
  - cbn [map_M]. unfold bind at 1. specialize (Hf a w).
    destruct (f a w) as [[b|e] w1]; cbn [snd] in *; [|done].
    unfold bind at 1. specialize (IH w1).
    destruct (map_M f rest w1) as [[bs|e] w2]; cbn [snd] in *;
      by eapply db_keeps_targets_trans.
Qed.

(** [fingerprint] changes nothing in the database but cached
    fingerprints. *)
Lemma fingerprint_keeps_targets fuel k w :
  db_keeps_targets (target_database w)
    (target_database (fingerprint fuel k w).2).
Proof.
  revert k w. induction fuel as [|fuel IH]; intros k w.
  - cbn [fingerprint]. unfold bind, lookup_target.
    destruct (target_database w !! k) as [self|];
      [|apply db_keeps_targets_refl].
    destruct (__fingerprint self); apply db_keeps_targets_refl.
  - cbn [fingerprint]. unfold bind at 1. unfold lookup_target at 1.
    destruct (target_database w !! k) as [self|];
      [|apply db_keeps_targets_refl].
    destruct (__fingerprint self); [apply db_keeps_targets_refl|].
    unfold bind at 1.
    pose proof (map_M_keeps_targets (fingerprint fuel) (deps self) w IH)
      as Hdeps.
    destruct (map_M (fingerprint fuel) (deps self) w) as [[fps|e] w1];
      cbn [snd] in *; [|done].
    unfold bind, lookup_target.
    destruct (target_database w1 !! k) as [self1|] eqn:Hk1; [|done].
    destruct (fingerprint_of_entropy _) as [h|e]; [|done].
    cbn [snd target_database set_target_database].
    eapply db_keeps_targets_trans; [exact Hdeps|].
    intros k0 t0 Hk0. destruct (decide (k0 = k)) as [->|Hne].
    + rewrite lookup_insert_eq. eexists. split; [done|].
      rewrite Hk1 in Hk0. injection Hk0 as <-. by destruct self1.
    + rewrite lookup_insert_ne by done. by exists t0.
Qed.

Lemma fingerprint_entropy_same_but_fingerprint t t' fps :
  same_but_fingerprint t t' ->
  fingerprint_entropy t fps = fingerprint_entropy t' fps.
Proof.
  unfold same_but_fingerprint. intros Heq.
  destruct t, t'. cbn in Heq. by simplify_eq.
Qed.

(** The entropy of two targets that agree on type, name, sources and on
    the entries of [attr] holds the same entries. *)
Lemma fingerprint_entropy_insertion_order t1 t2 fps :
  type t1 = type t2 -> name t1 = name t2 -> srcs t1 = srcs t2 ->
  NoDup (attr t1).*1 -> attr t1 ≡ₚ attr t2 ->
  NoDup (fingerprint_entropy t1 fps).*1
  /\ fingerprint_entropy t1 fps ≡ₚ fingerprint_entropy t2 fps.
Proof.
  intros Hty Hn Hs Hnd Hperm. unfold fingerprint_entropy, _fingerprint_entropy.
  rewrite Hty, Hn, Hs.
  assert (NoDup
            (dict_set
               [("blade_revision", PStr blade_revision);
                ("config", PStr config_digest); ("type", PStr (type t2));
                ("name", PStr (name t2)); ("srcs", PStrList (srcs t2))]
               "deps" (PStrList fps)).*1) as Hbase.
  { apply dict_set_NoDup. cbn. apply (bool_decide_unpack _). by vm_compute. }
  split; [by apply dict_update_NoDup|].
  by apply dict_update_insertion_order.
Qed.

(** What the first call of [fingerprint] on a target returns, once the
    fingerprints of its dependencies are known. *)
Lemma fingerprint_first fuel k w t fps w1 :
  target_database w !! k = Some t ->
  __fingerprint t = None ->
  map_M (fingerprint fuel) (deps t) w = (Ok fps, w1) ->
  (fingerprint (S fuel) k w).1
  = fingerprint_of_entropy (fingerprint_entropy t fps).
Proof.
  intros Hk Hfp Hdeps. cbn [fingerprint]. unfold bind at 1.
  unfold lookup_target at 1. rewrite Hk, Hfp. unfold bind at 1.
  pose proof (map_M_keeps_targets (fingerprint fuel) (deps t) w
                (fingerprint_keeps_targets fuel)) as Hkeep.
  rewrite Hdeps in *. cbn [snd] in Hkeep.
  destruct (Hkeep k t Hk) as (t' & Hk' & Hsame).
  unfold bind, lookup_target. rewrite Hk'.
  rewrite <- (fingerprint_entropy_same_but_fingerprint t t' fps Hsame).
  by destruct (fingerprint_of_entropy _).
Qed.

End FingerprintFacts.

(** C1. Two registered targets without a cached fingerprint that agree on
    type tag, name, source list, on the entries of [attr] whatever the
    order these were inserted in, and on the fingerprints of their direct
    dependencies (configuration digest and revision being those of the one
    build), get the same result from [fingerprint]: the same hash, or the
    same failed assertion. The entropy is sorted by key before it is
    turned into text, so dicts with the same entries give the same hash. *)
Theorem fingerprint_deterministic
    {C : Collaborators} (fuel1 fuel2 : nat) (w1 w2 : World) (k1 k2 : string)
    (t1 t2 : Target) (fps : list string) (w1' w2' : World) :
  target_database w1 !! k1 = Some t1 ->
  target_database w2 !! k2 = Some t2 ->
  __fingerprint t1 = None ->
  __fingerprint t2 = None ->
  type t1 = type t2 ->
  name t1 = name t2 ->
  srcs t1 = srcs t2 ->
  NoDup (attr t1).*1 ->
  attr t1 ≡ₚ attr t2 ->
  map_M (fingerprint fuel1) (deps t1) w1 = (Ok fps, w1') ->
  map_M (fingerprint fuel2) (deps t2) w2 = (Ok fps, w2') ->
  (fingerprint (S fuel1) k1 w1).1 = (fingerprint (S fuel2) k2 w2).1
  /\ (fingerprint (S fuel1) k1 w1).1
     = fingerprint_of_entropy (fingerprint_entropy t1 fps)
  /\ sorted_items (fingerprint_entropy t1 fps)
     = sorted_items (fingerprint_entropy t2 fps)
  /\ (forall d1 d2 : pydict pyval,
        NoDup d1.*1 -> d1 ≡ₚ d2 ->
        fingerprint_of_entropy d1 = fingerprint_of_entropy d2).
Proof.
  intros Hk1 Hk2 Hc1 Hc2 Hty Hn Hs Hnd Hperm Hd1 Hd2.
  destruct (fingerprint_entropy_insertion_order t1 t2 fps Hty Hn Hs Hnd Hperm)
    as [Hnd' Hperm'].
  pose proof (sorted_items_insertion_order _ _ Hnd' Hperm') as Hsorted.
  rewrite (fingerprint_first fuel1 k1 w1 t1 fps w1' Hk1 Hc1 Hd1).
  rewrite (fingerprint_first fuel2 k2 w2 t2 fps w2' Hk2 Hc2 Hd2).
  split; [|split; [done|split; [done|]]].
  - unfold fingerprint_of_entropy. by rewrite Hsorted.
  - intros d1 d2 Hd Hp. unfold fingerprint_of_entropy.
    by rewrite (sorted_items_insertion_order d1 d2 Hd Hp).
Qed.

Lemma fingerprint_deterministic_witness :
  (fingerprint (C := plain_collaborators) 1 "x:lib" world_with_two_orders).1
  = (fingerprint (C := plain_collaborators) 1 "y:lib" world_with_two_orders).1
  /\ (fingerprint (C := plain_collaborators) 1 "x:lib" world_with_two_orders).1
     = Ok ("md5([('blade_revision', 'rev'), ('config', 'cfg'), ('deps', []), "
           +:+ "('name', 'lib'), ('optimize', 2), ('srcs', ['a.cc']), "
           +:+ "('type', 'cc_library'), ('warning', 'yes')])").
Proof.
  split; [|vm_compute; reflexivity].
  refine (proj1 (fingerprint_deterministic (C := plain_collaborators) 0 0
                   world_with_two_orders world_with_two_orders
                   "x:lib" "y:lib"
                   (attr_target "x" [("warning", PStr "yes"); ("optimize", PInt 2)])
                   (attr_target "y" [("optimize", PInt 2); ("warning", PStr "yes")])
                   [] world_with_two_orders world_with_two_orders
                   eq_refl eq_refl eq_refl eq_refl eq_refl eq_refl eq_refl
                   _ _ eq_refl eq_refl)).
  - apply (bool_decide_unpack _). vm_compute. exact I.
  - cbn [attr attr_target set_attr]. apply Permutation_swap.
Defined.

(** ** Characters of a parsed directory *)

Lemma span_spec p s :
  all_chars p (PyStr.span p s).1 = true
  /\ s = (PyStr.span p s).1 +:+ (PyStr.span p s).2
  /\ (forall a r, (PyStr.span p s).2 = String a r -> p a = false).
Proof.
  induction s as [|a s IH]; [done|]. cbn [PyStr.span].
  destruct (p a) eqn:Hp.
  - destruct (PyStr.span p s) as [h t]. cbn [fst snd] in *.
    destruct IH as (IH1 & IH2 & IH3). cbn [all_chars]. rewrite Hp, IH1.
    split; [done|]. split; [by rewrite IH2 at 1|done].
  - cbn. split; [done|]. split; [done|]. by intros ?? [= <- <-].
Qed.

Lemma rstrip_colon_path_chars dir :
  all_chars is_path_char dir = true ->
  PyStr.rstrip_char ":" (dir +:+ ":") = dir.
Proof.
  induction dir as [|a dir IH]; [done|]. cbn [all_chars].
  intros [Ha Hdir]%andb_true_iff.
  change (String a dir +:+ ":") with (String a (dir +:+ ":")).
  cbn [PyStr.rstrip_char]. rewrite (IH Hdir). destruct dir; [|done].
  destruct (Ascii.eqb_spec a ":") as [->|]; done.
Qed.

Lemma split_char_all_chars p c s :
  all_chars p s = true ->
  Forall (fun comp => all_chars p comp = true) (PyStr.split_char c s).
Proof.
  induction s as [|a s IH]; [by repeat constructor|]. cbn [all_chars].
  intros [Ha Hs]%andb_true_iff. specialize (IH Hs). cbn [PyStr.split_char].
  destruct (Ascii.eqb a c); [by constructor|].
  destruct (PyStr.split_char c s) as [|h t].
  { constructor; [|done]. cbn. by rewrite Ha. }
  inversion_clear IH. constructor; [|done]. cbn [all_chars]. by rewrite Ha.
Qed.

Lemma Forall_removelast {A : Type} (P : A -> Prop) (l : list A) :
  Forall P l -> Forall P (removelast l).
Proof.
  induction 1 as [|x l Hx Hl IH]; [done|]. cbn.
  destruct l; [constructor | by constructor].
Qed.

Lemma norm_step_Forall (P : string -> Prop) i acc comp :
  Forall P acc -> (comp <> "" -> P comp) -> Forall P (OsPath.norm_step i acc comp).
Proof.
  intros Hacc Hcomp. unfold OsPath.norm_step.
  case_bool_decide as H1; [done|].
  case_bool_decide; [|case_bool_decide; [by apply Forall_removelast | done]].
  apply Forall_app. split; [done|]. constructor; [|done].
  apply Hcomp. intros ->. apply H1. by left.
Qed.

Lemma norm_fold_Forall (P : string -> Prop) i comps acc :
  Forall P acc -> Forall (fun comp => comp <> "" -> P comp) comps ->
  Forall P (fold_left (OsPath.norm_step i) comps acc).
Proof.
  intros Hacc Hcomps. revert acc Hacc.
  induction Hcomps as [|c comps Hc Hcomps IH]; intros acc Hacc; [done|].
  cbn [fold_left]. apply IH. by apply norm_step_Forall.
Qed.

(** A non-empty join of non-empty components starts with the first
    character of the first one. *)
Lemma join_head_char sep l a r :
  Forall (fun comp => comp <> "") l ->
  PyStr.join sep l = String a r ->
  exists c rest, l = String a c :: rest.
Proof.
  intros Hl. destruct Hl as [|[|b c] l Hx Hl]; [done..|].
  cbn [PyStr.join]. destruct l; cbn; intros [= <- _]; by eexists _, _.
Qed.

(** What [normpath] makes of a text of path characters that starts with
    two slashes and not three: two slashes, then nothing or a path
    character. *)
Lemma normpath_double_slash dir :
  all_chars is_path_char dir = true ->
  PyStr.startswith dir "//" = true ->
  PyStr.startswith dir "///" = false ->
  exists j, OsPath.normpath dir = "//" +:+ j
            /\ (forall a r, j = String a r -> is_path_char a = true).
Proof.
  intros Hchars H2 H3. unfold OsPath.normpath.
  assert (PyStr.startswith dir "/" = true) as H1.
  { destruct dir as [|a dir]; [done|]. cbn in *.
    destruct (Ascii.eqb a "/"); [by rewrite andb_true_r | done]. }
  rewrite bool_decide_eq_false_2 by (by intros ->).
  rewrite H1, H2, H3. cbn [negb andb PyStr.repeat_char].
  set (comps := fold_left _ _ _).
  rewrite bool_decide_eq_false_2 by done.
  eexists. split; [reflexivity|]. intros a r Hj.
  assert (Forall (fun comp => comp <> "" /\ all_chars is_path_char comp = true)
            comps) as Hcomps.
  { apply norm_fold_Forall; [done|].
    eapply Forall_impl; [by apply split_char_all_chars|]. by cbn. }
  destruct (join_head_char "/" comps a r) as (c & rest & Heq); [|done|].
  { eapply Forall_impl; [exact Hcomps|]. by intros ? []. }
  rewrite Heq in Hcomps. inversion_clear Hcomps as [|?? [_ Hc] _].
  cbn [all_chars] in Hc. by apply andb_true_iff in Hc as [? _].
Qed.

Lemma startswith_double_slash s :
  PyStr.startswith s "//" = true -> exists r, s = String "/" (String "/" r).
Proof.
  destruct s as [|a [|b r]]; cbn;
    [done | by rewrite andb_false_r |].
  rewrite andb_true_r. intros [Ha Hb]%andb_true_iff.
  apply Ascii.eqb_eq in Ha, Hb. subst a b. by exists r.
Qed.

Lemma check_path_nil_double_slash dir :
  PyStr.startswith dir "//" = true -> _check_path dir = [] ->
  PyStr.startswith dir "///" = false.
Proof.
  unfold _check_path. intros H2. rewrite H2.
  destruct dir as [|a [|b dir]]; cbn in H2;
    [done | by rewrite andb_false_r in H2 |].
  apply andb_true_iff in H2 as [Ha Hb]. rewrite andb_true_r in Hb.
  apply Ascii.eqb_eq in Ha, Hb. subst a b. cbn [PyStr.drop]. intros Hnil.
  destruct dir as [|c dir]; [done|].
  cbn [PyStr.startswith] in *. rewrite !andb_true_r in *.
  rewrite !Ascii.eqb_refl. cbn [andb].
  destruct (Ascii.eqb c "/"); [|done].
  exfalso. cbn [app] in Hnil. by destruct (PyStr.contains ".." _).
Qed.

(** A reference that starts with two slashes or with a hash parses, if at
    all, to the directory [#] or to a directory text of two slashes
    followed by nothing or by a path character. *)
Lemma parse_prefixed_dir dep p n :
  PyStr.startswith dep "//" = true \/ PyStr.startswith dep "#" = true ->
  parse_target_uncached dep = (p, n, None) ->
  p = "#"
  \/ exists j, p = "//" +:+ j
               /\ (forall a r, j = String a r -> is_path_char a = true).
Proof.
  intros Hpre Hparse.
  destruct (parse_target_uncached_dir _ _ _ Hparse) as (raw & Hre & Hchk & Hp).
  unfold _TARGET_RE_match, target_re_alt_path in Hre.
  destruct (span_spec is_path_char dep) as (Hall & Hdep & Hrest).
  destruct (PyStr.span is_path_char dep) as [dir rest] eqn:Hspan.
  cbn [fst snd] in *. destruct Hpre as [H2|Hh].
  - right. apply startswith_double_slash in H2 as [r0 Hdep0].
    assert (target_re_alt_hash dep = None) as Hnohash by (by rewrite Hdep0).
    assert (PyStr.startswith dir "//" = true) as Hdir2.
    { rewrite Hdep0 in Hspan. cbn in Hspan.
      destruct (PyStr.span is_path_char r0). by injection Hspan as <- <-. }
    rewrite Hnohash in Hre.
    assert (raw = dir +:+ ":") as ->.
    { destruct rest as [|c rest']; [done|].
      destruct (Ascii.eqb_spec c ":") as [->|Hc].
      - unfold target_re_name in Hre.
        destruct (PyStr.span is_name_char rest') as [nm tl].
        destruct (at_dollar tl); [|done]. by injection Hre as <- _.
      - exfalso. destruct c as [[] [] [] [] [] [] [] []]; done. }
    rewrite rstrip_colon_path_chars in Hchk, Hp by done.
    rewrite bool_decide_eq_false_2 in Hp by (by intros ->). subst p.
    apply normpath_double_slash; [done..|].
    by apply check_path_nil_double_slash.
  - left. destruct dep as [|a dep]; [done|]. cbn in Hh.
    rewrite andb_true_r in Hh. apply Ascii.eqb_eq in Hh. subst a.
    cbn in Hspan. injection Hspan as <- <-. cbn in Hre.
    unfold target_re_name in Hre.
    destruct (PyStr.span is_name_char dep) as [nm tl].
    destruct (at_dollar tl); [|done]. injection Hre as <- _.
    by subst p.
Qed.

Lemma resolved_key_nonempty dir r k : resolved_key dir r = Some k -> k <> "".
Proof.
  assert (forall x n : string, x +:+ ":" +:+ n <> "") as Hne.
  { by intros [|??] ?. }
  unfold resolved_key. destruct r as [[p n] [[|??]|]]; [| done |].
  all: repeat case_match; intros [= <-]; by apply Hne || done.
Qed.

(** The key of a reference that starts with two slashes starts with a
    hash only when the reference names a system library. *)
Lemma resolved_key_prefixed dir dep p n k :
  PyStr.startswith dep "//" = true \/ PyStr.startswith dep "#" = true ->
  parse_target_uncached dep = (p, n, None) ->
  resolved_key dir (p, n, None) = Some k ->
  PyStr.startswith k "#" = true ->
  p = "#" /\ k = "#:" +:+ n.
Proof.
  intros Hpre Hparse Hk Hhash.
  destruct (parse_prefixed_dir dep p n Hpre Hparse) as [->|(j & -> & Hj)].
  { cbn in Hk. by injection Hk as <-. }
  exfalso. cbn in Hk. injection Hk as <-.
  destruct j as [|a r]; [done|]. specialize (Hj a r eq_refl).
  change (PyStr.startswith (String a (r +:+ ":" +:+ n)) "#" = true) in Hhash.
  cbn in Hhash. destruct (Ascii.eqb a "#") eqn:E; [|done].
  apply Ascii.eqb_eq in E. by subst a.
Qed.

(** ** Dependency edges are deduplicated *)

Lemma deps_extended_refl self : deps_extended self self.
Proof. by split. Qed.

Lemma deps_extended_trans s1 s2 s3 :
  deps_extended s1 s2 -> deps_extended s2 s3 -> deps_extended s1 s3.
Proof.
  intros (Hp1 & Hd1 & Hn1) (Hp2 & Hd2 & Hn2).
  split; [congruence|]. split; [by etrans | auto].
Qed.

Lemma deps_extended_append self k :
  k ∉ deps self -> deps_extended self (set_deps self (deps self ++ [k])).
Proof.
  intros Hk. split; [done|]. split; [by apply prefix_app_r|].
  intros Hnd. cbn. apply NoDup_app. split; [done|].
  split; [|apply NoDup_singleton].
  by intros x Hx ->%list_elem_of_singleton.
Qed.

Lemma deps_extended_implicit self s :
  deps_extended self (set_implicit_deps self s).
Proof. by split. Qed.

Section Dedup.

Context {C : Collaborators}.

Lemma init_target_deps_extends self l w :
  cache_ok (parse_cache w) ->
  exists self' w',
    _init_target_deps self l w = (Ok self', w')
    /\ deps_extended self self' /\ world_grows w w'.
Proof.
  revert self w. induction l as [|d rest IH]; intros self w Hok.
  - exists self, w. split; [done|].
    split; [apply deps_extended_refl | by apply world_grows_refl].
  - destruct (init_target_deps_cons self d rest w Hok) as (w1 & Hg1 & ->).
    set (self1 := match resolved_key _ _ with Some _ => _ | None => _ end).
    assert (deps_extended self self1) as Hext.
    { subst self1. destruct (resolved_key _ _) as [k|];
        [|apply deps_extended_refl].
      destruct (decide (k ∈ deps self)).
      - rewrite (bool_decide_eq_true_2 (k ∈ deps self)) by done.
        rewrite andb_false_r. apply deps_extended_refl.
      - destruct (bool_decide (k <> "")); [|apply deps_extended_refl].
        rewrite (bool_decide_eq_false_2 (k ∈ deps self)) by done.
        by apply deps_extended_append. }
    destruct (IH self1 w1) as (self' & w' & -> & Hext' & Hg'); [apply Hg1|].
    exists self', w'. split; [done|].
    split; [by eapply deps_extended_trans | by eapply world_grows_trans].
Qed.

(** One round of the loop of [_add_implicit_library] on an entry that
    resolves. *)
Lemma add_implicit_library_cons self dep rest w k :
  cache_ok (parse_cache w) ->
  resolved_key (path self) (parse_target_uncached (implicit_reference dep))
  = Some k ->
  exists w',
    world_grows w w'
    /\ _add_implicit_library self (dep :: rest) w
       = _add_implicit_library
           (set_implicit_deps
              (if bool_decide (k ∈ deps self) then self
               else set_deps self (deps self ++ [k]))
              ({[k]} ∪ _implicit_deps
                         (if bool_decide (k ∈ deps self) then self
                          else set_deps self (deps self ++ [k]))))
           rest w'.
Proof.
  intros Hok Hk. cbn [_add_implicit_library]. fold (implicit_reference dep).
  destruct (unify_dep_spec self (implicit_reference dep) w Hok)
    as (w' & Hu & Hg & _ & Hsys).
  unfold bind at 1. rewrite Hu, Hk.
  pose proof (resolved_key_nonempty _ _ _ Hk) as Hne.
  cbn [key_falsy]. rewrite bool_decide_eq_false_2 by done.
  exists w'. split; [done|]. unfold bind at 1.
  destruct (PyStr.startswith k "#") eqn:Hhash; [|done].
  destruct (parse_target_uncached (implicit_reference dep))
    as [[p n] msgs] eqn:Hparse.
  assert (msgs = None) as ->.
  { destruct msgs as [msgs|]; [|done].
    destruct (parse_target_uncached_msgs _ _ _ _ Hparse) as (_ & _ & Hm).
    by destruct msgs. }
  destruct (resolved_key_prefixed (path self) (implicit_reference dep)
              p n k) as [-> ->]; try done.
  { unfold implicit_reference.
    destruct (PyStr.startswith dep "//") eqn:E2; [by left|].
    destruct (PyStr.startswith dep "#") eqn:Eh; [by right|]. by left. }
  destruct (Hsys n eq_refl) as [lib Hlib].
  unfold _add_system_library. by rewrite Hlib.
Qed.

Lemma add_implicit_library_extends self l w :
  cache_ok (parse_cache w) ->
  exists self' w',
    _add_implicit_library self l w = (Ok self', w')
    /\ deps_extended self self' /\ world_grows w w'.
Proof.
  revert self w. induction l as [|dep rest IH]; intros self w Hok.
  - exists self, w. split; [done|].
    split; [apply deps_extended_refl | by apply world_grows_refl].
  - destruct (resolved_key (path self)
                (parse_target_uncached (implicit_reference dep)))
      as [k|] eqn:Hk.
    + destruct (add_implicit_library_cons self dep rest w k Hok Hk)
        as (w1 & Hg1 & ->).
      set (self1 := set_implicit_deps _ _).
      assert (deps_extended self self1) as Hext.
      { subst self1. case_bool_decide; [apply deps_extended_implicit|].
        eapply deps_extended_trans; [by apply deps_extended_append|].
        apply deps_extended_implicit. }
      destruct (IH self1 w1) as (self' & w' & -> & Hext' & Hg');
        [apply Hg1|].
      exists self', w'. split; [done|].
      split; [by eapply deps_extended_trans | by eapply world_grows_trans].
    + destruct (add_implicit_library_returns_at_invalid self dep rest w Hok Hk)
        as (w' & Hg & ->).
      exists self, w'. split; [done|]. split; [apply deps_extended_refl|done].
Qed.

Lemma location_reference_extends self k ty w :
  cache_ok (parse_cache w) ->
  exists self' w' r,
    _add_location_reference_target self (k, ty) w = (Ok (self', r), w')
    /\ deps_extended self self' /\ world_grows w w'.
Proof.
  intros Hok. destruct (unify_dep_spec self k w Hok) as (w' & Hu & Hg & _).
  unfold _add_location_reference_target, bind. rewrite Hu. cbn [ret].
  eexists _, w', _. split; [reflexivity|]. split; [|done].
  destruct (resolved_key _ _) as [k'|]; [|apply deps_extended_refl].
  destruct (decide (k' ∈ deps self)).
  - rewrite (bool_decide_eq_true_2 (k' ∈ deps self)) by done.
    rewrite andb_false_r. apply deps_extended_refl.
  - destruct (negb _); [|apply deps_extended_refl].
    rewrite (bool_decide_eq_false_2 (k' ∈ deps self)) by done.
    by apply deps_extended_append.
Qed.

Lemma run_dep_call_extends self c w :
  cache_ok (parse_cache w) ->
  exists self' w',
    run_dep_call self c w = (Ok self', w')
    /\ deps_extended self self' /\ world_grows w w'.
Proof.
  intros Hok. destruct c as [l|l|[k ty]]; cbn [run_dep_call].
  - by apply init_target_deps_extends.
  - by apply add_implicit_library_extends.
  - destruct (location_reference_extends self k ty w Hok)
      as (self' & w' & r & Hr & Hext & Hg).
    exists self', w'. unfold bind. rewrite Hr. done.
Qed.

End Dedup.

Section DedupCalls.

Context {C : Collaborators}.

Lemma run_dep_calls_extends self l w :
  cache_ok (parse_cache w) ->
  exists self' w',
    run_dep_calls self l w = (Ok self', w')
    /\ deps_extended self self' /\ world_grows w w'.
Proof.
  revert self w. induction l as [|c rest IH]; intros self w Hok.
  - exists self, w. split; [done|].
    split; [apply deps_extended_refl | by apply world_grows_refl].
  - destruct (run_dep_call_extends self c w Hok)
      as (self1 & w1 & Hc & Hext1 & Hg1).
    destruct (IH self1 w1) as (self' & w' & Hr & Hext' & Hg'); [apply Hg1|].
    exists self', w'. cbn [run_dep_calls]. unfold bind. rewrite Hc, Hr.
    split; [done|].
    split; [by eapply deps_extended_trans | by eapply world_grows_trans].
Qed.

Lemma run_dep_calls_app self l1 l2 w :
  run_dep_calls self (l1 ++ l2) w
  = bind (run_dep_calls self l1) (fun s => run_dep_calls s l2) w.
Proof.
  revert self w. induction l1 as [|c l1 IH]; intros self w; [done|].
  cbn [app run_dep_calls]. unfold bind.
  destruct (run_dep_call self c w) as [[s|e] w1]; [|done].
  rewrite IH. done.
Qed.

Lemma init_target_deps_twice self d k w :
  cache_ok (parse_cache w) ->
  resolved_key (path self) (parse_target_uncached d) = Some k ->
  deps_after (_init_target_deps self [d; d] w)
  = Some (if bool_decide (k ∈ deps self) then deps self
          else deps self ++ [k]).
Proof.
  intros Hok Hk. pose proof (resolved_key_nonempty _ _ _ Hk) as Hne.
  destruct (init_target_deps_cons self d [d] w Hok) as (w1 & Hg1 & ->).
  rewrite Hk, (bool_decide_eq_true_2 (k <> "")) by done. cbn [andb].
  set (self1 := if negb _ then _ else _).
  assert (path self1 = path self) as Hpath by (subst self1; by destruct (negb _)).
  assert (k ∈ deps self1) as Hin.
  { subst self1. case_bool_decide; cbn; [done|].
    apply elem_of_app. right. by apply list_elem_of_singleton. }
  destruct (init_target_deps_cons self1 d [] w1) as (w2 & Hg2 & ->);
    [apply Hg1|].
  rewrite Hpath, Hk, (bool_decide_eq_true_2 (k ∈ deps self1)) by done.
  rewrite andb_false_r. cbn. subst self1. by case_bool_decide.
Qed.

End DedupCalls.

Lemma add_once_fold_elem ks acc k :
  k ∈ acc \/ k ∈ ks -> k ∈ fold_left add_once ks acc.
Proof.
  revert acc. induction ks as [|k0 ks IH]; intros acc [Hk|Hk].
  - done.
  - by apply elem_of_nil in Hk.
  - cbn [fold_left]. apply IH. left. unfold add_once.
    case_bool_decide; [done|]. apply elem_of_app. by left.
  - cbn [fold_left]. apply IH. apply elem_of_cons in Hk as [->|Hk];
      [left | by right].
    unfold add_once. case_bool_decide; [done|].
    apply elem_of_app. right. by apply list_elem_of_singleton.
Qed.

Lemma elem_of_concat_map {A : Type} (f : A -> list string) l a k :
  a ∈ l -> k ∈ f a -> k ∈ concat (map f l).
Proof.
  intros Ha Hk. induction l as [|b l IH]; [by apply elem_of_nil in Ha|].
  cbn [map concat]. apply elem_of_app.
  apply elem_of_cons in Ha as [->|Ha]; [by left | right; by apply IH].
Qed.

Lemma NoDup_occurrences_one l k : NoDup l -> k ∈ l -> occurrences k l = 1.
Proof.
  intros Hnd Hk. pose proof (proj1 (NoDup_occurrences l) Hnd k).
  pose proof (occurrences_in k l Hk). lia.
Qed.

Section DedupKeys.

Context {C : Collaborators}.

Lemma init_target_deps_keys self l w :
  cache_ok (parse_cache w) ->
  exists self' w',
    _init_target_deps self l w = (Ok self', w')
    /\ deps self' = fold_left add_once (declared_keys (path self) l) (deps self)
    /\ path self' = path self /\ world_grows w w'.
Proof.
  revert self w. induction l as [|d rest IH]; intros self w Hok.
  - exists self, w. split; [done|]. split; [done|]. split; [done|].
    by apply world_grows_refl.
  - destruct (init_target_deps_cons self d rest w Hok) as (w1 & Hg1 & ->).
    set (self1 := match resolved_key _ _ with Some _ => _ | None => _ end).
    assert (path self1 = path self
            /\ fold_left add_once (declared_keys (path self) (d :: rest))
                 (deps self)
               = fold_left add_once (declared_keys (path self) rest)
                   (deps self1)) as [Hpath Hdeps].
    { subst self1. cbn [declared_keys].
      destruct (resolved_key _ _) as [k|] eqn:Hk; [|done].
      pose proof (resolved_key_nonempty _ _ _ Hk) as Hne.
      rewrite (bool_decide_eq_true_2 (k <> "")) by done. cbn [andb fold_left].
      unfold add_once. by case_bool_decide. }
    destruct (IH self1 w1) as (self' & w' & -> & Hd' & Hp' & Hg');
      [apply Hg1|].
    exists self', w'. split; [done|]. rewrite Hdeps, <- Hpath.
    split; [done|]. split; [by rewrite Hp'|]. by eapply world_grows_trans.
Qed.

Lemma add_implicit_library_keys self l w :
  cache_ok (parse_cache w) ->
  exists self' w',
    _add_implicit_library self l w = (Ok self', w')
    /\ deps self' = fold_left add_once (implicit_keys (path self) l) (deps self)
    /\ path self' = path self /\ world_grows w w'.
Proof.
  revert self w. induction l as [|dep rest IH]; intros self w Hok.
  - exists self, w. split; [done|]. split; [done|]. split; [done|].
    by apply world_grows_refl.
  - cbn [implicit_keys].
    destruct (resolved_key (path self)
                (parse_target_uncached (implicit_reference dep)))
      as [k|] eqn:Hk.
    + destruct (add_implicit_library_cons self dep rest w k Hok Hk)
        as (w1 & Hg1 & ->).
      set (self1 := set_implicit_deps _ _).
      assert (path self1 = path self /\ deps self1 = add_once (deps self) k)
        as [Hpath Hdeps].
      { subst self1. unfold add_once. by case_bool_decide. }
      destruct (IH self1 w1) as (self' & w' & -> & Hd' & Hp' & Hg');
        [apply Hg1|].
      exists self', w'. split; [done|]. cbn [fold_left].
      rewrite <- Hdeps, <- Hpath. split; [done|].
      split; [by rewrite Hp'|]. by eapply world_grows_trans.
    + destruct (add_implicit_library_returns_at_invalid self dep rest w Hok Hk)
        as (w' & Hg & ->).
      by exists self, w'.
Qed.

Lemma location_reference_keys self k ty w :
  cache_ok (parse_cache w) ->
  exists self' w' r,
    _add_location_reference_target self (k, ty) w = (Ok (self', r), w')
    /\ deps self'
       = fold_left add_once
           (call_keys (path self) (CAddLocationReference (k, ty))) (deps self)
    /\ path self' = path self /\ world_grows w w'.
Proof.
  intros Hok. destruct (unify_dep_spec self k w Hok) as (w' & Hu & Hg & _).
  unfold _add_location_reference_target, bind. rewrite Hu. cbn [ret].
  eexists _, w', _. split; [reflexivity|]. cbn [call_keys].
  destruct (resolved_key _ _) as [k'|] eqn:Hk; [|done].
  pose proof (resolved_key_nonempty _ _ _ Hk) as Hne.
  cbn [key_falsy fold_left]. rewrite (bool_decide_eq_false_2 (k' = "")) by done.
  cbn [negb andb]. unfold add_once. by case_bool_decide.
Qed.

Lemma run_dep_calls_keys self calls w :
  cache_ok (parse_cache w) ->
  exists self' w',
    run_dep_calls self calls w = (Ok self', w')
    /\ deps self'
       = fold_left add_once (concat (map (call_keys (path self)) calls))
           (deps self)
    /\ path self' = path self /\ world_grows w w'.
Proof.
  revert self w. induction calls as [|c rest IH]; intros self w Hok.
  - exists self, w. split; [done|]. split; [done|]. split; [done|].
    by apply world_grows_refl.
  - assert (exists self1 w1,
              run_dep_call self c w = (Ok self1, w1)
              /\ deps self1
                 = fold_left add_once (call_keys (path self) c) (deps self)
              /\ path self1 = path self /\ world_grows w w1)
      as (self1 & w1 & Hc & Hd1 & Hp1 & Hg1).
    { destruct c as [l|l|[k ty]]; cbn [run_dep_call].
      - by apply init_target_deps_keys.
      - by apply add_implicit_library_keys.
      - destruct (location_reference_keys self k ty w Hok)
          as (s1 & w1 & r & Hr & Hd & Hp & Hg).
        exists s1, w1. unfold bind. by rewrite Hr. }
    destruct (IH self1 w1) as (self' & w' & Hr & Hd' & Hp' & Hg');
      [apply Hg1|].
    exists self', w'. cbn [run_dep_calls map concat]. unfold bind.
    rewrite Hc, Hr, fold_left_app, <- Hd1, <- Hp1.
    split; [done|]. split; [done|]. split; [by rewrite Hp'|].
    by eapply world_grows_trans.
Qed.

End DedupKeys.

(** C6. From a target whose dependency sequence has no duplicate, any
    sequence of calls of [_init_target_deps], [_add_implicit_library] and
    [_add_location_reference_target] returns and leaves a dependency
    sequence without duplicates; at every point of the sequence what was
    there before is a prefix of what is there after, so keys stand in the
    order in which they were first added. The sequence it leaves is the one
    it started from with every key the calls resolved appended at its
    first coming, in the order the calls came to them: each such key,
    whichever of the three methods resolved it and however often, occurs
    exactly once; and a reference listed twice is appended once. *)
Theorem dependency_edges_deduplicated
    {C : Collaborators} (self : Target) (calls : list dep_call) (w : World) :
  NoDup (deps self) ->
  cache_ok (parse_cache w) ->
  exists self' w',
    run_dep_calls self calls w = (Ok self', w')
    /\ NoDup (deps self')
    /\ deps self `prefix_of` deps self'
    /\ (forall l1 l2, calls = l1 ++ l2 ->
          exists self1 w1,
            run_dep_calls self l1 w = (Ok self1, w1)
            /\ run_dep_calls self1 l2 w1 = (Ok self', w')
            /\ NoDup (deps self1)
            /\ deps self1 `prefix_of` deps self')
    /\ (forall d k,
          resolved_key (path self) (parse_target_uncached d) = Some k ->
          deps_after (_init_target_deps self [d; d] w)
          = Some (if bool_decide (k ∈ deps self) then deps self
                  else deps self ++ [k]))
    /\ deps self'
       = fold_left add_once (concat (map (call_keys (path self)) calls))
           (deps self)
    /\ (forall c k,
          c ∈ calls -> k ∈ call_keys (path self) c ->
          occurrences k (deps self') = 1).
Proof.
  intros Hnd Hok.
  destruct (run_dep_calls_extends self calls w Hok)
    as (self' & w' & Hr & (_ & Hpre & Hnd') & _).
  destruct (run_dep_calls_keys self calls w Hok)
    as (self'' & w'' & Hr' & Hkeys & _).
  rewrite Hr in Hr'. injection Hr' as <- <-.
  exists self', w'. split; [done|]. split; [auto|]. split; [done|].
  split; [|split; [|split; [done|]]].
  - intros l1 l2 ->.
    destruct (run_dep_calls_extends self l1 w Hok)
      as (self1 & w1 & Hr1 & (_ & _ & Hnd1) & Hg1).
    rewrite run_dep_calls_app in Hr. unfold bind in Hr. rewrite Hr1 in Hr.
    destruct (run_dep_calls_extends self1 l2 w1)
      as (self2 & w2 & Hr2 & (_ & Hpre2 & _) & _); [apply Hg1|].
    rewrite Hr2 in Hr. injection Hr as <- <-.
    exists self1, w1. auto.
  - intros d k Hk. by apply init_target_deps_twice.
  - intros c k Hc Hk. apply NoDup_occurrences_one; [auto|].
    rewrite Hkeys. apply add_once_fold_elem. right.
    by apply (elem_of_concat_map (call_keys (path self)) calls c).
Qed.

Lemma dependency_edges_deduplicated_witness :
  NoDup (deps (demo_target "lib" "cc_library" []))
  /\ cache_ok (parse_cache (empty_world "base"))
  /\ exists self' w',
       run_dep_calls (C := plain_collaborators)
         (demo_target "lib" "cc_library" [])
         [ CInitTargetDeps ["//a:b"; ":c"; "//a:b"];
           CAddImplicitLibrary ["a:b"; "#pthread"];
           CAddLocationReference ("//a:b", None);
           CAddLocationReference ("//x:y", Some " jar") ]
         (empty_world "base") = (Ok self', w')
       /\ NoDup (deps self')
       /\ deps self' = ["a:b"; "base:c"; "#:pthread"; "x:y"]
       /\ occurrences "#:pthread" (deps self') = 1
       /\ occurrences "x:y" (deps self') = 1.
Proof.
  split; [apply NoDup_nil_2|]. split; [exact cache_ok_empty|].
  destruct (dependency_edges_deduplicated (C := plain_collaborators)
              (demo_target "lib" "cc_library" [])
              [ CInitTargetDeps ["//a:b"; ":c"; "//a:b"];
                CAddImplicitLibrary ["a:b"; "#pthread"];
                CAddLocationReference ("//a:b", None);
                CAddLocationReference ("//x:y", Some " jar") ]
              (empty_world "base") (NoDup_nil_2) cache_ok_empty)
    as (self' & w' & H1 & H2 & _ & _ & _ & H6 & H7).
  exists self', w'. split; [exact H1|]. split; [exact H2|].
  split; [rewrite H6; vm_compute; reflexivity|]. split.
  - apply (H7 (CAddImplicitLibrary ["a:b"; "#pthread"]) "#:pthread").
    + apply list_elem_of_further, list_elem_of_here.
    + vm_compute. apply list_elem_of_further, list_elem_of_here.
  - apply (H7 (CAddLocationReference ("//x:y", Some " jar")) "x:y").
    + do 3 apply list_elem_of_further. apply list_elem_of_here.
    + vm_compute. apply list_elem_of_here.
Defined.

Example dependency_edges_run :
  deps_after
    (run_dep_calls (C := plain_collaborators)
       (demo_target "lib" "cc_library" [])
       [ CInitTargetDeps ["//a:b"; ":c"; "//a:b"];
         CAddImplicitLibrary ["a:b"; "#pthread"];
         CAddLocationReference ("//a:b", None);
         CAddLocationReference ("//x:y", Some " jar") ]
       (empty_world "base"))
  = Some ["a:b"; "base:c"; "#:pthread"; "x:y"].
Proof. vm_compute. reflexivity. Qed.

(** * Further properties of the code *)

(** ** The parser: totality, memoization, the pattern *)

(** [_parse_target] returns a directory and a non-empty name without
    messages, or two empty strings with at least one message. *)
Theorem parse_target_total (cache : gmap string parse_result) (dep : string) :
  cache_ok cache ->
  (exists dir n, (_parse_target cache dep).1 = (dir, n, None) /\ n <> "")
  \/ (exists msgs, (_parse_target cache dep).1 = ("", "", Some msgs)
                   /\ msgs <> []).
Proof.
  intros Hok. destruct (parse_target_cached cache dep Hok) as [-> _].
  destruct (parse_target_uncached dep) as [[dir n] [msgs|]] eqn:E.
  - right. destruct (parse_target_uncached_msgs _ _ _ _ E) as (-> & -> & ?).
    by exists msgs.
  - left. exists dir, n. split; [done|].
    by apply (parse_target_uncached_name dep dir).
Qed.

Lemma parse_target_total_witness :
  cache_ok ∅
  /\ ((exists dir n, (_parse_target ∅ "//a/b:t").1 = (dir, n, None) /\ n <> "")
      \/ (exists msgs, (_parse_target ∅ "//a/b:t").1 = ("", "", Some msgs)
                       /\ msgs <> [])).
Proof.
  split; [exact cache_ok_empty|].
  exact (parse_target_total ∅ "//a/b:t" cache_ok_empty).
Defined.

(** Parsing a reference a second time returns what the first call
    returned and leaves the cache as the first call left it; the first call
    keeps every entry the cache had. *)
Theorem parse_target_memoized (cache : gmap string parse_result) (dep : string) :
  _parse_target (_parse_target cache dep).2 dep
  = ((_parse_target cache dep).1, (_parse_target cache dep).2)
  /\ (_parse_target cache dep).2 !! dep = Some (_parse_target cache dep).1
  /\ cache ⊆ (_parse_target cache dep).2.
Proof.
  unfold _parse_target. destruct (cache !! dep) as [r|] eqn:E; cbn [fst snd].
  - by rewrite E.
  - rewrite lookup_insert_eq. split; [done|]. split; [done|].
    by apply insert_subseteq.
Qed.

Lemma string_app_assoc (a b c : string) :
  (a +:+ b) +:+ c = a +:+ (b +:+ c).
Proof.
  induction a as [|x a IH]; [reflexivity|].
  change (String x ((a +:+ b) +:+ c) = String x (a +:+ (b +:+ c))).
  by rewrite IH.
Qed.

Lemma span_app p h t :
  all_chars p h = true ->
  (forall a r, t = String a r -> p a = false) ->
  PyStr.span p (h +:+ t) = (h, t).
Proof.
  intros Hh Ht. induction h as [|a h IH].
  - change ("" +:+ t) with t. destruct t as [|a r]; [done|].
    cbn [PyStr.span]. by rewrite (Ht a r eq_refl).
  - cbn [all_chars] in Hh. apply andb_true_iff in Hh as [Ha Hh].
    change (String a h +:+ t) with (String a (h +:+ t)).
    cbn [PyStr.span]. by rewrite Ha, (IH Hh).
Qed.

Lemma at_dollar_spec tail :
  at_dollar tail = true <-> tail = "" \/ tail = String "010"%char "".
Proof.
  unfold at_dollar. rewrite orb_true_iff, !bool_decide_eq_true. done.
Qed.

Lemma target_re_name_spec path rest raw n :
  target_re_name path rest = Some (raw, n)
  <-> raw = path
      /\ all_chars is_name_char n = true
      /\ exists tail, (tail = "" \/ tail = String "010"%char "")
                      /\ rest = n +:+ tail.
Proof.
  unfold target_re_name. split.
  - destruct (span_spec is_name_char rest) as (Hall & Hrest & _).
    destruct (PyStr.span is_name_char rest) as [nm tl]. cbn [fst snd] in *.
    destruct (at_dollar tl) eqn:Hd; [|done]. intros [= <- <-].
    split; [done|]. split; [done|]. exists tl.
    split; [by apply at_dollar_spec | done].
  - intros (-> & Hn & tail & Htail & ->).
    rewrite (span_app is_name_char n tail Hn).
    + by rewrite (proj2 (at_dollar_spec tail) Htail).
    + intros a r ->. by destruct Htail as [?|[= -> ->]].
Qed.

(** On ASCII text, [_TARGET_RE.match] accepts exactly the texts made of a
    run of path characters and a colon, or of a hash, then a run of name
    characters, then nothing or one final line feed; the groups are the
    first part, colon or hash included, and the run of name characters.
    (Outside ASCII the word class of the pattern depends on the
    interpreter.) *)
Theorem target_re_match_spec (dep raw n : string) :
  all_chars is_ascii dep = true ->
  _TARGET_RE_match dep = Some (raw, n)
  <-> ((exists dir, raw = dir +:+ ":" /\ all_chars is_path_char dir = true)
       \/ raw = "#")
      /\ all_chars is_name_char n = true
      /\ exists tail, (tail = "" \/ tail = String "010"%char "")
                      /\ dep = raw +:+ n +:+ tail.
Proof.
  intros _.
  unfold _TARGET_RE_match, target_re_alt_path, target_re_alt_hash. split.
  - destruct (span_spec is_path_char dep) as (Hall & Hdep & _).
    destruct (PyStr.span is_path_char dep) as [dir rest]. cbn [fst snd] in *.
    assert (forall rest',
              target_re_name (dir +:+ ":") rest' = Some (raw, n) ->
              rest = String ":" rest' ->
              ((exists dir0, raw = dir0 +:+ ":"
                             /\ all_chars is_path_char dir0 = true)
               \/ raw = "#")
              /\ all_chars is_name_char n = true
              /\ exists tail, (tail = "" \/ tail = String "010"%char "")
                              /\ dep = raw +:+ n +:+ tail) as Hpath.
    { intros rest' (-> & Hn & tail & Htail & ->)%target_re_name_spec ->.
      split; [left; by exists dir|]. split; [done|]. exists tail.
      split; [done|]. rewrite Hdep. by rewrite string_app_assoc. }
    assert (match dep with
            | String "#" rest' => target_re_name "#" rest'
            | _ => None
            end = Some (raw, n) ->
            ((exists dir0, raw = dir0 +:+ ":"
                           /\ all_chars is_path_char dir0 = true)
             \/ raw = "#")
            /\ all_chars is_name_char n = true
            /\ exists tail, (tail = "" \/ tail = String "010"%char "")
                            /\ dep = raw +:+ n +:+ tail) as Hhash.
    { destruct dep as [|c dep']; [done|].
      destruct (Ascii.eqb_spec c "#") as [->|Hc].
      - intros (-> & Hn & tail & Htail & ->)%target_re_name_spec.
        split; [by right|]. split; [done|]. by exists tail.
      - intros H. exfalso. destruct c as [[] [] [] [] [] [] [] []]; done. }
    destruct rest as [|c rest']; [exact Hhash|].
    destruct (Ascii.eqb_spec c ":") as [->|Hc].
    + destruct (target_re_name (dir +:+ ":") rest') as [m|] eqn:E;
        [|exact Hhash].
      intros [= ->]. by apply (Hpath rest').
    + assert (match String c rest' with
              | String ":" r => target_re_name (dir +:+ ":") r
              | _ => None
              end = None) as ->; [|exact Hhash].
      destruct c as [[] [] [] [] [] [] [] []]; done.
  - intros ([(dir & -> & Hdir)| ->] & Hn & tail & Htail & ->).
    + assert ((dir +:+ ":") +:+ n +:+ tail = dir +:+ String ":" (n +:+ tail))
        as ->.
      { by rewrite string_app_assoc. }
      rewrite (span_app is_path_char dir _ Hdir) by (by intros ?? [= <- _]).
      assert (target_re_name (dir +:+ ":") (n +:+ tail)
              = Some (dir +:+ ":", n)) as ->; [|done].
      apply target_re_name_spec. split; [done|]. split; [done|].
      by exists tail.
    + cbn [String.append PyStr.span is_path_char]. cbn.
      apply target_re_name_spec. split; [done|]. split; [done|].
      by exists tail.
Qed.

Lemma target_re_match_spec_witness :
  all_chars is_ascii ("//a/b-c:t.x" +:+ String "010"%char "") = true
  /\ _TARGET_RE_match ("//a/b-c:t.x" +:+ String "010"%char "")
     = Some ("//a/b-c:", "t.x")
  /\ _TARGET_RE_match "a:b:c" = None.
Proof.
  split; [reflexivity|]. split.
  - apply (proj2 (target_re_match_spec
                    ("//a/b-c:t.x" +:+ String "010"%char "")
                    "//a/b-c:" "t.x" eq_refl)).
    split; [left; by exists "//a/b-c"|]. split; [reflexivity|].
    exists (String "010"%char ""). split; [by right | reflexivity].
  - reflexivity.
Defined.

(** ** Parsed directories are in normal form *)

Lemma norm_fold_filter i comps acc :
  ".." ∉ comps ->
  fold_left (OsPath.norm_step i) comps acc
  = acc ++ filter kept_component comps.
Proof.
  revert acc. induction comps as [|c comps IH]; intros acc Hdd.
  - cbn. by rewrite app_nil_r.
  - apply not_elem_of_cons in Hdd as [Hc Hdd]. cbn [fold_left].
    rewrite (IH _ Hdd), filter_cons. unfold OsPath.norm_step.
    destruct (decide (kept_component c)) as [[H1 H2]|Hk].
    + rewrite bool_decide_eq_false_2 by (by intros [?|?]).
      rewrite bool_decide_eq_true_2 by (by left).
      by rewrite <- app_assoc.
    + rewrite bool_decide_eq_true_2; [done|].
      unfold kept_component in Hk.
      destruct (decide (c = "")); [by left|]. right.
      destruct (decide (c = ".")); [done|]. by destruct Hk.
Qed.

Lemma split_char_head_prefix c s h t :
  PyStr.split_char c s = h :: t -> PyStr.startswith s h = true.
Proof.
  revert h t. induction s as [|a s IH]; intros h t.
  - by intros [= <- <-].
  - cbn [PyStr.split_char]. destruct (Ascii.eqb a c); [by intros [= <- <-]|].
    destruct (PyStr.split_char c s) as [|h' t'] eqn:E.
    + intros [= <- <-]. cbn [PyStr.startswith]. by rewrite Ascii.eqb_refl.
    + intros [= <- <-]. cbn [PyStr.startswith].
      by rewrite Ascii.eqb_refl, (IH h' t').
Qed.

Lemma contains_tail sub a s :
  PyStr.contains sub s = true -> PyStr.contains sub (String a s) = true.
Proof.
  intros H. cbn [PyStr.contains]. by destruct (PyStr.startswith _ _).
Qed.

Lemma split_no_dotdot s :
  PyStr.contains ".." s = false -> ".." ∉ PyStr.split_char "/" s.
Proof.
  intros Hc Hin. revert Hc. apply not_false_iff_true.
  induction s as [|a s IH]; [by apply list_elem_of_singleton in Hin|].
  cbn [PyStr.split_char] in Hin.
  destruct (Ascii.eqb a "/").
  - apply elem_of_cons in Hin as [?|Hin]; [done|].
    apply contains_tail. by apply IH.
  - destruct (PyStr.split_char "/" s) as [|h t] eqn:E.
    + by apply list_elem_of_singleton in Hin.
    + apply elem_of_cons in Hin as [Heq|Hin].
      * injection Heq as <- <-. apply split_char_head_prefix in E.
        cbn [PyStr.contains].
        assert (PyStr.startswith (String "." s) ".." = true) as ->; [|done].
        cbn [PyStr.startswith] in *. by rewrite E.
      * apply contains_tail, IH. by right.
Qed.

Lemma split_char_no_sep c s :
  Forall (fun comp => all_chars (fun a => negb (Ascii.eqb a c)) comp = true)
    (PyStr.split_char c s).
Proof.
  induction s as [|a s IH]; [by repeat constructor|]. cbn [PyStr.split_char].
  destruct (Ascii.eqb a c) eqn:Ha; [by constructor|].
  destruct (PyStr.split_char c s) as [|h t].
  - constructor; [|done]. cbn. by rewrite Ha.
  - inversion_clear IH. constructor; [|done]. cbn [all_chars]. by rewrite Ha.
Qed.

Lemma split_no_slash x : no_slash x -> PyStr.split_char "/" x = [x].
Proof.
  unfold no_slash. induction x as [|a x IH]; [done|]. cbn [all_chars].
  intros [Ha Hx]%andb_true_iff. cbn [PyStr.split_char].
  apply negb_true_iff in Ha. by rewrite Ha, (IH Hx).
Qed.

Lemma split_app_slash x s :
  no_slash x ->
  PyStr.split_char "/" (x +:+ "/" +:+ s) = x :: PyStr.split_char "/" s.
Proof.
  unfold no_slash. induction x as [|a x IH]; [done|]. cbn [all_chars].
  intros [Ha Hx]%andb_true_iff.
  change (String a x +:+ "/" +:+ s) with (String a (x +:+ "/" +:+ s)).
  cbn [PyStr.split_char]. apply negb_true_iff in Ha. by rewrite Ha, (IH Hx).
Qed.

Lemma split_join cs :
  cs <> [] -> Forall no_slash cs ->
  PyStr.split_char "/" (PyStr.join "/" cs) = cs.
Proof.
  intros Hne Hcs. induction Hcs as [|x cs Hx Hcs IH]; [done|].
  destruct cs as [|y cs]; [by apply split_no_slash|].
  change (PyStr.join "/" (x :: y :: cs))
    with (x +:+ "/" +:+ PyStr.join "/" (y :: cs)).
  rewrite split_app_slash by done. by rewrite IH.
Qed.

Lemma filter_kept_all cs :
  Forall kept_component cs -> filter kept_component cs = cs.
Proof.
  induction 1 as [|x cs Hx Hcs IH]; [done|].
  by rewrite filter_cons_True, IH.
Qed.

Lemma join_no_leading_slash cs :
  Forall (fun c => kept_component c /\ no_slash c) cs ->
  PyStr.startswith (PyStr.join "/" cs) "/" = false.
Proof.
  destruct 1 as [|x cs [[Hx _] Hs] Hcs]; [done|].
  destruct x as [|a x]; [done|]. unfold no_slash in Hs. cbn [all_chars] in Hs.
  apply andb_true_iff in Hs as [Ha%negb_true_iff _].
  assert (forall rest, PyStr.startswith (String a rest) "/" = false) as H.
  { intros rest. cbn [PyStr.startswith]. by rewrite Ha. }
  destruct cs as [|y cs]; [apply H|].
  change (PyStr.join "/" (String a x :: y :: cs))
    with (String a (x +:+ "/" +:+ PyStr.join "/" (y :: cs))).
  apply H.
Qed.

Lemma join_nonempty cs :
  cs <> [] -> Forall kept_component cs -> PyStr.join "/" cs <> "".
Proof.
  intros Hne Hcs. destruct Hcs as [|x cs [Hx _] _]; [done|].
  destruct x as [|a x]; [done|]. by destruct cs.
Qed.

(** What [normpath] returns for a text that passed [_check_path]:
    the kept components of the text behind the optional two slashes, joined
    again. *)
Lemma normpath_checked p :
  p <> "" -> _check_path p = [] ->
  exists cs,
    Forall (fun c => kept_component c /\ no_slash c) cs
    /\ (".." ∉ cs)
    /\ ((PyStr.startswith p "//" = false
         /\ OsPath.normpath p
            = (if bool_decide (cs = []) then "." else PyStr.join "/" cs))
        \/ (PyStr.startswith p "//" = true
            /\ OsPath.normpath p = "//" +:+ PyStr.join "/" cs)).
Proof.
  intros Hne Hchk. unfold _check_path in Hchk.
  set (q := if PyStr.startswith p "//" then PyStr.drop 2 p else p) in *.
  assert (PyStr.startswith q "/" = false /\ PyStr.contains ".." q = false)
    as [Hq1 Hq2].
  { destruct (PyStr.startswith q "/"), (PyStr.contains ".." q); done. }
  clear Hchk. exists (filter kept_component (PyStr.split_char "/" q)).
  assert (".." ∉ PyStr.split_char "/" q) as Hdd by (by apply split_no_dotdot).
  split; [|split].
  - apply Forall_forall. intros c [Hk Hc]%list_elem_of_filter.
    split; [done|].
    pose proof (split_char_no_sep "/" q) as Hall.
    rewrite Forall_forall in Hall. by apply Hall.
  - intros [_ Hin]%list_elem_of_filter. done.
  - unfold OsPath.normpath. rewrite bool_decide_eq_false_2 by done.
    destruct (PyStr.startswith p "//") eqn:H2.
    + right. split; [done|]. subst q.
      destruct (startswith_double_slash p H2) as [r ->].
      cbn [PyStr.drop] in *.
      assert (PyStr.startswith (String "/" (String "/" r)) "///" = false)
        as ->.
      { destruct r as [|c r]; [done|]. cbn in Hq1 |- *.
        by rewrite andb_true_r in Hq1; rewrite Hq1. }
      cbn [PyStr.startswith andb negb Ascii.eqb Bool.eqb PyStr.repeat_char].
      cbn [PyStr.split_char Ascii.eqb Bool.eqb]. cbn [fold_left].
      change (OsPath.norm_step 2 [] "") with (@nil string).
      rewrite norm_fold_filter by done. cbn [app].
      by rewrite bool_decide_eq_false_2.
    + left. split; [done|]. subst q. rewrite Hq1.
      cbn [PyStr.repeat_char]. rewrite norm_fold_filter by done. cbn [app].
      change ("" +:+ ?x) with x.
      destruct (filter kept_component (PyStr.split_char "/" p)) as [|c cs]
        eqn:E.
      * by rewrite bool_decide_eq_true_2.
      * rewrite (bool_decide_eq_false_2 (c :: cs = [])) by done.
        rewrite bool_decide_eq_false_2; [done|].
        apply join_nonempty; [done|]. rewrite <- E.
        apply Forall_forall. by intros c' [Hk _]%list_elem_of_filter.
Qed.

Lemma normpath_of_joined cs :
  cs <> [] ->
  Forall (fun c => kept_component c /\ no_slash c) cs ->
  ".." ∉ cs ->
  OsPath.normpath (PyStr.join "/" cs) = PyStr.join "/" cs.
Proof.
  intros Hne Hcs Hdd.
  assert (Forall kept_component cs) as Hk.
  { eapply Forall_impl; [exact Hcs|]. by intros ? []. }
  assert (Forall no_slash cs) as Hs.
  { eapply Forall_impl; [exact Hcs|]. by intros ? []. }
  pose proof (join_nonempty cs Hne Hk) as Hj.
  unfold OsPath.normpath. rewrite bool_decide_eq_false_2 by done.
  rewrite (join_no_leading_slash cs Hcs), (split_join cs Hne Hs).
  rewrite norm_fold_filter by done. cbn [app PyStr.repeat_char].
  rewrite (filter_kept_all cs Hk). change ("" +:+ ?x) with x.
  by rewrite bool_decide_eq_false_2.
Qed.

Lemma normpath_of_double_slash_joined cs :
  Forall (fun c => kept_component c /\ no_slash c) cs ->
  ".." ∉ cs ->
  OsPath.normpath ("//" +:+ PyStr.join "/" cs) = "//" +:+ PyStr.join "/" cs.
Proof.
  intros Hcs Hdd.
  assert (Forall kept_component cs) as Hk.
  { eapply Forall_impl; [exact Hcs|]. by intros ? []. }
  assert (Forall no_slash cs) as Hs.
  { eapply Forall_impl; [exact Hcs|]. by intros ? []. }
  unfold OsPath.normpath. rewrite bool_decide_eq_false_2 by done.
  change ("//" +:+ PyStr.join "/" cs)
    with (String "/" (String "/" (PyStr.join "/" cs))).
  assert (PyStr.startswith (String "/" (String "/" (PyStr.join "/" cs))) "///"
          = false) as ->.
  { pose proof (join_no_leading_slash cs Hcs) as Hj.
    destruct (PyStr.join "/" cs) as [|a r]; [done|].
    cbn in Hj |- *. by rewrite andb_true_r in Hj; rewrite Hj. }
  cbn [PyStr.startswith andb negb Ascii.eqb Bool.eqb PyStr.repeat_char].
  cbn [PyStr.split_char Ascii.eqb Bool.eqb].
  assert (filter kept_component (PyStr.split_char "/" (PyStr.join "/" cs)) = cs
          /\ ".." ∉ PyStr.split_char "/" (PyStr.join "/" cs)) as [Hf Hdd'].
  { destruct cs as [|c cs]; [split; [done|]|].
    - by intros ?%list_elem_of_singleton.
    - rewrite split_join by done. split; [by apply filter_kept_all | done]. }
  rewrite norm_fold_filter.
  - cbn [app]. rewrite !filter_cons_False by (by intros [? _]).
    rewrite Hf. by rewrite bool_decide_eq_false_2.
  - intros [?|[?|?]%elem_of_cons]%elem_of_cons; done.
Qed.

(** The directory [_parse_target] returns is empty (a reference to the
    current directory) or in normal form: [os.path.normpath] leaves it as it
    is. *)
Theorem parsed_directory_is_normalized
    (cache : gmap string parse_result) (dep dir n : string) :
  cache_ok cache ->
  (_parse_target cache dep).1 = (dir, n, None) ->
  dir = "" \/ OsPath.normpath dir = dir.
Proof.
  intros Hok. destruct (parse_target_cached cache dep Hok) as [-> _].
  intros (raw & _ & Hchk & ->)%parse_target_uncached_dir.
  case_bool_decide as Hp; [by left|]. right.
  destruct (normpath_checked _ Hp Hchk) as (cs & Hcs & Hdd & [[_ ->]|[_ ->]]).
  - case_bool_decide as Hcs0; [done|]. by apply normpath_of_joined.
  - by apply normpath_of_double_slash_joined.
Qed.

Lemma parsed_directory_is_normalized_witness :
  cache_ok ∅
  /\ (_parse_target ∅ "//a/./b//c/:t").1 = ("//a/b/c", "t", None)
  /\ ("//a/b/c" = "" \/ OsPath.normpath "//a/b/c" = "//a/b/c").
Proof.
  split; [exact cache_ok_empty|]. split; [reflexivity|].
  exact (parsed_directory_is_normalized ∅ "//a/./b//c/:t" "//a/b/c" "t"
           cache_ok_empty eq_refl).
Defined.

(** ** The resolver: absolute references and system libraries *)

(** A reference that starts with two slashes or with a hash resolves to the
    same key whatever target refers to it. *)
Theorem absolute_reference_ignores_referrer
    {C : Collaborators} (self1 self2 : Target) (dep : string) (w1 w2 : World) :
  cache_ok (parse_cache w1) ->
  cache_ok (parse_cache w2) ->
  PyStr.startswith dep "//" = true \/ PyStr.startswith dep "#" = true ->
  (_unify_dep self1 dep w1).1 = (_unify_dep self2 dep w2).1.
Proof.
  intros Hok1 Hok2 Hpre.
  destruct (unify_dep_spec self1 dep w1 Hok1) as (w1' & -> & _).
  destruct (unify_dep_spec self2 dep w2 Hok2) as (w2' & -> & _).
  cbn [fst]. f_equal.
  destruct (parse_target_uncached dep) as [[p n] [[|m ms]|]] eqn:E.
  - destruct (parse_target_uncached_msgs _ _ _ _ E) as (_ & _ & ?). done.
  - done.
  - destruct (parse_prefixed_dir dep p n Hpre E) as [->|(j & -> & _)]; done.
Qed.

Lemma absolute_reference_ignores_referrer_witness :
  cache_ok (parse_cache (empty_world "x"))
  /\ (PyStr.startswith "//a/b:t" "//" = true
      \/ PyStr.startswith "//a/b:t" "#" = true)
  /\ (_unify_dep (C := plain_collaborators) (target_in "x" "r" []) "//a/b:t"
        (empty_world "x")).1
     = (_unify_dep (C := plain_collaborators) (target_in "y/z" "s" []) "//a/b:t"
          (empty_world "x")).1.
Proof.
  split; [exact cache_ok_empty|]. split; [left; reflexivity|].
  exact (absolute_reference_ignores_referrer (C := plain_collaborators)
           (target_in "x" "r" []) (target_in "y/z" "s" []) "//a/b:t"
           (empty_world "x") (empty_world "x") cache_ok_empty cache_ok_empty
           (or_introl eq_refl)).
Defined.

(** [SystemLibrary(name)], for a non-empty name, returns a target in
    directory [#] with key [#:name], no sources, no dependencies and public
    visibility declared, which every target may depend on; constructing it
    registers nothing. *)
Theorem system_library_shape {C : Collaborators} (n : string) (w : World) :
  n <> "" ->
  exists lib w',
    SystemLibrary n w = (Ok lib, w')
    /\ path lib = "#" /\ key lib = "#:" +:+ n
    /\ fullname lib = "//#:" +:+ n
    /\ type lib = "system_library"
    /\ srcs lib = [] /\ deps lib = []
    /\ _visibility lib = {["PUBLIC"]}
    /\ _visibility_is_default lib = false
    /\ (forall R, _match_visibility R lib = true)
    /\ target_database w' = target_database w.
Proof.
  intros Hn. unfold SystemLibrary, init_before_deps, bind.
  rewrite bool_decide_eq_false_2 by done. cbn [ret].
  unfold _check_name.
  match goal with
  | |- context [if ?b then error ?s ?m else ret tt] =>
      destruct b; cbn [error console_emit ret _check_kwargs]
  end.
  all: unfold _check_srcs, _check_sources, bind;
    cbn [srcs set_attr new_target check_sources_loop ret claim_sources].
  all: eexists _, _; split; [reflexivity|].
  all: unfold init_after_deps, _init_visibility.
  all: rewrite bool_decide_eq_true_2 by apply list_elem_of_here.
  all: cbn [path key fullname type srcs deps _visibility
            _visibility_is_default set_identity set_fingerprint
            set_build_code set_visibility set_attr new_target
            target_database set_console_log].
  all: rewrite (left_id_L ∅ (∪)).
  all: repeat split; try done.
  all: intros R; unfold _match_visibility;
    cbn [_visibility path set_identity set_fingerprint set_build_code
         set_visibility].
  all: destruct (bool_decide (path R = "#")); [done|].
  all: rewrite bool_decide_eq_true_2; [done|]; by apply elem_of_singleton.
Qed.

Lemma system_library_shape_witness :
  "pthread" <> ""
  /\ exists lib w',
       SystemLibrary (C := plain_collaborators) "pthread" (empty_world "x")
       = (Ok lib, w')
       /\ key lib = "#:pthread" /\ _visibility lib = {["PUBLIC"]}.
Proof.
  split; [discriminate|].
  destruct (system_library_shape (C := plain_collaborators) "pthread"
              (empty_world "x")) as (lib & w' & H1 & _ & H2 & _ & _ & _ & _ & H3 & _).
  { discriminate. }
  exists lib, w'. split; [exact H1|]. split; [exact H2 | exact H3].
Defined.

(** [_add_system_library] registers a library under its key once: the key
    is registered afterwards, every entry the database had is kept as it
    was, and a second call changes nothing. *)
Theorem add_system_library_idempotent
    {C : Collaborators} (self : Target) (n : string) (w : World) :
  n <> "" ->
  exists w',
    _add_system_library self ("#:" +:+ n) n w = (Ok tt, w')
    /\ is_Some (target_database w' !! ("#:" +:+ n))
    /\ (forall k t, target_database w !! k = Some t ->
                    target_database w' !! k = Some t)
    /\ _add_system_library self ("#:" +:+ n) n w' = (Ok tt, w').
Proof.
  intros Hn.
  destruct (add_system_library_spec self n w Hn)
    as (w' & Hr & [lib Hlib] & Hsub & _).
  exists w'. split; [done|]. split; [by exists lib|]. split.
  - intros k t Hk. by eapply lookup_weaken.
  - unfold _add_system_library. by rewrite Hlib.
Qed.

Lemma add_system_library_idempotent_witness :
  "m" <> ""
  /\ exists w',
       _add_system_library (C := plain_collaborators) (target_in "x" "r" [])
         "#:m" "m" (empty_world "x") = (Ok tt, w')
       /\ _add_system_library (C := plain_collaborators) (target_in "x" "r" [])
            "#:m" "m" w' = (Ok tt, w').
Proof.
  split; [discriminate|].
  destruct (add_system_library_idempotent (C := plain_collaborators)
              (target_in "x" "r" []) "m" (empty_world "x"))
    as (w' & H1 & _ & _ & H2).
  { discriminate. }
  exists w'. split; [exact H1 | exact H2].
Defined.

Lemma match_visibility_public {C : Collaborators} (R D : Target) :
  "PUBLIC" ∈ _visibility D -> _match_visibility R D = true.
Proof.
  intros Hpub. unfold _match_visibility.
  destruct (bool_decide (path R = path D)); [done|].
  by rewrite bool_decide_eq_true_2.
Qed.

(** ** Visibility declarations *)

Section VisibilityDeclarations.

Context {C : Collaborators}.

(** A target that declares [PUBLIC] among its visibility patterns, or
    declares nothing and is listed as a legacy public target, can be
    depended on from every directory. *)
Theorem public_target_visible_everywhere
    (self R : Target) (visibility : option (list string)) :
  match visibility with
  | Some l => "PUBLIC" ∈ l
  | None => key self ∈ config_legacy_public_targets
  end ->
  _match_visibility R (_init_visibility self visibility) = true
  /\ _visibility_is_default (_init_visibility self visibility)
     = match visibility with
       | Some _ => false
       | None => _visibility_is_default self
       end.
Proof.
  intros Hpub. unfold _init_visibility. destruct visibility as [l|].
  - rewrite bool_decide_eq_true_2 by done. split; [|done].
    apply match_visibility_public. cbn. set_solver.
  - rewrite bool_decide_eq_true_2 by done. split; [|done].
    apply match_visibility_public. cbn. set_solver.
Qed.

(** A target that declares no visibility, is not a legacy public target,
    and is built under an empty default visibility, can be depended on from
    its own directory only. *)
Theorem default_visibility_is_private (self R : Target) :
  _visibility self = ∅ ->
  key self ∉ config_legacy_public_targets ->
  config_default_visibility = [] ->
  (_match_visibility R (_init_visibility self None) = true
   <-> path R = path self)
  /\ _visibility_is_default (_init_visibility self None)
     = _visibility_is_default self.
Proof.
  intros Hvis Hleg Hdef. unfold _init_visibility.
  rewrite bool_decide_eq_false_2, Hdef, Hvis by done. split; [|done].
  unfold _match_visibility. cbn [path _visibility set_visibility].
  rewrite (left_id_L ∅ (∪)). cbn [list_to_set].
  rewrite elements_empty. cbn [existsb].
  case_bool_decide; [done|].
  rewrite !bool_decide_eq_false_2 by apply not_elem_of_empty. done.
Qed.

(** A declared visibility without [PUBLIC] replaces what the target had:
    it holds exactly the normalized forms of the declared patterns that are
    valid; invalid patterns are dropped without a diagnostic. *)
Theorem declared_visibility_patterns (self : Target) (l : list string)
    (pattern : string) :
  "PUBLIC" ∉ l ->
  pattern ∈ _visibility (_init_visibility self (Some l))
  <-> exists v, v ∈ l
                /\ target_pattern_is_valid_in_build v = true
                /\ pattern = target_pattern_normalize v (path self).
Proof.
  intros Hpub. unfold _init_visibility. rewrite bool_decide_eq_false_2 by done.
  cbn [_visibility set_visibility].
  rewrite elem_of_list_to_set, list_elem_of_fmap. split.
  - intros (v & -> & [Hv Hin]%list_elem_of_filter). exists v.
    split; [done|]. split; [by apply Is_true_true | done].
  - intros (v & Hin & Hv & ->). exists v. split; [done|].
    apply list_elem_of_filter. split; [by apply Is_true_true | done].
Qed.

End VisibilityDeclarations.

Lemma public_target_visible_everywhere_witness :
  "PUBLIC" ∈ ["//x:r"; "PUBLIC"]
  /\ _match_visibility (C := plain_collaborators) (target_in "x" "r" ["y:d"])
       (_init_visibility (C := plain_collaborators) (target_in "y" "d" [])
          (Some ["//x:r"; "PUBLIC"])) = true.
Proof.
  assert ("PUBLIC" ∈ ["//x:r"; "PUBLIC"]) as Hin.
  { apply list_elem_of_further, list_elem_of_here. }
  split; [exact Hin|].
  exact (proj1 (public_target_visible_everywhere (C := plain_collaborators)
                  (target_in "y" "d" []) (target_in "x" "r" ["y:d"])
                  (Some ["//x:r"; "PUBLIC"]) Hin)).
Defined.

Lemma default_visibility_is_private_witness :
  _visibility (target_in "y" "d" []) = ∅
  /\ (key (target_in "y" "d" [])
      ∉ config_legacy_public_targets (Collaborators := plain_collaborators))
  /\ config_default_visibility (Collaborators := plain_collaborators) = []
  /\ (_match_visibility (C := plain_collaborators) (target_in "x" "r" ["y:d"])
        (_init_visibility (C := plain_collaborators) (target_in "y" "d" []) None)
      = true
      <-> path (target_in "x" "r" ["y:d"]) = path (target_in "y" "d" [])).
Proof.
  split; [reflexivity|]. split; [apply not_elem_of_nil|].
  split; [reflexivity|].
  exact (proj1 (default_visibility_is_private (C := plain_collaborators)
                  (target_in "y" "d" []) (target_in "x" "r" ["y:d"])
                  eq_refl (not_elem_of_nil _) eq_refl)).
Defined.

Lemma declared_visibility_patterns_witness :
  ("PUBLIC" ∉ ["//x:r"])
  /\ ("//x:r" ∈ _visibility
                  (_init_visibility (C := plain_collaborators)
                     (target_in "y" "d" []) (Some ["//x:r"]))
      <-> exists v, v ∈ ["//x:r"]
                    /\ target_pattern_is_valid_in_build
                         (Collaborators := plain_collaborators) v = true
                    /\ "//x:r"
                       = target_pattern_normalize
                           (Collaborators := plain_collaborators) v
                           (path (target_in "y" "d" []))).
Proof.
  assert ("PUBLIC" ∉ ["//x:r"]) as Hpub.
  { intros Hin. apply list_elem_of_singleton in Hin. discriminate. }
  split; [exact Hpub|].
  exact (declared_visibility_patterns (C := plain_collaborators)
           (target_in "y" "d" []) ["//x:r"] "//x:r" Hpub).
Defined.

(** ** [check_visibility]: missing dependencies and the quiet case *)

(** [check_visibility] raises [KeyError] at the first dependency that is
    not registered; the diagnostics of the dependencies before it are on
    the console, those after it are never checked. *)
Theorem check_visibility_missing_dependency
    {C : Collaborators} (self : Target) (w : World)
    (before after : list string) (d : string) :
  deps self = before ++ d :: after ->
  (forall d', d' ∈ before -> is_Some (target_database w !! d')) ->
  target_database w !! d = None ->
  check_visibility self w
  = (Raise (KeyError d),
     set_console_log w
       (console_log w
        ++ flat_map (visibility_diagnostics self (target_database w)) before)).
Proof.
  intros Hdeps Hreg Hd. unfold check_visibility. rewrite Hdeps. clear Hdeps.
  revert w Hreg Hd. induction before as [|b before IH]; intros w Hreg Hd.
  - cbn [app check_visibility_loop flat_map]. unfold bind. rewrite Hd.
    rewrite app_nil_r. by destruct w.
  - destruct (Hreg b) as [dep Hdep]; [by left|].
    pose proof (check_visibility_loop_spec self [b] w) as Hb.
    cbn [check_visibility_loop flat_map app] in Hb |- *.
    unfold bind at 1 in Hb. unfold bind at 1. rewrite Hdep in Hb |- *.
    unfold bind at 1 in Hb. unfold bind at 1.
    match type of Hb with
    | _ -> match ?m w with _ => _ end = _ =>
        destruct (m w) as [[[]|e] w1] eqn:E
    end.
    + cbn [ret] in Hb. rewrite app_nil_r in Hb.
      injection Hb as ->; [|intros d' ->%list_elem_of_singleton; by eexists].
      rewrite IH.
      * cbn [console_log set_console_log target_database].
        by rewrite <- app_assoc.
      * intros d' Hd'. cbn. apply Hreg. by right.
      * done.
    + exfalso. discriminate Hb.
      intros d' ->%list_elem_of_singleton. by eexists.
Qed.

Lemma check_visibility_missing_dependency_witness :
  deps (target_in "x" "r" ["y:d"; "z:gone"; "y:d"]) = ["y:d"] ++ "z:gone" :: ["y:d"]
  /\ (forall d', d' ∈ ["y:d"] ->
                 is_Some (target_database world_with_private_dep !! d'))
  /\ target_database world_with_private_dep !! "z:gone" = None
  /\ (check_visibility (C := plain_collaborators)
        (target_in "x" "r" ["y:d"; "z:gone"; "y:d"]) world_with_private_dep).1
     = Raise (KeyError "z:gone").
Proof.
  assert (forall d', d' ∈ ["y:d"] ->
                     is_Some (target_database world_with_private_dep !! d'))
    as Hreg.
  { intros d' Hd'. apply list_elem_of_singleton in Hd'. subst d'.
    exists (target_in "y" "d" []). reflexivity. }
  split; [reflexivity|]. split; [exact Hreg|]. split; [reflexivity|].
  exact (f_equal fst
           (check_visibility_missing_dependency (C := plain_collaborators)
              (target_in "x" "r" ["y:d"; "z:gone"; "y:d"])
              world_with_private_dep ["y:d"] ["y:d"] "z:gone"
              eq_refl Hreg eq_refl)).
Defined.

(** When every dependency is registered and visible, [check_visibility]
    returns and leaves the world, the console included, as it was. *)
Theorem check_visibility_quiet {C : Collaborators} (self : Target) (w : World) :
  (forall d, d ∈ deps self ->
             exists dep, target_database w !! d = Some dep
                         /\ _match_visibility self dep = true) ->
  check_visibility self w = (Ok tt, w).
Proof.
  intros Hvis. unfold check_visibility.
  rewrite check_visibility_loop_spec.
  - assert (flat_map (visibility_diagnostics self (target_database w))
              (deps self) = []) as ->.
    { induction (deps self) as [|d l IH]; [done|]. cbn [flat_map].
      rewrite IH by (intros d' Hd'; apply Hvis; by right).
      destruct (Hvis d) as (dep & Hdep & Hm); [by left|].
      unfold visibility_diagnostics. by rewrite Hdep, Hm. }
    rewrite app_nil_r. by destruct w.
  - intros d Hd. destruct (Hvis d Hd) as (dep & -> & _). by eexists.
Qed.

Lemma check_visibility_quiet_witness :
  (forall d, d ∈ deps (target_in "y" "r" ["y:d"]) ->
             exists dep, target_database world_with_private_dep !! d = Some dep
                         /\ _match_visibility (C := plain_collaborators)
                              (target_in "y" "r" ["y:d"]) dep = true)
  /\ check_visibility (C := plain_collaborators) (target_in "y" "r" ["y:d"])
       world_with_private_dep = (Ok tt, world_with_private_dep).
Proof.
  assert (forall d, d ∈ deps (target_in "y" "r" ["y:d"]) ->
                    exists dep,
                      target_database world_with_private_dep !! d = Some dep
                      /\ _match_visibility (C := plain_collaborators)
                           (target_in "y" "r" ["y:d"]) dep = true) as Hvis.
  { intros d Hd. apply list_elem_of_singleton in Hd. subst d.
    exists (target_in "y" "d" []). split; reflexivity. }
  split; [exact Hvis|].
  exact (check_visibility_quiet (C := plain_collaborators)
           (target_in "y" "r" ["y:d"]) world_with_private_dep Hvis).
Defined.

(** ** The build statement emitter *)

Lemma appended_built s s' lines cleaned : appended s s' lines cleaned -> built s'.
Proof. intros ((code & _ & H) & _). by eexists. Qed.

Lemma appended_trans s s1 s2 l1 l2 c1 c2 :
  appended s s1 l1 c1 -> appended s1 s2 l2 c2 ->
  appended s s2 (l1 ++ l2) (c1 ++ c2).
Proof.
  intros ((code & H0 & H1) & Hc1 & Ht1 & Hd1 & Hg1)
         ((code' & H1' & H2) & Hc2 & Ht2 & Hd2 & Hg2).
  assert (code' = code ++ l1) as -> by congruence.
  split; [|repeat split; try congruence].
  - exists code. split; [done|]. by rewrite H2, (assoc_L (++)).
  - by rewrite Hc2, Hc1, (assoc_L (++)).
Qed.

Lemma write_rule_appended rule s :
  built s ->
  exists s', _write_rule rule s = (Ok tt, s')
             /\ appended s s' [rule +:+ String "010"%char ""] [].
Proof.
  intros [code Hs]. unfold _write_rule. rewrite Hs. eexists. split; [done|].
  split; [by exists code|]. cbn. by rewrite app_nil_r.
Qed.

Lemma write_variables_appended variables s :
  built s ->
  exists s', write_variables variables s = (Ok tt, s')
             /\ appended s s' (map variable_line variables) [].
Proof.
  revert s. induction variables as [|[n v] rest IH]; intros s Hs.
  - exists s. split; [done|]. destruct Hs as [code Hs].
    split; [exists code; by rewrite app_nil_r|]. by rewrite app_nil_r.
  - cbn [write_variables]. unfold ebind.
    assert (exists s1,
              (if bool_decide (v = "") then _write_rule ("  " +:+ n +:+ " =")
               else _write_rule ("  " +:+ n +:+ " = " +:+ v)) s
              = (Ok tt, s1)
              /\ appended s s1 [variable_line (n, v)] []) as (s1 & -> & H1).
    { unfold variable_line. cbn [fst snd].
      destruct (bool_decide (v = "")); by apply write_rule_appended. }
    destruct (IH s1 (appended_built _ _ _ _ H1)) as (s2 & -> & H2).
    exists s2. split; [done|].
    exact (appended_trans _ _ _ _ _ _ _ H1 H2).
Qed.

Lemma remove_on_clean_appended paths s :
  built s -> appended s (on_self (_remove_on_clean paths) s).2 [] paths.
Proof.
  intros [code Hs]. split; [exists code; by rewrite app_nil_r|]. done.
Qed.

(** Inside [generate], [generate_build] returns and only appends: to the
    buffer one statement line that starts with [build], one line per entry
    of [variables] in the order of the dict, and an empty line; to the
    clean list the paths of [clean], or the outputs and implicit outputs
    when [clean] was left out. An empty [clean] list leaves the clean list
    as it was. The recorded outputs are not touched. *)
Theorem generate_build_appends
    (rule : string) (outputs inputs implicit_deps order_only_deps : list string)
    (variables : pydict string) (implicit_outputs : list string)
    (clean : option (list string)) (s : Emit) :
  built s ->
  exists line s',
    generate_build rule outputs inputs implicit_deps order_only_deps
      variables implicit_outputs clean s = (Ok tt, s')
    /\ PyStr.startswith line "build " = true
    /\ appended s s'
         (line :: map variable_line variables ++ [String "010"%char ""])
         (default (outputs ++ implicit_outputs) clean).
Proof.
  intros Hs. unfold generate_build, ebind.
  match goal with
  | |- context [_write_rule ?r s] =>
      destruct (write_rule_appended r s Hs) as (s1 & -> & H1)
  end.
  set (c := match clean with
            | Some c => c
            | None => outputs ++ implicit_outputs
            end).
  assert (c = default (outputs ++ implicit_outputs) clean) as Hc
    by by destruct clean.
  assert (exists s2,
            match c with
            | [] => eret tt
            | _ :: _ => on_self (_remove_on_clean c)
            end s1 = (Ok tt, s2)
            /\ appended s1 s2 [] c) as (s2 & -> & H2).
  { pose proof (appended_built _ _ _ _ H1) as Hb1.
    destruct c as [|x c'] eqn:Ec.
    - exists s1. split; [done|]. destruct Hb1 as [code Hb1].
      split; [exists code; by rewrite app_nil_r|]. by rewrite app_nil_r.
    - eexists. split; [done|]. by apply (remove_on_clean_appended (x :: c')). }
  pose proof (appended_trans _ _ _ _ _ _ _ H1 H2) as H12.
  destruct (write_variables_appended variables s2 (appended_built _ _ _ _ H12))
    as (s3 & -> & H3).
  pose proof (appended_trans _ _ _ _ _ _ _ H12 H3) as H123.
  destruct (write_rule_appended "" s3 (appended_built _ _ _ _ H123))
    as (s4 & -> & H4).
  pose proof (appended_trans _ _ _ _ _ _ _ H123 H4) as H.
  eexists _, s4. split; [done|]. split; [|].
  2:{ rewrite <- Hc. rewrite !app_nil_r in H. rewrite app_nil_l in H.
      cbn [app] in H. exact H. }
  reflexivity.
Qed.

Lemma generate_build_appends_witness :
  built (mkEmit (set_build_code (demo_target "lib" "cc_library" ["a.cc"])
                   (Some ["# head"])) 1)
  /\ exists s',
       generate_build "cc" ["lib.o"] ["a.cc"] ["lib.h"] [] [("flags", "-O2"); ("extra", "")]
         ["lib.d"] None
         (mkEmit (set_build_code (demo_target "lib" "cc_library" ["a.cc"])
                    (Some ["# head"])) 1) = (Ok tt, s')
       /\ __build_code (emit_self s')
          = Some ["# head";
                  "build lib.o | lib.d: cc a.cc | lib.h" +:+ String "010"%char "";
                  "  flags = -O2" +:+ String "010"%char "";
                  "  extra =" +:+ String "010"%char "";
                  String "010"%char ""]
       /\ __clean_list (emit_self s') = ["lib.o"; "lib.d"].
Proof.
  assert (built (mkEmit (set_build_code (demo_target "lib" "cc_library" ["a.cc"])
                           (Some ["# head"])) 1)) as Hb by (by eexists).
  split; [exact Hb|].
  destruct (generate_build_appends "cc" ["lib.o"] ["a.cc"] ["lib.h"] []
              [("flags", "-O2"); ("extra", "")] ["lib.d"] None _ Hb)
    as (line & s' & Hrun & _ & _).
  exists s'. split; [exact Hrun|].
  vm_compute in Hrun. injection Hrun as <-. split; reflexivity.
Defined.

(** Outside [generate], on a target whose build code was never asked for,
    [generate_build] fails at its first write and has changed nothing: no
    path reaches the clean list. *)
Theorem generate_build_before_get_build_code
    (rule : string) (outputs inputs implicit_deps order_only_deps : list string)
    (variables : pydict string) (implicit_outputs : list string)
    (clean : option (list string)) (s : Emit) :
  __build_code (emit_self s) = None ->
  generate_build rule outputs inputs implicit_deps order_only_deps
    variables implicit_outputs clean s = (Raise AttributeError, s).
Proof.
  intros Hs. unfold generate_build, ebind, _write_rule. by rewrite Hs.
Qed.

Lemma generate_build_before_get_build_code_witness :
  __build_code (emit_self (mkEmit (demo_target "lib" "cc_library" ["a.cc"]) 0))
  = None
  /\ generate_build "cc" ["lib.o"] ["a.cc"] [] [] [] [] None
       (mkEmit (demo_target "lib" "cc_library" ["a.cc"]) 0)
     = (Raise AttributeError,
        mkEmit (demo_target "lib" "cc_library" ["a.cc"]) 0).
Proof.
  split; [reflexivity|].
  exact (generate_build_before_get_build_code "cc" ["lib.o"] ["a.cc"] [] [] []
           [] None (mkEmit (demo_target "lib" "cc_library" ["a.cc"]) 0)
           eq_refl).
Defined.

(** ** Recorded outputs *)

Lemma add_target_file_targets label p t :
  __targets (_add_target_file label p t) = <[label := p]> (__targets t).
Proof. unfold _add_target_file. by destruct (target_file_falsy _). Qed.

Lemma add_target_file_default label p t :
  __default_target (_add_target_file label p t)
  = if target_file_falsy (__default_target t) then p else __default_target t.
Proof. unfold _add_target_file. by destruct (target_file_falsy _). Qed.

Lemma add_target_files_targets l t :
  __targets (add_target_files l t)
  = (list_to_map (reverse l) : gmap string target_file) ∪ __targets t.
Proof.
  unfold add_target_files. revert t.
  induction l as [|[label p] l IH]; intros t.
  - cbn. by rewrite (left_id_L ∅ (∪)).
  - cbn [fold_left fst snd]. rewrite IH, add_target_file_targets, reverse_cons.
    rewrite list_to_map_app. cbn [list_to_map foldr fst snd].
    rewrite <- (assoc_L (∪)). f_equal.
    by rewrite insert_empty, <- insert_union_singleton_l.
Qed.

Lemma add_target_files_keeps_default l t :
  target_file_falsy (__default_target t) = false ->
  __default_target (add_target_files l t) = __default_target t.
Proof.
  unfold add_target_files. revert t.
  induction l as [|[label p] l IH]; intros t Ht; [done|].
  cbn [fold_left fst snd].
  assert (__default_target (_add_target_file label p t) = __default_target t)
    as Hd by (by rewrite add_target_file_default, Ht).
  rewrite IH; [done|]. by rewrite Hd.
Qed.

(** Of the outputs a target records with [_add_target_file], the default
    output is the first one that is not empty and stays that one, whatever
    is recorded later, while a label recorded more than once keeps the last
    path recorded under it. *)
Theorem default_output_is_first_nonempty
    (self : Target) (before after : list (string * target_file))
    (label : string) (p : target_file) :
  target_file_falsy (__default_target self) = true ->
  Forall (fun lp => target_file_falsy lp.2 = true) before ->
  target_file_falsy p = false ->
  __default_target (add_target_files (before ++ (label, p) :: after) self) = p
  /\ __targets (add_target_files (before ++ (label, p) :: after) self)
     = (list_to_map (reverse (before ++ (label, p) :: after))
          : gmap string target_file) ∪ __targets self.
Proof.
  intros Hself Hbefore Hp. split; [|apply add_target_files_targets].
  unfold add_target_files. rewrite fold_left_app. cbn [fold_left fst snd].
  fold (add_target_files before self).
  assert (target_file_falsy (__default_target (add_target_files before self))
          = true) as Hb.
  { unfold add_target_files. clear Hp. revert self Hself.
    induction Hbefore as [|[l0 p0] rest Hp0 _ IH]; intros self Hself; [done|].
    cbn [fold_left fst snd]. apply IH.
    by rewrite add_target_file_default, Hself. }
  match goal with
  | |- __default_target (fold_left ?f after ?t) = p =>
      change (fold_left f after t) with (add_target_files after t)
  end.
  rewrite add_target_files_keeps_default;
    by rewrite add_target_file_default, Hb.
Qed.

Lemma default_output_is_first_nonempty_witness :
  __default_target
    (add_target_files ([("log", TFile ""); ("objs", TFiles [])]
                       ++ ("a", TFile "lib.a") :: [("so", TFile "lib.so");
                                                    ("a", TFile "lib2.a")])
       (demo_target "lib" "cc_library" ["a.cc"])) = TFile "lib.a"
  /\ __targets
       (add_target_files ([("log", TFile ""); ("objs", TFiles [])]
                          ++ ("a", TFile "lib.a") :: [("so", TFile "lib.so");
                                                       ("a", TFile "lib2.a")])
          (demo_target "lib" "cc_library" ["a.cc"])) !! "a"
     = Some (TFile "lib2.a").
Proof.
  destruct (default_output_is_first_nonempty
              (demo_target "lib" "cc_library" ["a.cc"])
              [("log", TFile ""); ("objs", TFiles [])]
              [("so", TFile "lib.so"); ("a", TFile "lib2.a")]
              "a" (TFile "lib.a") eq_refl
              ltac:(repeat constructor) eq_refl) as [Hd Ht].
  split; [exact Hd|]. rewrite Ht. reflexivity.
Defined.

(** Once the build code exists, so that [_get_target_file] finds the
    buffer and does not enter [generate], [_add_default_target_file]
    overrides the first-come rule: whatever the default was, the path it
    records is the default afterwards, and [_get_target_file] hands that
    path out both for the empty label and for the label it was recorded
    under, and changes nothing. *)
Theorem default_target_file_round_trip
    {K : TargetKinds} (fuel : nat) (label query : string) (p : target_file)
    (t : Target) (n : nat) :
  is_Some (__build_code t) ->
  query = "" \/ query = label ->
  _get_target_file fuel query (mkEmit (_add_default_target_file label p t) n)
  = (Ok p, mkEmit (_add_default_target_file label p t) n).
Proof.
  intros Hb Hq. unfold _get_target_file, get_target_file_with, ebind.
  rewrite get_build_code_built.
  2:{ unfold built, _add_default_target_file. cbn [emit_self].
      by rewrite add_target_file_build_code. }
  cbn [emit_self]. unfold _add_default_target_file.
  rewrite add_target_file_default, add_target_file_targets.
  cbn [__default_target set_targets].
  case_bool_decide as Hl.
  - by destruct (target_file_falsy p).
  - destruct Hq as [->| ->]; [done|]. by rewrite lookup_insert_eq.
Qed.

Lemma default_target_file_round_trip_witness :
  is_Some (__build_code
             (set_build_code
                (_add_target_file "a" (TFile "lib.a")
                   (demo_target "lib" "cc_library" ["a.cc"])) (Some [])))
  /\ ("" = "" \/ "" = "so")
  /\ _get_target_file (K := plain_kinds) 0 ""
       (mkEmit (_add_default_target_file "so" (TFile "lib.so")
                  (set_build_code
                     (_add_target_file "a" (TFile "lib.a")
                        (demo_target "lib" "cc_library" ["a.cc"])) (Some [])))
          1)
     = (Ok (TFile "lib.so"),
        mkEmit (_add_default_target_file "so" (TFile "lib.so")
                  (set_build_code
                     (_add_target_file "a" (TFile "lib.a")
                        (demo_target "lib" "cc_library" ["a.cc"])) (Some [])))
          1).
Proof.
  assert (is_Some (__build_code
                     (set_build_code
                        (_add_target_file "a" (TFile "lib.a")
                           (demo_target "lib" "cc_library" ["a.cc"]))
                        (Some [])))) as Hb by (by eexists).
  split; [exact Hb|]. split; [by left|].
  exact (default_target_file_round_trip (K := plain_kinds) 0 "so" ""
           (TFile "lib.so") _ 1 Hb (or_introl eq_refl)).
Defined.

#[local] Instance string_leb_total :
  Total (fun a b : string => Is_true (String.leb a b)).
Proof.
  intros a b. destruct (String.leb_total a b) as [H|H];
    [left | right]; by apply Is_true_true.
Qed.

#[local] Instance string_leb_transitive :
  Transitive (fun a b : string => Is_true (String.leb a b)).
Proof.
  intros a b c Hab Hbc. apply Is_true_true.
  eapply string_leb_trans; by apply Is_true_true.
Qed.

Lemma elem_of_target_files_set (targets : gmap string target_file) x :
  x ∈ target_files_set targets
  <-> exists label v, targets !! label = Some v /\ x ∈ paths_of v.
Proof.
  unfold target_files_set.
  apply (map_fold_weak_ind
           (fun (r : gset string) (m : gmap string target_file) =>
              x ∈ r <-> exists label v, m !! label = Some v /\ x ∈ paths_of v)).
  - split; [set_solver|]. intros (label & v & Hl & _).
    by rewrite lookup_empty in Hl.
  - intros label v m r Hm IH. split.
    + intros Hx.
      assert (x ∈ paths_of v \/ x ∈ r) as [Hv|Hr].
      { destruct v as [p|l]; cbn [paths_of]; set_solver. }
      * exists label, v. by rewrite lookup_insert_eq.
      * apply IH in Hr as (label' & v' & Hl' & Hx').
        exists label', v'. split; [|done].
        rewrite lookup_insert_ne; [done|]. intros ->. congruence.
    + intros (label' & v' & Hl' & Hx').
      assert (x ∈ paths_of v \/ x ∈ r) as Hor.
      { destruct (decide (label' = label)) as [->|Hne].
        - rewrite lookup_insert_eq in Hl'. injection Hl' as ->. by left.
        - rewrite lookup_insert_ne in Hl' by done. right. apply IH. eauto. }
      destruct v as [p|l]; cbn [paths_of] in Hor; set_solver.
Qed.

(** Once the build code exists, [_get_target_files] changes nothing and
    returns the recorded paths in ascending order, each path once: a path
    is listed exactly when some label holds it, as its path or inside its
    list of paths. *)
Theorem get_target_files_sorted_and_complete
    {K : TargetKinds} (fuel : nat) (s : Emit) :
  built s ->
  exists l,
    _get_target_files fuel s = (Ok l, s)
    /\ Sorted string_le l
    /\ NoDup l
    /\ forall x, x ∈ l
                 <-> exists label v, __targets (emit_self s) !! label = Some v
                                     /\ x ∈ paths_of v.
Proof.
  intros Hs. unfold _get_target_files, get_target_files_with, ebind.
  rewrite get_build_code_built by done.
  eexists. split; [done|]. unfold sorted_strings. split; [|split].
  - apply (Sorted_merge_sort (fun a b : string => Is_true (String.leb a b))).
  - rewrite merge_sort_Permutation. apply NoDup_elements.
  - intros x. rewrite merge_sort_Permutation, elem_of_elements.
    apply elem_of_target_files_set.
Qed.

Lemma get_target_files_sorted_and_complete_witness :
  built (mkEmit (set_build_code
                   (add_target_files [("so", TFile "lib.so");
                                      ("objs", TFiles ["b.o"; "a.o"; "lib.so"]);
                                      ("a", TFile "lib.a")]
                      (demo_target "lib" "cc_library" ["a.cc"])) (Some [])) 1)
  /\ (_get_target_files (K := plain_kinds) 0
        (mkEmit (set_build_code
                   (add_target_files [("so", TFile "lib.so");
                                      ("objs", TFiles ["b.o"; "a.o"; "lib.so"]);
                                      ("a", TFile "lib.a")]
                      (demo_target "lib" "cc_library" ["a.cc"])) (Some [])) 1)).1
     = Ok ["a.o"; "b.o"; "lib.a"; "lib.so"].
Proof.
  assert (built (mkEmit (set_build_code
                   (add_target_files [("so", TFile "lib.so");
                                      ("objs", TFiles ["b.o"; "a.o"; "lib.so"]);
                                      ("a", TFile "lib.a")]
                      (demo_target "lib" "cc_library" ["a.cc"])) (Some [])) 1))
    as Hb by (by eexists).
  split; [exact Hb|].
  destruct (get_target_files_sorted_and_complete (K := plain_kinds) 0 _ Hb)
    as (l & Hrun & _).
  rewrite Hrun. vm_compute in Hrun. injection Hrun as <-. reflexivity.
Defined.

(** ** Generation that fails, and targets that generate nothing *)

(** A [generate] that raises is not entered again: the empty buffer
    [get_build_code] installed before the call stays, with whatever was
    written before the failure, and every later call returns it as if
    generation had succeeded. *)
Theorem failed_generate_is_not_retried
    {K : TargetKinds} (fuel : nat) (s s' : Emit) (e : exn) :
  __build_code (emit_self s) = None ->
  get_build_code (S fuel) s = (Raise e, s') ->
  generate_calls s' = S (generate_calls s)
  /\ exists code,
       forall fuel', get_build_code fuel' s' = (Ok (Some code), s').
Proof.
  intros Hs Hrun. destruct (get_build_code_first fuel s Hs) as [Hb Hc].
  rewrite Hrun in Hb, Hc. cbn [snd] in Hb, Hc. split; [done|].
  destruct Hb as [code Hcode]. exists code. intros fuel'.
  rewrite get_build_code_built by (by eexists). by rewrite Hcode.
Qed.

(** In the base class, [generate] raises [NotImplementedError] with the
    full name of the target, and so does each accessor that asks for the
    build code first. *)
Theorem base_class_generate_not_implemented
    (fuel : nat) (t : Target) (n : nat) (label : string) :
  type t <> "system_library" ->
  __build_code t = None ->
  get_build_code (K := base_kinds) (S fuel) (mkEmit t n)
  = (Raise (NotImplementedError (fullname t)),
     mkEmit (set_build_code t (Some [])) (S n))
  /\ (_get_target_file (K := base_kinds) (S fuel) label (mkEmit t n)).1
     = Raise (NotImplementedError (fullname t))
  /\ (_get_target_files (K := base_kinds) (S fuel) (mkEmit t n)).1
     = Raise (NotImplementedError (fullname t)).
Proof.
  intros Hty Ht.
  assert (get_build_code (K := base_kinds) (S fuel) (mkEmit t n)
          = (Raise (NotImplementedError (fullname t)),
             mkEmit (set_build_code t (Some [])) (S n))) as Hrun.
  { cbn [get_build_code emit_self generate_calls]. rewrite Ht.
    cbn [generate base_kinds type set_build_code].
    rewrite bool_decide_eq_false_2 by done. done. }
  split; [exact Hrun|].
  unfold _get_target_file, _get_target_files, get_target_file_with,
    get_target_files_with, ebind.
  by rewrite Hrun.
Qed.

Lemma failed_generate_is_not_retried_witness :
  __build_code (emit_self (mkEmit (demo_target "lib" "cc_library" ["a.cc"]) 0))
  = None
  /\ get_build_code (K := base_kinds) 1
       (mkEmit (demo_target "lib" "cc_library" ["a.cc"]) 0)
     = (Raise (NotImplementedError "//base:lib"),
        mkEmit (set_build_code (demo_target "lib" "cc_library" ["a.cc"])
                  (Some [])) 1)
  /\ exists code,
       forall fuel',
         get_build_code (K := base_kinds) fuel'
           (mkEmit (set_build_code (demo_target "lib" "cc_library" ["a.cc"])
                      (Some [])) 1)
         = (Ok (Some code),
            mkEmit (set_build_code (demo_target "lib" "cc_library" ["a.cc"])
                      (Some [])) 1).
Proof.
  split; [reflexivity|]. split; [reflexivity|].
  exact (proj2 (failed_generate_is_not_retried (K := base_kinds) 0
                  (mkEmit (demo_target "lib" "cc_library" ["a.cc"]) 0)
                  (mkEmit (set_build_code
                             (demo_target "lib" "cc_library" ["a.cc"])
                             (Some [])) 1)
                  (NotImplementedError "//base:lib") eq_refl eq_refl)).
Defined.

Lemma base_class_generate_not_implemented_witness :
  type (demo_target "lib" "cc_library" ["a.cc"]) <> "system_library"
  /\ __build_code (demo_target "lib" "cc_library" ["a.cc"]) = None
  /\ (_get_target_files (K := base_kinds) 1
        (mkEmit (demo_target "lib" "cc_library" ["a.cc"]) 0)).1
     = Raise (NotImplementedError "//base:lib").
Proof.
  assert (type (demo_target "lib" "cc_library" ["a.cc"]) <> "system_library")
    as Hty by discriminate.
  split; [exact Hty|]. split; [reflexivity|].
  exact (proj2 (proj2 (base_class_generate_not_implemented 0
                         (demo_target "lib" "cc_library" ["a.cc"]) 0 ""
                         Hty eq_refl))).
Defined.

(** A system library has no build code and no outputs: the first call of
    [get_build_code] on the target [SystemLibrary(name)] returned enters
    its empty [generate] and returns the empty buffer; no file is recorded
    and nothing is to be cleaned. *)
Theorem system_library_emits_nothing
    {C : Collaborators} (fuel : nat) (n : string) (w w' : World)
    (lib : Target) (k : nat) :
  SystemLibrary n w = (Ok lib, w') ->
  get_build_code (K := base_kinds) (S fuel) (mkEmit lib k)
  = (Ok (Some []), mkEmit (set_build_code lib (Some [])) (S k))
  /\ (_get_target_files (K := base_kinds) (S fuel) (mkEmit lib k)).1 = Ok []
  /\ (_get_target_file (K := base_kinds) (S fuel) "" (mkEmit lib k)).1
     = Ok (TFile "")
  /\ get_clean_list lib = [].
Proof.
  intros Hlib.
  assert (type lib = "system_library" /\ __build_code lib = None
          /\ __targets lib = ∅ /\ __default_target lib = TFile ""
          /\ __clean_list lib = []) as (Hty & Hbc & Ht & Hd & Hcl).
  { revert Hlib. unfold SystemLibrary, init_before_deps, bind.
    case_bool_decide as Hn; [by cbn|]. cbn [ret].
    unfold _check_name.
    match goal with
    | |- context [if ?b then error ?s ?m else ret tt] =>
        destruct b; cbn [error console_emit ret _check_kwargs]
    end.
    all: unfold _check_srcs, _check_sources, bind;
      cbn [srcs set_attr new_target check_sources_loop ret claim_sources].
    all: intros [= <- _]; unfold init_after_deps, _init_visibility.
    all: rewrite bool_decide_eq_true_2 by apply list_elem_of_here.
    all: done. }
  assert (get_build_code (K := base_kinds) (S fuel) (mkEmit lib k)
          = (Ok (Some []), mkEmit (set_build_code lib (Some [])) (S k)))
    as Hrun.
  { cbn [get_build_code emit_self generate_calls]. rewrite Hbc.
    cbn [generate base_kinds type set_build_code].
    rewrite bool_decide_eq_true_2 by done. done. }
  split; [exact Hrun|].
  unfold _get_target_file, _get_target_files, get_target_file_with,
    get_target_files_with, ebind, get_clean_list.
  rewrite Hrun. cbn [emit_self fst __targets __default_target set_build_code].
  rewrite Ht, Hd, Hcl. repeat split; try done.
Qed.

Lemma system_library_emits_nothing_witness :
  exists lib w',
    SystemLibrary (C := plain_collaborators) "pthread" (empty_world "x")
    = (Ok lib, w')
    /\ (get_build_code (K := base_kinds) 1 (mkEmit lib 0)).1 = Ok (Some [])
    /\ get_clean_list lib = [].
Proof.
  eexists _, _. split; [reflexivity|].
  destruct (system_library_emits_nothing (C := plain_collaborators) 0
              "pthread" (empty_world "x") _ _ 0 eq_refl)
    as (Hrun & _ & _ & Hcl).
  split; [exact (f_equal fst Hrun) | exact Hcl].
Defined.

(** After [get_build_code] was called on a target, also when [generate]
    raised, [before_generate] fails its assertion and changes nothing:
    it can only run before the build code is asked for. *)
Theorem before_generate_after_get_build_code
    {K : TargetKinds} (fuel : nat) (s : Emit) :
  before_generate (get_build_code (S fuel) s).2
  = (Raise AssertionError, (get_build_code (S fuel) s).2).
Proof.
  assert (built (get_build_code (S fuel) s).2) as [code Hb].
  { destruct (__build_code (emit_self s)) as [code|] eqn:Hs.
    - rewrite get_build_code_built by (by eexists). by eexists.
    - by apply get_build_code_first. }
  unfold before_generate. by rewrite Hb.
Qed.

(** ** Cached and failed fingerprints *)

Section FingerprintCache.

Context {C : Collaborators}.

Lemma fingerprint_cached fuel k w t h :
  target_database w !! k = Some t -> __fingerprint t = Some h ->
  fingerprint fuel k w = (Ok h, w).
Proof.
  intros Hk Hh. destruct fuel; cbn [fingerprint]; unfold bind, lookup_target;
    by rewrite Hk, Hh.
Qed.

Lemma map_M_fingerprint_cached fuel l w :
  Forall (fun d => exists t h, target_database w !! d = Some t
                               /\ __fingerprint t = Some h) l ->
  exists fps, map_M (fingerprint fuel) l w = (Ok fps, w).
Proof.
  induction 1 as [|d l (t & h & Hd & Hh) _ [fps IH]]; [by exists []|].
  exists (h :: fps). cbn [map_M]. unfold bind.
  by rewrite (fingerprint_cached fuel d w t h Hd Hh), IH.
Qed.

Lemma map_M_app {A B : Type} (f : A -> M B) l1 l2 w bs w1 :
  map_M f l1 w = (Ok bs, w1) ->
  map_M f (l1 ++ l2) w
  = match map_M f l2 w1 with
    | (Ok bs2, w2) => (Ok (bs ++ bs2), w2)
    | (Raise e, w2) => (Raise e, w2)
    end.
Proof.
  revert w bs. induction l1 as [|a l1 IH]; intros w bs H.
  - cbn in H. injection H as <- <-. cbn [app].
    by destruct (map_M f l2 w) as [[bs2|e] w2].
  - cbn [map_M app] in *. unfold bind in *.
    destruct (f a w) as [[b|e] w0]; [|done].
    destruct (map_M f l1 w0) as [[bs1|e] w0'] eqn:E; [|done].
    cbn [ret] in H. injection H as <- <-.
    rewrite (IH w0 bs1 E).
    by destruct (map_M f l2 w0') as [[bs2|e] w2].
Qed.

(** The fingerprint is computed once: after a call that returned a hash,
    every later call on the same target returns that hash and changes
    nothing. *)
Theorem fingerprint_memoized (fuel : nat) (k : string) (w w' : World)
    (h : string) :
  fingerprint fuel k w = (Ok h, w') ->
  forall fuel', fingerprint fuel' k w' = (Ok h, w').
Proof.
  intros Hrun fuel'.
  assert (exists t, target_database w' !! k = Some t
                    /\ __fingerprint t = Some h) as (t & Hk & Hh).
  { destruct fuel as [|fuel]; cbn [fingerprint] in Hrun;
      unfold bind at 1 in Hrun; unfold lookup_target at 1 in Hrun;
      destruct (target_database w !! k) as [self|] eqn:Hk; try done;
      destruct (__fingerprint self) as [h0|] eqn:Hh; try done.
    - cbn [ret] in Hrun. injection Hrun as <- <-. by exists self.
    - cbn [ret] in Hrun. injection Hrun as <- <-. by exists self.
    - unfold bind at 1 in Hrun.
      destruct (map_M (fingerprint fuel) (deps self) w) as [[fps|e] w1];
        [|done].
      unfold bind, lookup_target in Hrun.
      destruct (target_database w1 !! k) as [self1|]; [|done].
      destruct (fingerprint_of_entropy _) as [h1|e]; [|done].
      injection Hrun as <- <-. eexists. split.
      + cbn [target_database set_target_database]. apply lookup_insert_eq.
      + by destruct self1. }
  by apply (fingerprint_cached fuel' k w' t h).
Qed.

(** [fingerprint] looks every dependency key up in the target database:
    when the dependencies before [d] have their fingerprints and [d] is not
    registered, the call raises [KeyError] for [d], and the target is left
    without a cached fingerprint. *)
Theorem fingerprint_unregistered_dependency
    (fuel : nat) (k : string) (w : World) (t : Target)
    (before after : list string) (d : string) :
  target_database w !! k = Some t ->
  __fingerprint t = None ->
  deps t = before ++ d :: after ->
  Forall (fun d' => exists t' h, target_database w !! d' = Some t'
                                 /\ __fingerprint t' = Some h) before ->
  target_database w !! d = None ->
  fingerprint (S fuel) k w = (Raise (KeyError d), w).
Proof.
  intros Hk Hfp Hdeps Hbefore Hd. cbn [fingerprint].
  unfold bind at 1. unfold lookup_target at 1. rewrite Hk, Hfp.
  unfold bind at 1. rewrite Hdeps.
  destruct (map_M_fingerprint_cached fuel before w Hbefore) as [fps Hfps].
  rewrite (map_M_app _ _ _ _ _ _ Hfps). cbn [map_M]. unfold bind at 1.
  assert (fingerprint fuel d w = (Raise (KeyError d), w)) as ->; [|done].
  destruct fuel; cbn [fingerprint]; unfold bind, lookup_target; by rewrite Hd.
Qed.

(** The check for object addresses is a search in the text of the
    entropy: a target without dependencies whose entropy text holds
    [ object at 0x] anywhere, be it in its name or in a source path, fails
    the assertion, and no fingerprint is cached, so every call fails
    again. *)
Theorem fingerprint_rejects_address_text
    (fuel : nat) (k : string) (w : World) (t : Target) :
  target_database w !! k = Some t ->
  __fingerprint t = None ->
  deps t = [] ->
  PyStr.contains " object at 0x"
    (str_of_items (sorted_items (fingerprint_entropy t []))) = true ->
  fingerprint (S fuel) k w = (Raise AssertionError, w).
Proof.
  intros Hk Hfp Hdeps Htext. cbn [fingerprint].
  unfold bind at 1. unfold lookup_target at 1. rewrite Hk, Hfp, Hdeps.
  cbn [map_M]. unfold bind, lookup_target, ret. rewrite Hk.
  unfold fingerprint_of_entropy. by rewrite Htext.
Qed.

Lemma map_M_fingerprint_self_dependency fuel k l w :
  (forall w k0,
     depends_on_itself k w ->
     depends_on_itself k (fingerprint fuel k0 w).2
     /\ (k0 = k -> exists e, (fingerprint fuel k0 w).1 = Raise e)) ->
  depends_on_itself k w ->
  depends_on_itself k (map_M (fingerprint fuel) l w).2
  /\ (k ∈ l -> exists e, (map_M (fingerprint fuel) l w).1 = Raise e).
Proof.
  intros IH. revert w. induction l as [|d l IHl]; intros w Hw.
  - split; [done|]. by intros ?%elem_of_nil.
  - remember (map_M (fingerprint fuel) (d :: l) w) as r eqn:Hr.
    cbn [map_M] in Hr. unfold bind at 1 in Hr.
    destruct (IH w d Hw) as [Hw1 Hraise].
    destruct (fingerprint fuel d w) as [[h|e] w1]; cbn [fst snd] in *.
    2:{ subst r. split; [done|]. intros _. by exists e. }
    destruct (IHl w1 Hw1) as [Hw2 Hraise2]. unfold bind in Hr.
    destruct (map_M (fingerprint fuel) l w1) as [[fps|e] w2];
      cbn [fst snd ret] in *.
    2:{ subst r. split; [done|]. intros _. by exists e. }
    subst r. split; [done|]. intros [->|Hin]%elem_of_cons.
    + by destruct Hraise as [e He].
    + by destruct (Hraise2 Hin) as [e He].
Qed.

Lemma fingerprint_self_dependency fuel k :
  forall w k0,
    depends_on_itself k w ->
    depends_on_itself k (fingerprint fuel k0 w).2
    /\ (k0 = k -> exists e, (fingerprint fuel k0 w).1 = Raise e).
Proof.
  induction fuel as [|fuel IH]; intros w k0 Hw.
  - remember (fingerprint 0 k0 w) as r eqn:Hr.
    cbn [fingerprint] in Hr. unfold bind, lookup_target in Hr.
    destruct (target_database w !! k0) as [self|] eqn:Hk0.
    2:{ subst r. split; [done|]. intros _. by eexists. }
    destruct (__fingerprint self) as [h|] eqn:Hh.
    2:{ subst r. split; [done|]. intros _. by eexists. }
    subst r. split; [done|]. intros ->. destruct Hw as (t & Ht & Hnone & _).
    congruence.
  - remember (fingerprint (S fuel) k0 w) as r eqn:Hr.
    cbn [fingerprint] in Hr. unfold bind at 1 in Hr.
    unfold lookup_target at 1 in Hr.
    destruct (target_database w !! k0) as [self|] eqn:Hk0.
    2:{ subst r. split; [done|]. intros _. by eexists. }
    destruct (__fingerprint self) as [h|] eqn:Hh.
    { subst r. split; [done|]. intros ->.
      destruct Hw as (t & Ht & Hnone & _). congruence. }
    destruct (map_M_fingerprint_self_dependency fuel k (deps self) w IH Hw)
      as [Hw1 Hraise].
    unfold bind at 1 in Hr.
    destruct (map_M (fingerprint fuel) (deps self) w) as [[fps|e] w1];
      cbn [fst snd] in *.
    2:{ subst r. split; [done|]. intros _. by eexists. }
    destruct (decide (k0 = k)) as [->|Hne].
    { destruct Hw as (t & Ht & _ & Hin).
      assert (t = self) as -> by congruence.
      by destruct (Hraise Hin) as [e He]. }
    unfold bind, lookup_target in Hr.
    destruct (target_database w1 !! k0) as [self1|].
    2:{ subst r. split; [done|]. done. }
    destruct (fingerprint_of_entropy _) as [h1|e].
    2:{ subst r. split; [done|]. done. }
    subst r. cbn [fst snd]. split; [|done].
    destruct Hw1 as (t & Ht & Hnone & Hin). exists t.
    cbn [target_database set_target_database].
    by rewrite lookup_insert_ne.
Qed.

(** A target that lists itself among its dependencies never gets a
    fingerprint: however deep the recursion may go, the call raises, and
    so does every later call. *)
Theorem self_dependency_has_no_fingerprint
    (fuel : nat) (k : string) (w : World) :
  depends_on_itself k w ->
  (exists e, (fingerprint fuel k w).1 = Raise e)
  /\ depends_on_itself k (fingerprint fuel k w).2.
Proof.
  intros Hw. destruct (fingerprint_self_dependency fuel k w k Hw) as [H1 H2].
  split; [by apply H2 | exact H1].
Qed.

End FingerprintCache.

Lemma fingerprint_memoized_witness :
  exists h w',
    fingerprint (C := plain_collaborators) 1 "x:lib" world_with_two_orders
    = (Ok h, w')
    /\ fingerprint (C := plain_collaborators) 0 "x:lib" w' = (Ok h, w').
Proof.
  pose (r := fingerprint (C := plain_collaborators) 1 "x:lib"
               world_with_two_orders).
  exists (match r.1 with Ok h => h | Raise _ => "" end), r.2.
  assert (r = (Ok (match r.1 with Ok h => h | Raise _ => "" end), r.2)) as H
    by (vm_compute; reflexivity).
  split; [exact H|].
  exact (fingerprint_memoized (C := plain_collaborators) 1 "x:lib"
           world_with_two_orders _ _ H 0).
Defined.

Lemma fingerprint_unregistered_dependency_witness :
  target_database world_with_missing_dependency !! "x:app"
  = Some (target_in "x" "app" ["x:leaf"; "x:gone"])
  /\ target_database world_with_missing_dependency !! "x:gone" = None
  /\ fingerprint (C := plain_collaborators) 3 "x:app"
       world_with_missing_dependency
     = (Raise (KeyError "x:gone"), world_with_missing_dependency).
Proof.
  split; [reflexivity|]. split; [reflexivity|].
  apply (fingerprint_unregistered_dependency (C := plain_collaborators) 2
           "x:app" world_with_missing_dependency
           (target_in "x" "app" ["x:leaf"; "x:gone"]) ["x:leaf"] [] "x:gone");
    try reflexivity.
  constructor; [|constructor].
  exists (set_fingerprint (target_in "x" "leaf" []) (Some "cafe")), "cafe".
  split; reflexivity.
Defined.

Lemma fingerprint_rejects_address_text_witness :
  target_database world_with_address_name !! "x:t"
  = Some (target_in "x" "t object at 0x7f" [])
  /\ PyStr.contains " object at 0x"
       (str_of_items (C := plain_collaborators)
          (sorted_items
             (fingerprint_entropy (C := plain_collaborators)
                (target_in "x" "t object at 0x7f" []) []))) = true
  /\ fingerprint (C := plain_collaborators) 1 "x:t" world_with_address_name
     = (Raise AssertionError, world_with_address_name).
Proof.
  assert (PyStr.contains " object at 0x"
            (str_of_items (C := plain_collaborators)
               (sorted_items
                  (fingerprint_entropy (C := plain_collaborators)
                     (target_in "x" "t object at 0x7f" []) []))) = true)
    as Htext by (vm_compute; reflexivity).
  split; [reflexivity|]. split; [exact Htext|].
  exact (fingerprint_rejects_address_text (C := plain_collaborators) 0 "x:t"
           world_with_address_name (target_in "x" "t object at 0x7f" [])
           eq_refl eq_refl eq_refl Htext).
Defined.

Lemma self_dependency_has_no_fingerprint_witness :
  depends_on_itself "x:loop" world_with_self_dependency
  /\ exists e,
       (fingerprint (C := plain_collaborators) 5 "x:loop"
          world_with_self_dependency).1 = Raise e.
Proof.
  assert (depends_on_itself "x:loop" world_with_self_dependency) as Hw.
  { exists (target_in "x" "loop" ["x:leaf"; "x:loop"]).
    split; [reflexivity|]. split; [reflexivity|].
    apply list_elem_of_further, list_elem_of_here. }
  split; [exact Hw|].
  exact (proj1 (self_dependency_has_no_fingerprint (C := plain_collaborators)
                  5 "x:loop" world_with_self_dependency Hw)).
Defined.

(** ** What [_check_sources] reports *)

Section SourceReports.

Context {C : Collaborators}.

(** [_check_sources] changes nothing but the console and raises nothing
    but the [re.error] of [re.search]; it returns when the pattern
    compiles for every file. When it returns, every repeated listing of a
    file was collected: a file listed [n] times is named [n - 1] times in
    the duplicate report, which is the last message and is sent exactly
    when some file is listed more than once. *)
Theorem check_sources_reports_each_repetition
    (self : Target) (file_kind : string) (files exts : list string)
    (w : World) :
  exists r log,
    _check_sources self file_kind files exts w
    = (r, set_console_log w (console_log w ++ log))
    /\ (r = Ok tt \/ r = Raise ReError)
    /\ (Forall (pattern_compiles exts) files -> r = Ok tt)
    /\ (r = Ok tt ->
        exists body dups,
          log = body
                ++ match dups with
                   | [] => []
                   | _ :: _ => [(Error, _format_message self "error"
                                          (msg_duplicate file_kind dups))]
                   end
          /\ (forall x, occurrences x dups = pred (occurrences x files))
          /\ (dups = [] <-> NoDup files)).
Proof.
  destruct (check_sources_loop_counts self file_kind exts files [] ∅ w)
    as (body & r0 & Hrun & Hr0 & Hok).
  unfold _check_sources, bind. rewrite Hrun.
  destruct Hr0 as [(dups & -> & Hcount) | ->].
  2:{ exists (Raise ReError), body. split; [done|]. split; [by right|].
      split; [|done]. intros Hall. by destruct (Hok Hall). }
  cbn [app].
  assert (forall x, occurrences x dups = pred (occurrences x files)) as Hc.
  { intros x. rewrite Hcount.
    destruct (decide (x ∈ (∅ : gset string))); [set_solver | done]. }
  exists (Ok tt),
    (body ++ match dups with
             | [] => []
             | _ :: _ => [(Error, _format_message self "error"
                                    (msg_duplicate file_kind dups))]
             end).
  split; [|split; [by left | split; [done|]]].
  - destruct dups as [|d dups']; cbn [ret].
    + by rewrite app_nil_r.
    + unfold error, console_emit. rewrite set_console_log_twice.
      cbn [console_log set_console_log]. by rewrite (assoc_L (++)).
  - intros _. exists body, dups. split; [done|]. split; [done|].
    rewrite NoDup_occurrences. split.
    + intros -> x. specialize (Hc x). cbn in Hc. lia.
    + intros Hle. destruct dups as [|d dups']; [done|].
      specialize (Hc d). specialize (Hle d).
      rewrite occurrences_cons in Hc.
      destruct (decide (d = d)); [lia | done].
Qed.

End SourceReports.

Lemma check_sources_reports_each_repetition_witness :
  Forall (pattern_compiles (C := plain_collaborators) ["cc"])
    ["a.cc"; "b.cc"; "a.cc"; "a.cc"]
  /\ exists log,
       _check_sources (C := plain_collaborators)
         (demo_target "lib" "cc_library" []) "source"
         ["a.cc"; "b.cc"; "a.cc"; "a.cc"] ["cc"] (empty_world "base")
       = (Ok tt, set_console_log (empty_world "base") log)
       /\ last log
          = Some (Error,
                  _format_message (demo_target "lib" "cc_library" []) "error"
                    (msg_duplicate (C := plain_collaborators) "source"
                       ["a.cc"; "a.cc"])).
Proof.
  assert (Forall (pattern_compiles (C := plain_collaborators) ["cc"])
            ["a.cc"; "b.cc"; "a.cc"; "a.cc"]) as Hall.
  { repeat constructor; by eexists. }
  split; [exact Hall|].
  destruct (check_sources_reports_each_repetition (C := plain_collaborators)
              (demo_target "lib" "cc_library" []) "source"
              ["a.cc"; "b.cc"; "a.cc"; "a.cc"] ["cc"] (empty_world "base"))
    as (r & log & Hrun & _ & Hok & _).
  rewrite (Hok Hall) in Hrun. exists log. split; [exact Hrun|].
  vm_compute in Hrun. injection Hrun as <-. vm_compute. reflexivity.
Defined.

(** ** Claiming sources *)

Lemma claim_source_free_or_own self allow action src w :
  unclaimed self w src \/ owned_by self allow w src ->
  exists w',
    claim_source self allow action src w = (Ok tt, w')
    /\ owned_by self allow w' src
    /\ console_log w' = console_log w
    /\ target_database w' = target_database w
    /\ parse_cache w' = parse_cache w
    /\ (forall s, owned_by self allow w s -> owned_by self allow w' s)
    /\ (forall s, unclaimed self w s \/ owned_by self allow w s ->
                  unclaimed self w' s \/ owned_by self allow w' s).
Proof.
  unfold unclaimed, owned_by, claim_source. intros [Hfree|Hown].
  - rewrite Hfree. eexists. split; [reflexivity|].
    cbn [src_target_map set_src_target_map console_log target_database
         parse_cache].
    split; [apply lookup_insert_eq|]. repeat split.
    + intros s Hs.
      destruct (decide (OsPath.normpath (OsPath.join (path self) src)
                        = OsPath.normpath (OsPath.join (path self) s)))
        as [->|Hne]; [apply lookup_insert_eq | by rewrite lookup_insert_ne].
    + intros s Hs.
      destruct (decide (OsPath.normpath (OsPath.join (path self) src)
                        = OsPath.normpath (OsPath.join (path self) s)))
        as [->|Hne]; [right; apply lookup_insert_eq|].
      by rewrite lookup_insert_ne.
  - rewrite Hown. rewrite bool_decide_eq_false_2 by (intros H; by apply H).
    exists w. by repeat split.
Qed.

Lemma claim_sources_free_or_own self allow action l w :
  (forall src, src ∈ l -> unclaimed self w src \/ owned_by self allow w src) ->
  exists w',
    claim_sources self allow action l w = (Ok tt, w')
    /\ (forall src, src ∈ l -> owned_by self allow w' src)
    /\ console_log w' = console_log w
    /\ target_database w' = target_database w
    /\ parse_cache w' = parse_cache w
    /\ (forall s, owned_by self allow w s -> owned_by self allow w' s).
Proof.
  revert w. induction l as [|src rest IH]; intros w Hl.
  - exists w. repeat split; try done. by intros src ?%elem_of_nil.
  - destruct (claim_source_free_or_own self allow action src w)
      as (w1 & H1 & Hown1 & Hlog1 & Hdb1 & Hpc1 & Hmono1 & Hkeep1);
      [apply Hl; by left|].
    destruct (IH w1) as (w' & H2 & Hown2 & Hlog2 & Hdb2 & Hpc2 & Hmono2).
    { intros s Hs. apply Hkeep1, Hl. by right. }
    exists w'. cbn [claim_sources]. unfold bind. rewrite H1.
    split; [done|]. split; [|repeat split; try congruence; by auto].
    intros s [->|Hs]%elem_of_cons; [by apply Hmono2 | by apply Hown2].
Qed.

(** A target that lists sources nobody else has claimed becomes the owner
    of each one, without a word on the console, also when it lists a
    source more than once; going through the same sources again finds
    the target as owner everywhere and changes nothing. *)
Theorem source_claims_are_idempotent
    (self : Target) (allow : bool) (action : string) (l : list string)
    (w : World) :
  (forall src, src ∈ l -> unclaimed self w src \/ owned_by self allow w src) ->
  exists w',
    claim_sources self allow action l w = (Ok tt, w')
    /\ (forall src, src ∈ l -> owned_by self allow w' src)
    /\ console_log w' = console_log w
    /\ claim_sources self allow action l w' = (Ok tt, w').
Proof.
  intros Hl.
  destruct (claim_sources_free_or_own self allow action l w Hl)
    as (w' & Hrun & Hown & Hlog & _).
  exists w'. split; [done|]. split; [done|]. split; [done|].
  clear Hrun Hl Hlog. induction l as [|src rest IH]; [done|].
  cbn [claim_sources]. unfold bind, claim_source at 1.
  pose proof (Hown src ltac:(by left)) as Hsrc. unfold owned_by in Hsrc.
  rewrite Hsrc, bool_decide_eq_false_2 by (intros H; by apply H).
  apply IH. intros s Hs. apply Hown. by right.
Qed.

Lemma source_claims_are_idempotent_witness :
  (forall src, src ∈ ["a.cc"; "sub/../a.cc"; "b.cc"] ->
               unclaimed (claimant "cc_library") (empty_world "base") src
               \/ owned_by (claimant "cc_library") false (empty_world "base") src)
  /\ exists w',
       claim_sources (claimant "cc_library") false "error"
         ["a.cc"; "sub/../a.cc"; "b.cc"] (empty_world "base") = (Ok tt, w')
       /\ src_target_map w'
          = {[ "base/a.cc" := ("//base:gen", false);
               "base/b.cc" := ("//base:gen", false) ]}.
Proof.
  assert (forall src, src ∈ ["a.cc"; "sub/../a.cc"; "b.cc"] ->
                      unclaimed (claimant "cc_library") (empty_world "base") src
                      \/ owned_by (claimant "cc_library") false
                           (empty_world "base") src) as Hl.
  { intros src _. left. apply lookup_empty. }
  split; [exact Hl|].
  destruct (source_claims_are_idempotent (claimant "cc_library") false "error"
              ["a.cc"; "sub/../a.cc"; "b.cc"] (empty_world "base") Hl)
    as (w' & Hrun & _).
  exists w'. split; [exact Hrun|].
  vm_compute in Hrun. injection Hrun as <-. vm_compute. reflexivity.
Defined.

(** ** What the resolver changes in a target *)

Lemma dep_edit_refl self : dep_edit self self.
Proof. split; [by destruct self|]. split; [done|]. split; auto. Qed.

Lemma dep_edit_trans s1 s2 s3 :
  dep_edit s1 s2 -> dep_edit s2 s3 -> dep_edit s1 s3.
Proof.
  intros (He1 & Hi1 & Hm1 & Hd1) (He2 & Hi2 & Hm2 & Hd2).
  split; [|split; [by etrans|split]].
  - rewrite He2 at 1. rewrite He1 at 1. by destruct s1.
  - intros k Hk. destruct (Hm2 k Hk) as [H|H]; [|by right].
    destruct (Hm1 k H) as [H'|H']; [by left|]. right. by apply Hd2.
  - auto.
Qed.

Lemma dep_edit_append self k :
  dep_edit self (set_deps self (deps self ++ [k])).
Proof.
  split; [by destruct self|]. split; [done|]. split; [by left|].
  intros k' Hk'. cbn. apply elem_of_app. by left.
Qed.

Lemma dep_edit_mark self k :
  k ∈ deps self ->
  dep_edit self (set_implicit_deps self ({[k]} ∪ _implicit_deps self)).
Proof.
  intros Hk. split; [by destruct self|]. cbn.
  split; [set_solver|]. split; [|done].
  intros k' [->%elem_of_singleton|H]%elem_of_union; [by right | by left].
Qed.

Lemma dep_edit_implicit_in_deps self self' :
  dep_edit self self' -> implicit_in_deps self -> implicit_in_deps self'.
Proof.
  intros (_ & _ & Hm & Hd) Hself k Hk.
  destruct (Hm k Hk) as [H|H]; [|done]. by apply Hd, Hself.
Qed.

Section ResolverEdits.

Context {C : Collaborators}.

Lemma init_target_deps_edit self l w :
  cache_ok (parse_cache w) ->
  exists self' w',
    _init_target_deps self l w = (Ok self', w')
    /\ dep_edit self self' /\ _implicit_deps self' = _implicit_deps self
    /\ world_grows w w'.
Proof.
  revert self w. induction l as [|d rest IH]; intros self w Hok.
  - exists self, w. split; [done|].
    split; [apply dep_edit_refl|]. split; [done | by apply world_grows_refl].
  - destruct (init_target_deps_cons self d rest w Hok) as (w1 & Hg1 & ->).
    set (self1 := match resolved_key _ _ with Some _ => _ | None => _ end).
    assert (dep_edit self self1 /\ _implicit_deps self1 = _implicit_deps self)
      as [Hext Himp].
    { subst self1. destruct (resolved_key _ _) as [k|];
        [|split; [apply dep_edit_refl | done]].
      destruct (_ && _); [|split; [apply dep_edit_refl | done]].
      split; [apply dep_edit_append | done]. }
    destruct (IH self1 w1) as (self' & w' & -> & Hext' & Himp' & Hg');
      [apply Hg1|].
    exists self', w'. split; [done|].
    split; [by eapply dep_edit_trans|].
    split; [congruence | by eapply world_grows_trans].
Qed.

Lemma add_implicit_library_edit self l w :
  cache_ok (parse_cache w) ->
  exists self' w',
    _add_implicit_library self l w = (Ok self', w')
    /\ dep_edit self self' /\ world_grows w w'.
Proof.
  revert self w. induction l as [|dep rest IH]; intros self w Hok.
  - exists self, w. split; [done|].
    split; [apply dep_edit_refl | by apply world_grows_refl].
  - destruct (resolved_key (path self)
                (parse_target_uncached (implicit_reference dep)))
      as [k|] eqn:Hk.
    + destruct (add_implicit_library_cons self dep rest w k Hok Hk)
        as (w1 & Hg1 & ->).
      set (self1 := set_implicit_deps _ _).
      assert (dep_edit self self1) as Hext.
      { subst self1. case_bool_decide as Hin; [by apply dep_edit_mark|].
        eapply dep_edit_trans; [apply (dep_edit_append self k)|].
        apply dep_edit_mark. cbn. apply elem_of_app. right.
        by apply list_elem_of_singleton. }
      destruct (IH self1 w1) as (self' & w' & -> & Hext' & Hg');
        [apply Hg1|].
      exists self', w'. split; [done|].
      split; [by eapply dep_edit_trans | by eapply world_grows_trans].
    + destruct (add_implicit_library_returns_at_invalid self dep rest w Hok Hk)
        as (w' & Hg & ->).
      exists self, w'. split; [done|]. split; [apply dep_edit_refl|done].
Qed.

Lemma location_reference_edit self k ty w :
  cache_ok (parse_cache w) ->
  exists self' w' r,
    _add_location_reference_target self (k, ty) w = (Ok (self', r), w')
    /\ dep_edit self self' /\ world_grows w w'.
Proof.
  intros Hok. destruct (unify_dep_spec self k w Hok) as (w' & Hu & Hg & _).
  unfold _add_location_reference_target, bind. rewrite Hu. cbn [ret].
  eexists _, w', _. split; [reflexivity|]. split; [|done].
  destruct (resolved_key _ _) as [k'|]; [|apply dep_edit_refl].
  destruct (_ && _); [apply dep_edit_append | apply dep_edit_refl].
Qed.

Lemma run_dep_calls_edit self l w :
  cache_ok (parse_cache w) ->
  exists self' w',
    run_dep_calls self l w = (Ok self', w')
    /\ dep_edit self self' /\ world_grows w w'.
Proof.
  revert self w. induction l as [|c rest IH]; intros self w Hok.
  - exists self, w. split; [done|].
    split; [apply dep_edit_refl | by apply world_grows_refl].
  - assert (exists self1 w1,
              run_dep_call self c w = (Ok self1, w1)
              /\ dep_edit self self1 /\ world_grows w w1)
      as (self1 & w1 & Hc & Hext1 & Hg1).
    { destruct c as [l|l|[k ty]]; cbn [run_dep_call].
      - destruct (init_target_deps_edit self l w Hok)
          as (s1 & w1 & H & He & _ & Hg). by exists s1, w1.
      - by apply add_implicit_library_edit.
      - destruct (location_reference_edit self k ty w Hok)
          as (s1 & w1 & r & Hr & He & Hg).
        exists s1, w1. unfold bind. by rewrite Hr. }
    destruct (IH self1 w1) as (self' & w' & Hr & Hext' & Hg'); [apply Hg1|].
    exists self', w'. cbn [run_dep_calls]. unfold bind. rewrite Hc, Hr.
    split; [done|].
    split; [by eapply dep_edit_trans | by eapply world_grows_trans].
Qed.

(** Whatever sequence of [_init_target_deps], [_add_implicit_library] and
    [_add_location_reference_target] runs on a target, the methods return,
    every key marked implicit is among the dependencies, no mark is ever
    removed, and nothing but the dependency sequence and the marks changes
    in the target. *)
Theorem implicit_marks_are_dependencies
    (self : Target) (l : list dep_call) (w : World) :
  cache_ok (parse_cache w) ->
  implicit_in_deps self ->
  exists self' w',
    run_dep_calls self l w = (Ok self', w')
    /\ implicit_in_deps self'
    /\ _implicit_deps self ⊆ _implicit_deps self'
    /\ self' = set_implicit_deps (set_deps self (deps self'))
                 (_implicit_deps self').
Proof.
  intros Hok Himp.
  destruct (run_dep_calls_edit self l w Hok) as (self' & w' & Hr & He & _).
  exists self', w'. split; [done|].
  split; [by eapply dep_edit_implicit_in_deps|].
  destruct He as (He & Hi & _). done.
Qed.

End ResolverEdits.

Lemma implicit_marks_are_dependencies_witness :
  cache_ok (parse_cache (empty_world "base"))
  /\ implicit_in_deps (demo_target "lib" "cc_library" [])
  /\ exists self' w',
       run_dep_calls (C := plain_collaborators)
         (demo_target "lib" "cc_library" [])
         [CAddImplicitLibrary ["x:y"; "#pthread"]; CInitTargetDeps [":z"; "//x:y"];
          CAddLocationReference ("//q:r", None)]
         (empty_world "base") = (Ok self', w')
       /\ deps self' = ["x:y"; "#:pthread"; "base:z"; "q:r"]
       /\ _implicit_deps self' = {["x:y"; "#:pthread"]}.
Proof.
  assert (implicit_in_deps (demo_target "lib" "cc_library" [])) as Himp.
  { intros k Hk. cbn in Hk. set_solver. }
  split; [apply cache_ok_empty|]. split; [exact Himp|].
  destruct (implicit_marks_are_dependencies (C := plain_collaborators)
              (demo_target "lib" "cc_library" [])
              [CAddImplicitLibrary ["x:y"; "#pthread"];
               CInitTargetDeps [":z"; "//x:y"];
               CAddLocationReference ("//q:r", None)]
              (empty_world "base") cache_ok_empty Himp)
    as (self' & w' & Hrun & _).
  exists self', w'. split; [exact Hrun|].
  vm_compute in Hrun. injection Hrun as <- _. split; vm_compute; reflexivity.
Defined.

(** ** The constructor *)

Section Constructor.

Context {C : Collaborators} {K : TargetKinds}.

Lemma claim_sources_frame self allow action l w :
  parse_cache (claim_sources self allow action l w).2 = parse_cache w
  /\ target_database (claim_sources self allow action l w).2
     = target_database w.
Proof.
  revert w. induction l as [|src rest IH]; intros w; [done|].
  cbn [claim_sources]. unfold bind.
  assert (parse_cache (claim_source self allow action src w).2 = parse_cache w
          /\ target_database (claim_source self allow action src w).2
             = target_database w) as [Hp Hd].
  { unfold claim_source, error, warning, console_emit.
    destruct (src_target_map w !! _) as [[owner flag]|]; [|done].
    destruct (bool_decide _); [|done]. cbn [snd].
    destruct flag; [done|]. destruct allow; [done|].
    by repeat destruct (bool_decide _). }
  destruct (claim_source self allow action src w) as [[[]|e] w1];
    cbn [snd] in *; [|done].
  destruct (IH w1) as [Hp' Hd']. split; congruence.
Qed.

Lemma init_before_deps_spec n ty sources src_exts kwargs w self w' :
  init_before_deps n ty sources src_exts kwargs w = (Ok self, w') ->
  n <> ""
  /\ self = set_attr (new_target w n ty sources)
              [("test_timeout", config_test_timeout)]
  /\ parse_cache w' = parse_cache w
  /\ target_database w' = target_database w.
Proof.
  unfold init_before_deps, bind.
  case_bool_decide as Hn; [by cbn|]. cbn [ret].
  set (self0 := set_attr _ _).
  assert (exists w1, _check_name self0 w = (Ok tt, w1)
                     /\ parse_cache w1 = parse_cache w
                     /\ target_database w1 = target_database w)
    as (w1 & -> & Hp1 & Hd1).
  { unfold _check_name. destruct (PyStr.contains _ _); by eexists. }
  assert (exists w2, _check_kwargs self0 kwargs w1 = (Ok tt, w2)
                     /\ parse_cache w2 = parse_cache w1
                     /\ target_database w2 = target_database w1)
    as (w2 & -> & Hp2 & Hd2).
  { unfold _check_kwargs. destruct kwargs; by eexists. }
  unfold _check_srcs, bind, _check_sources, bind.
  destruct (check_sources_loop_counts self0 "source" src_exts (srcs self0)
              [] ∅ w2) as (body & r & -> & _).
  destruct r as [dups|e]; [|done].
  assert (exists w3,
            match dups with
            | [] => ret tt
            | _ :: _ => error self0 (msg_duplicate "source" dups)
            end (set_console_log w2 (console_log w2 ++ body)) = (Ok tt, w3)
            /\ parse_cache w3 = parse_cache w2
            /\ target_database w3 = target_database w2)
    as (w3 & -> & Hp3 & Hd3).
  { destruct dups; by eexists. }
  destruct (claim_sources_frame self0 (_allow_duplicate_source self0)
              config_duplicated_source_action (srcs self0) w3) as [Hp4 Hd4].
  destruct (claim_sources _ _ _ _ w3) as [[[]|e] w4]; [|done].
  cbn [snd] in Hp4, Hd4. intros [= <- <-].
  split; [done|]. split; [done|]. split; congruence.
Qed.

Lemma init_after_deps_fields self visibility :
  name (init_after_deps self visibility) = name self
  /\ type (init_after_deps self visibility) = type self
  /\ srcs (init_after_deps self visibility) = srcs self
  /\ path (init_after_deps self visibility) = path self
  /\ key (init_after_deps self visibility) = key self
  /\ fullname (init_after_deps self visibility) = fullname self
  /\ build_dir (init_after_deps self visibility) = build_dir self
  /\ attr (init_after_deps self visibility) = attr self
  /\ deps (init_after_deps self visibility) = deps self
  /\ _implicit_deps (init_after_deps self visibility) = _implicit_deps self
  /\ __build_code (init_after_deps self visibility) = None
  /\ __fingerprint (init_after_deps self visibility) = None
  /\ __targets (init_after_deps self visibility) = __targets self
  /\ __clean_list (init_after_deps self visibility) = __clean_list self.
Proof.
  unfold init_after_deps, _init_visibility.
  destruct visibility as [vis|]; [case_bool_decide|]; repeat split.
Qed.

(** A target [Target.__init__] returns has a name, takes its identity
    from the directory being loaded, carries the configured test timeout
    as its only attribute, lists no dependency twice, marks none implicit,
    and holds neither build code nor fingerprint nor outputs; the
    constructor registers no target but system libraries, and keeps every
    registered one. *)
Theorem constructed_target_is_fresh
    (n ty : string) (sources src_exts dependencies : list string)
    (visibility : option (list string)) (kwargs : pydict pyval)
    (w w' : World) (t : Target) :
  cache_ok (parse_cache w) ->
  Target_init n ty sources src_exts dependencies visibility kwargs w
  = (Ok t, w') ->
  n <> ""
  /\ name t = n /\ type t = ty /\ srcs t = sources
  /\ path t = current_source_path w
  /\ key t = current_source_path w +:+ ":" +:+ n
  /\ fullname t = "//" +:+ key t
  /\ build_dir t = blade_build_dir w
  /\ attr t = [("test_timeout", config_test_timeout)]
  /\ NoDup (deps t)
  /\ _implicit_deps t = ∅
  /\ __build_code t = None /\ __fingerprint t = None
  /\ __targets t = ∅ /\ get_clean_list t = []
  /\ target_database w ⊆ target_database w'.
Proof.
  intros Hok. unfold Target_init, bind.
  destruct (init_before_deps n ty sources src_exts kwargs w)
    as [[self0|e] w0] eqn:H0; [|done].
  destruct (init_before_deps_spec _ _ _ _ _ _ _ _ H0)
    as (Hn & Hself0 & Hp0 & Hd0).
  assert (cache_ok (parse_cache w0)) as Hok0 by by rewrite Hp0.
  destruct (init_target_deps_edit self0 dependencies w0 Hok0)
    as (self1 & w1 & H1 & (He & _) & Himp & Hg).
  destruct (init_target_deps_extends self0 dependencies w0 Hok0)
    as (self1' & w1' & H1' & (_ & _ & Hnd) & _).
  rewrite H1 in H1'. injection H1' as <- <-. rewrite H1. cbn [ret].
  intros [= <- <-].
  assert (NoDup (deps self1)) as Hnd1.
  { apply Hnd. rewrite Hself0. constructor. }
  assert (_implicit_deps self1 = ∅) as Himp1.
  { rewrite Himp, Hself0. reflexivity. }
  destruct Hg as (Hdb & _). rewrite Hd0 in Hdb.
  assert (name self1 = n /\ type self1 = ty /\ srcs self1 = sources
          /\ path self1 = current_source_path w
          /\ key self1 = current_source_path w +:+ ":" +:+ n
          /\ fullname self1 = "//" +:+ (current_source_path w +:+ ":" +:+ n)
          /\ build_dir self1 = blade_build_dir w
          /\ attr self1 = [("test_timeout", config_test_timeout)]
          /\ __targets self1 = ∅ /\ __clean_list self1 = [])
    as (F1 & F2 & F3 & F4 & F5 & F6 & F7 & F8 & F9 & F10).
  { rewrite He, Hself0. repeat split. }
  destruct (init_after_deps_fields self1 visibility)
    as (G1 & G2 & G3 & G4 & G5 & G6 & G7 & G8 & G9 & G10 & G11 & G12 & G13
        & G14).
  unfold get_clean_list.
  rewrite G1, G2, G3, G4, G5, G6, G7, G8, G9, G10, G11, G12, G13, G14.
  rewrite F1, F2, F3, F4, F5, F6, F7, F8, F9, F10.
  repeat split; assumption.
Qed.

End Constructor.

Lemma constructed_target_is_fresh_witness :
  cache_ok (parse_cache (empty_world "base"))
  /\ exists t w',
       Target_init (C := plain_collaborators) (K := plain_kinds)
         "lib" "cc_library" ["a.cc"] ["cc"] ["//x:y"; ":z"; "//x:y"; "#m"]
         None [] (empty_world "base") = (Ok t, w')
       /\ key t = "base:lib" /\ fullname t = "//base:lib"
       /\ NoDup (deps t).
Proof.
  split; [apply cache_ok_empty|].
  assert (exists t w',
            Target_init (C := plain_collaborators) (K := plain_kinds)
              "lib" "cc_library" ["a.cc"] ["cc"]
              ["//x:y"; ":z"; "//x:y"; "#m"] None [] (empty_world "base")
            = (Ok t, w')) as (t & w' & H).
  { eexists _, _. vm_compute. reflexivity. }
  exists t, w'. split; [exact H|].
  destruct (constructed_target_is_fresh (C := plain_collaborators)
              (K := plain_kinds) "lib" "cc_library" ["a.cc"] ["cc"]
              ["//x:y"; ":z"; "//x:y"; "#m"] None [] (empty_world "base")
              w' t cache_ok_empty H)
    as (_ & _ & _ & _ & _ & Hk & Hf & _ & _ & Hnd & _).
  split; [exact Hk|]. split; [|exact Hnd].
  rewrite Hf, Hk. reflexivity.
Defined.

(** ** Paths below the build directory *)

Lemma startswith_app p r : PyStr.startswith (p +:+ r) p = true.
Proof.
  induction p as [|a p IH]; [by destruct r|].
  change (String a p +:+ r) with (String a (p +:+ r)).
  cbn [PyStr.startswith]. by rewrite Ascii.eqb_refl, IH.
Qed.

Lemma drop_length_app p r : PyStr.drop (String.length p) (p +:+ r) = r.
Proof. induction p as [|a p IH]; [done|]. exact IH. Qed.

Lemma startswith_split s p :
  PyStr.startswith s p = true -> s = p +:+ PyStr.drop (String.length p) s.
Proof.
  revert s. induction p as [|b p IH]; intros s; [done|].
  destruct s as [|a s]; [done|]. cbn [PyStr.startswith].
  intros [Hab Hs]%andb_true_iff. apply Ascii.eqb_eq in Hab. subst b.
  change (String a p +:+ PyStr.drop (String.length (String a p)) (String a s))
    with (String a (p +:+ PyStr.drop (String.length p) s)).
  f_equal. by apply IH.
Qed.

(** [_remove_build_dir_prefix] undoes putting the build directory and a
    slash in front of a path, and takes away nothing else: its result is
    the path itself, or what follows the build directory and the slash the
    path starts with. *)
Theorem remove_build_dir_prefix_inverts_prefixing (self : Target)
    (p : string) :
  _remove_build_dir_prefix self ((build_dir self +:+ "/") +:+ p) = p
  /\ (_remove_build_dir_prefix self p = p
      \/ p = (build_dir self +:+ "/") +:+ _remove_build_dir_prefix self p).
Proof.
  unfold _remove_build_dir_prefix. split.
  - by rewrite startswith_app, drop_length_app.
  - destruct (PyStr.startswith p (build_dir self +:+ "/")) eqn:E;
      [right | by left].
    by apply startswith_split.
Qed.
